(** * JsCrawlar: a sequential same-domain crawler that collects JavaScript URLs

    Shallow embedding of [JsCrawlar.go] (package [main]: [main],
    [extractJS], [extractLinks], [resolveURL], [sameDomain]) together with
    models of the library calls it makes:

    - [gostrings]: the functions of Go's [strings] package that the program
      and [net/url] use, on byte strings;
    - [url]: Go's [net/url] ([Parse], [IsAbs], [String], [ResolveReference]);
    - [html]: the node tree of [golang.org/x/net/html]; the parser itself is
      a parameter of the world the program runs in, as is the network. *)

From Stdlib Require Import Ascii String NArith ZArith Bool Lia List.
From stdpp Require Import gmap strings list.

Local Open Scope Z_scope.

(* ===================================================================== *)
(** * Go's [strings] package on byte strings *)
(* ===================================================================== *)

Module gostrings.

(** A Go [string] is a sequence of bytes: [string] over 8-bit [ascii]. *)

Definition len (s : string) : Z := Z.of_nat (String.length s).

Fixpoint drop (n : nat) (s : string) : string :=
  match n, s with
  | O, _ => s
  | S n', String _ s' => drop n' s'
  | S _, EmptyString => EmptyString
  end.

Fixpoint take (n : nat) (s : string) : string :=
  match n, s with
  | O, _ => EmptyString
  | S n', String c s' => String c (take n' s')
  | S _, EmptyString => EmptyString
  end.

(** [s[i:]] and [s[:j]]; the program only slices inside bounds. *)
Definition slice_from (s : string) (i : Z) : string := drop (Z.to_nat i) s.
Definition slice_to (s : string) (j : Z) : string := take (Z.to_nat j) s.

(** [strings.HasPrefix(s, prefix)] *)
Fixpoint HasPrefix (s prefix : string) {struct prefix} : bool :=
  match prefix, s with
  | EmptyString, _ => true
  | String p prefix', String c s' => Ascii.eqb c p && HasPrefix s' prefix'
  | String _ _, EmptyString => false
  end.

(** [strings.HasSuffix(s, suffix)]:
    [len(s) >= len(suffix) && s[len(s)-len(suffix):] == suffix] *)
Definition HasSuffix (s suffix : string) : bool :=
  (len suffix <=? len s) && String.eqb (slice_from s (len s - len suffix)) suffix.

(** [strings.Index(s, substr)]: first position of [substr], or [-1]. *)
Fixpoint Index (s substr : string) : Z :=
  if HasPrefix s substr then 0
  else match s with
       | EmptyString => -1
       | String _ s' => let i := Index s' substr in if i <? 0 then -1 else 1 + i
       end.

(** [strings.LastIndex(s, substr)]: last position of [substr], or [-1]. *)
Fixpoint LastIndex (s substr : string) : Z :=
  match s with
  | EmptyString => if HasPrefix s substr then 0 else -1
  | String _ s' =>
      let i := LastIndex s' substr in
      if 0 <=? i then 1 + i else if HasPrefix s substr then 0 else -1
  end.

Definition Contains (s substr : string) : bool := 0 <=? Index s substr.

(** [strings.Cut(s, sep)]: [(before, after, found)]. *)
Definition Cut (s sep : string) : string * string * bool :=
  let i := Index s sep in
  if 0 <=? i then (slice_to s i, slice_from s (i + len sep), true)
  else (s, EmptyString, false).

(** [strings.Count(s, substr)] for a one-byte [substr]. *)
Fixpoint CountByte (s : string) (c : ascii) : Z :=
  match s with
  | EmptyString => 0
  | String d s' => (if Ascii.eqb d c then 1 else 0) + CountByte s' c
  end.

Definition lower (c : ascii) : ascii :=
  let n := N_of_ascii c in
  if ((65 <=? n) && (n <=? 90))%N then ascii_of_N (n + 32) else c.

(** [strings.ToLower] on the ASCII letters (the only bytes a scheme has). *)
Fixpoint ToLower (s : string) : string :=
  match s with
  | EmptyString => EmptyString
  | String c s' => String (lower c) (ToLower s')
  end.

Fixpoint mem (c : ascii) (cutset : string) : bool :=
  match cutset with
  | EmptyString => false
  | String d cs => Ascii.eqb c d || mem c cs
  end.

(** [strings.TrimRight(s, cutset)]: drop the trailing bytes that are in
    [cutset]. *)
Fixpoint TrimRight (s cutset : string) : string :=
  match s with
  | EmptyString => EmptyString
  | String c s' =>
      match TrimRight s' cutset with
      | EmptyString => if mem c cutset then EmptyString else String c EmptyString
      | t => String c t
      end
  end.

End gostrings.

(* ===================================================================== *)
(** * Go's [net/url]: [Parse], [IsAbs], [String], [ResolveReference] *)
(* ===================================================================== *)

(** The crawler uses [net/url] for every decision about a reference. The
    package is part of Go's standard library, not of this repository; the
    module below follows its implementation function by function, as of
    Go 1.19 to 1.24 (from [URL.OmitHost] on, before bracketed hosts were
    further required to be IPv6 addresses). Errors are [None]: the program
    only tests [err != nil]. *)

Module url.
Import gostrings.

Inductive encoding : Set :=
  | encodePath | encodePathSegment | encodeHost | encodeZone
  | encodeUserPassword | encodeQueryComponent | encodeFragment.

Definition encoding_eqb (a b : encoding) : bool :=
  match a, b with
  | encodePath, encodePath | encodePathSegment, encodePathSegment
  | encodeHost, encodeHost | encodeZone, encodeZone
  | encodeUserPassword, encodeUserPassword
  | encodeQueryComponent, encodeQueryComponent
  | encodeFragment, encodeFragment => true
  | _, _ => false
  end.

Record Userinfo : Set := mkUserinfo {
  username : string;
  password : string;
  passwordSet : bool
}.

Record URL : Set := mkURL {
  Scheme : string;
  Opaque : string;          (* encoded opaque data *)
  User : option Userinfo;   (* [*Userinfo], [nil] is [None] *)
  Host : string;            (* host or host:port *)
  Path : string;            (* decoded path *)
  RawPath : string;         (* encoded path hint *)
  OmitHost : bool;
  ForceQuery : bool;
  RawQuery : string;        (* encoded query, without '?' *)
  Fragment : string;        (* decoded fragment, without '#' *)
  RawFragment : string      (* encoded fragment hint *)
}.

(** [new(URL)]: every field at its zero value. *)
Definition zero : URL :=
  mkURL "" "" None "" "" "" false false "" "" "".

Definition code (c : ascii) : N := N_of_ascii c.

Definition between (lo hi c : ascii) : bool :=
  ((code lo <=? code c) && (code c <=? code hi))%N.

Definition isalpha (c : ascii) : bool := between "a" "z" c || between "A" "Z" c.
Definition isdigit (c : ascii) : bool := between "0" "9" c.
Definition isalnum (c : ascii) : bool := isalpha c || isdigit c.

Definition ishex (c : ascii) : bool :=
  between "0" "9" c || between "a" "f" c || between "A" "F" c.

Definition unhex (c : ascii) : N :=
  (if between "0" "9" c then code c - code "0"
   else if between "a" "f" c then code c - code "a" + 10
   else if between "A" "F" c then code c - code "A" + 10
   else 0)%N.

Definition upperhex (n : N) : ascii :=
  (if n <? 10 then ascii_of_N (code "0" + n) else ascii_of_N (code "A" + (n - 10)))%N.

(** The double quote, written by its code so that no literal needs one. *)
Definition dquote : ascii := "034"%char.

(** [shouldEscape(c, mode)] *)
Definition shouldEscape (c : ascii) (mode : encoding) : bool :=
  if isalnum c then false
  else if (encoding_eqb mode encodeHost || encoding_eqb mode encodeZone)
          && (mem c "!$&'()*+,;=:[]<>" || Ascii.eqb c dquote) then false
  else if mem c "-_.~" then false
  else if mem c "$&+,/:;=?@" then
    match mode with
    | encodePath => Ascii.eqb c "?"
    | encodePathSegment => mem c "/;,?"
    | encodeUserPassword => mem c "@/?:"
    | encodeQueryComponent => true
    | encodeFragment => false
    | encodeHost | encodeZone => true
    end
  else if encoding_eqb mode encodeFragment && mem c "!()*" then false
  else true.

(** [unescape(s, mode)]: Go validates in a first pass and decodes in a
    second; one pass that fails at the first malformed byte decides the same
    error and builds the same string. *)
Fixpoint unescape (s : string) (mode : encoding) : option string :=
  match s with
  | EmptyString => Some EmptyString
  | String c rest =>
      if Ascii.eqb c "%" then
        match rest with
        | String h1 (String h2 rest') =>
            if negb (ishex h1 && ishex h2) then None
            else if encoding_eqb mode encodeHost && (unhex h1 <? 8)%N
                    && negb (Ascii.eqb h1 "2" && Ascii.eqb h2 "5") then None
            else if encoding_eqb mode encodeZone
                    && negb (Ascii.eqb h1 "2" && Ascii.eqb h2 "5")
                    && negb (Ascii.eqb (ascii_of_N (unhex h1 * 16 + unhex h2)) " ")
                    && shouldEscape (ascii_of_N (unhex h1 * 16 + unhex h2)) encodeHost
                 then None
            else option_map (String (ascii_of_N (unhex h1 * 16 + unhex h2)))
                            (unescape rest' mode)
        | _ => None
        end
      else if Ascii.eqb c "+" then
        option_map (String (if encoding_eqb mode encodeQueryComponent then " "%char else c))
                   (unescape rest mode)
      else if (encoding_eqb mode encodeHost || encoding_eqb mode encodeZone)
              && (code c <? 128)%N && shouldEscape c encodeHost then None
      else option_map (String c) (unescape rest mode)
  end.

(** [escape(s, mode)] *)
Fixpoint escape (s : string) (mode : encoding) : string :=
  match s with
  | EmptyString => EmptyString
  | String c rest =>
      if shouldEscape c mode then
        if Ascii.eqb c " " && encoding_eqb mode encodeQueryComponent
        then String "+" (escape rest mode)
        else String "%" (String (upperhex (code c / 16))
                        (String (upperhex (code c mod 16)) (escape rest mode)))
      else String c (escape rest mode)
  end.

(** [validEncoded(s, mode)] *)
Fixpoint validEncoded (s : string) (mode : encoding) : bool :=
  match s with
  | EmptyString => true
  | String c rest =>
      (mem c "!$&'()*+,;=:@[]%" || negb (shouldEscape c mode))
      && validEncoded rest mode
  end.

(** [stringContainsCTLByte(s)] *)
Fixpoint stringContainsCTLByte (s : string) : bool :=
  match s with
  | EmptyString => false
  | String c rest => (code c <? 32)%N || (code c =? 127)%N || stringContainsCTLByte rest
  end.

(** [getScheme(rawURL)]: [(scheme, path)], or an error for a leading colon. *)
Fixpoint getScheme_from (rawURL : string) (i : Z) (s : string) : option (string * string) :=
  match s with
  | EmptyString => Some (EmptyString, rawURL)
  | String c s' =>
      if isalpha c then getScheme_from rawURL (i + 1) s'
      else if isdigit c || mem c "+-." then
        if i =? 0 then Some (EmptyString, rawURL) else getScheme_from rawURL (i + 1) s'
      else if Ascii.eqb c ":" then
        if i =? 0 then None else Some (slice_to rawURL i, slice_from rawURL (i + 1))
      else Some (EmptyString, rawURL)
  end.

Definition getScheme (rawURL : string) : option (string * string) :=
  getScheme_from rawURL 0 rawURL.

(** [validOptionalPort(port)] *)
Fixpoint alldigits (s : string) : bool :=
  match s with
  | EmptyString => true
  | String c rest => isdigit c && alldigits rest
  end.

Definition validOptionalPort (port : string) : bool :=
  match port with
  | EmptyString => true
  | String c rest => Ascii.eqb c ":" && alldigits rest
  end.

(** [validUserinfo(s)]: the loop is over runes, and no rune above ASCII is
    accepted, so a byte is accepted exactly when it is one of the listed
    ASCII characters. *)
Fixpoint validUserinfo (s : string) : bool :=
  match s with
  | EmptyString => true
  | String c rest => (isalnum c || mem c "-._:~!$&'()*+,;=%@") && validUserinfo rest
  end.

(** [parseHost(host)] *)
Definition parseHost (host : string) : option string :=
  let general := unescape host encodeHost in
  if HasPrefix host "[" then
    let i := LastIndex host "]" in
    if i <? 0 then None
    else if negb (validOptionalPort (slice_from host (i + 1))) then None
    else
      let zone := Index (slice_to host i) "%25" in
      if 0 <=? zone then
        match unescape (slice_to host zone) encodeHost with
        | None => None
        | Some host1 =>
            match unescape (slice_from (slice_to host i) zone) encodeZone with
            | None => None
            | Some host2 =>
                match unescape (slice_from host i) encodeHost with
                | None => None
                | Some host3 => Some (host1 +:+ host2 +:+ host3)
                end
            end
        end
      else general
  else
    let i := LastIndex host ":" in
    if negb (i =? -1) && negb (validOptionalPort (slice_from host i)) then None
    else general.

(** [parseAuthority(authority)]: [(user, host)] *)
Definition parseAuthority (authority : string) : option (option Userinfo * string) :=
  let i := LastIndex authority "@" in
  match parseHost (if i <? 0 then authority else slice_from authority (i + 1)) with
  | None => None
  | Some host =>
      if i <? 0 then Some (None, host)
      else
        let userinfo := slice_to authority i in
        if negb (validUserinfo userinfo) then None
        else if negb (Contains userinfo ":") then
          match unescape userinfo encodeUserPassword with
          | None => None
          | Some name => Some (Some (mkUserinfo name "" false), host)
          end
        else
          let '(name, pass, _) := Cut userinfo ":" in
          match unescape name encodeUserPassword with
          | None => None
          | Some name =>
              match unescape pass encodeUserPassword with
              | None => None
              | Some pass => Some (Some (mkUserinfo name pass true), host)
              end
          end
  end.

(** [u.setPath(p)]: on an error the receiver is left as it was. *)
Definition setPath (u : URL) (p : string) : option URL :=
  match unescape p encodePath with
  | None => None
  | Some path =>
      Some (mkURL (Scheme u) (Opaque u) (User u) (Host u) path
                  (if String.eqb p (escape path encodePath) then EmptyString else p)
                  (OmitHost u) (ForceQuery u) (RawQuery u) (Fragment u) (RawFragment u))
  end.

(** [u.setFragment(f)] *)
Definition setFragment (u : URL) (f : string) : option URL :=
  match unescape f encodeFragment with
  | None => None
  | Some frag =>
      Some (mkURL (Scheme u) (Opaque u) (User u) (Host u) (Path u) (RawPath u)
                  (OmitHost u) (ForceQuery u) (RawQuery u) frag
                  (if String.eqb f (escape frag encodeFragment) then EmptyString else f))
  end.

(** The split of the query off [rest] in [parse]: the remaining [rest],
    [ForceQuery] and [RawQuery]. *)
Definition splitQuery (rest : string) : string * bool * string :=
  if HasSuffix rest "?" && (CountByte rest "?" =? 1)
  then (slice_to rest (len rest - 1), true, EmptyString)
  else let '(r, q, _) := Cut rest "?" in (r, false, q).

(** [parse] from the split of the query on: opaque data, or authority and
    path. *)
Definition parse_rest (scheme rest : string) (force : bool) (query : string) : option URL :=
  if negb (HasPrefix rest "/") && negb (String.eqb scheme "") then
    (* rootless path after a scheme: opaque *)
    Some (mkURL scheme rest None "" "" "" false force query "" "")
  else if negb (HasPrefix rest "/")
          && Contains (fst (fst (Cut rest "/"))) ":" then
    None (* first path segment in URL cannot contain colon *)
  else if (negb (String.eqb scheme "") || negb (HasPrefix rest "///"))
          && HasPrefix rest "//" then
    let authority := slice_from rest 2 in
    let i := Index authority "/" in
    let '(authority, rest) :=
      if 0 <=? i then (slice_to authority i, slice_from authority i)
      else (authority, EmptyString) in
    match parseAuthority authority with
    | None => None
    | Some (user, host) =>
        setPath (mkURL scheme "" user host "" "" false force query "" "") rest
    end
  else
    let omit := negb (String.eqb scheme "") && HasPrefix rest "/" in
    setPath (mkURL scheme "" None "" "" "" omit force query "" "") rest.

(** [parse(rawURL, viaRequest)] at [viaRequest = false], the only way
    [Parse] calls it. *)
Definition parse (rawURL : string) : option URL :=
  if stringContainsCTLByte rawURL then None
  else if String.eqb rawURL "*" then
    Some (mkURL "" "" None "" "*" "" false false "" "" "")
  else
    match getScheme rawURL with
    | None => None
    | Some (scheme, rest) =>
        let '(rest, force, query) := splitQuery rest in
        parse_rest (ToLower scheme) rest force query
    end.

(** [url.Parse(rawURL)] *)
Definition Parse (rawURL : string) : option URL :=
  let '(u, frag, _) := Cut rawURL "#" in
  match parse u with
  | None => None
  | Some url => if String.eqb frag "" then Some url else setFragment url frag
  end.

(** [strings.Split(s, "/")]: the elements that the loop of [resolvePath]
    takes off the front of [remaining] with [strings.Cut], one by one. *)
Fixpoint split_slash (s : string) : list string :=
  match s with
  | EmptyString => [EmptyString]
  | String c s' =>
      if Ascii.eqb c "/" then EmptyString :: split_slash s'
      else match split_slash s' with
           | e :: es => String c e :: es
           | [] => [String c EmptyString]
           end
  end.

(** One turn of the loop of [resolvePath] on the state [(dst, first)]. *)
Definition resolve_step (st : string * bool) (elem : string) : string * bool :=
  let '(dst, first) := st in
  if String.eqb elem "." then (dst, false)
  else if String.eqb elem ".." then
    let str := slice_from dst 1 in
    let index := LastIndex str "/" in
    if index =? -1 then ("/", true) else ("/" +:+ slice_to str index, first)
  else ((if first then dst else dst +:+ "/") +:+ elem, false).

(** [resolvePath(base, ref)] *)
Definition resolvePath (base ref : string) : string :=
  let full :=
    match ref with
    | EmptyString => base
    | String c _ =>
        if Ascii.eqb c "/" then ref
        else slice_to base (LastIndex base "/" + 1) +:+ ref
    end in
  if String.eqb full "" then ""
  else
    let elems := split_slash full in
    let '(dst, _) := fold_left resolve_step elems ("/", true) in
    let elem := List.last elems EmptyString in
    let r := if String.eqb elem "." || String.eqb elem ".." then dst +:+ "/" else dst in
    match r with
    | String _ (String c _ as r') => if Ascii.eqb c "/" then r' else r
    | _ => r
    end.

(** [u.IsAbs()] *)
Definition IsAbs (u : URL) : bool := negb (String.eqb (Scheme u) "").

(** [u.EscapedPath()] *)
Definition EscapedPath (u : URL) : string :=
  if negb (String.eqb (RawPath u) "") && validEncoded (RawPath u) encodePath
     && match unescape (RawPath u) encodePath with
        | Some p => String.eqb p (Path u)
        | None => false
        end
  then RawPath u
  else if String.eqb (Path u) "*" then "*"
  else escape (Path u) encodePath.

(** [u.EscapedFragment()] *)
Definition EscapedFragment (u : URL) : string :=
  if negb (String.eqb (RawFragment u) "") && validEncoded (RawFragment u) encodeFragment
     && match unescape (RawFragment u) encodeFragment with
        | Some f => String.eqb f (Fragment u)
        | None => false
        end
  then RawFragment u
  else escape (Fragment u) encodeFragment.

(** [Userinfo.String()] on a non-nil receiver. *)
Definition Userinfo_String (ui : Userinfo) : string :=
  escape (username ui) encodeUserPassword
  +:+ (if passwordSet ui then ":" +:+ escape (password ui) encodeUserPassword else "").

Definition is_nil {A} (o : option A) : bool :=
  match o with None => true | Some _ => false end.

Definition nonempty (s : string) : bool := negb (String.eqb s "").

(** [u.String()]: the pieces are written to a buffer in this order. *)
Definition String_authority (u : URL) : string :=
  if nonempty (Scheme u) || nonempty (Host u) || negb (is_nil (User u)) then
    if OmitHost u && String.eqb (Host u) "" && is_nil (User u) then ""
    else
      (if nonempty (Host u) || nonempty (Path u) || negb (is_nil (User u)) then "//" else "")
      +:+ (match User u with Some ui => Userinfo_String ui +:+ "@" | None => "" end)
      +:+ (if nonempty (Host u) then escape (Host u) encodeHost else "")
  else "".

Definition String_hier (u : URL) : string :=
  let buf := (if nonempty (Scheme u) then Scheme u +:+ ":" else "") +:+ String_authority u in
  let path := EscapedPath u in
  let buf :=
    buf +:+ (if nonempty path && negb (HasPrefix path "/") && nonempty (Host u)
             then "/" else "") in
  let buf :=
    if String.eqb buf "" && Contains (fst (fst (Cut path "/"))) ":"
    then "./" else buf in
  buf +:+ path.

Definition String (u : URL) : string :=
  (if nonempty (Opaque u)
   then (if nonempty (Scheme u) then Scheme u +:+ ":" else "") +:+ Opaque u
   else String_hier u)
  +:+ (if ForceQuery u || nonempty (RawQuery u) then "?" +:+ RawQuery u else "")
  +:+ (if nonempty (Fragment u) then "#" +:+ EscapedFragment u else "").

(** [url.setPath(p)] with the error dropped, as [ResolveReference] calls it. *)
Definition setPath_ignore (u : URL) (p : string) : URL :=
  match setPath u p with
  | Some u' => u'
  | None => u
  end.

(** [u.ResolveReference(ref)] *)
Definition ResolveReference (u ref : URL) : URL :=
  let scheme := if String.eqb (Scheme ref) "" then Scheme u else Scheme ref in
  if nonempty (Scheme ref) || nonempty (Host ref) || negb (is_nil (User ref)) then
    (* the "absoluteURI" or "net_path" cases *)
    setPath_ignore
      (mkURL scheme (Opaque ref) (User ref) (Host ref) (Path ref) (RawPath ref)
             (OmitHost ref) (ForceQuery ref) (RawQuery ref) (Fragment ref) (RawFragment ref))
      (resolvePath (EscapedPath ref) "")
  else if nonempty (Opaque ref) then
    mkURL scheme (Opaque ref) None "" "" (RawPath ref)
          (OmitHost ref) (ForceQuery ref) (RawQuery ref) (Fragment ref) (RawFragment ref)
  else
    let inherit := String.eqb (Path ref) "" && negb (ForceQuery ref)
                   && String.eqb (RawQuery ref) "" in
    let query := if inherit then RawQuery u else RawQuery ref in
    let frag := if inherit && String.eqb (Fragment ref) "" then Fragment u else Fragment ref in
    let rawfrag :=
      if inherit && String.eqb (Fragment ref) "" then RawFragment u else RawFragment ref in
    if String.eqb (Path ref) "" && nonempty (Opaque u) then
      mkURL scheme (Opaque u) None "" "" (RawPath ref)
            (OmitHost ref) (ForceQuery ref) query frag rawfrag
    else
      (* the "abs_path" or "rel_path" cases *)
      setPath_ignore
        (mkURL scheme (Opaque ref) (User u) (Host u) (Path ref) (RawPath ref)
               (OmitHost ref) (ForceQuery ref) query frag rawfrag)
        (resolvePath (EscapedPath u) (EscapedPath ref)).

End url.

(* ===================================================================== *)
(** * The node tree of [golang.org/x/net/html] *)
(* ===================================================================== *)

Module html.

Inductive NodeType : Set :=
  | ErrorNode | TextNode | DocumentNode | ElementNode
  | CommentNode | DoctypeNode | RawNode.

Definition NodeType_eqb (a b : NodeType) : bool :=
  match a, b with
  | ErrorNode, ErrorNode | TextNode, TextNode | DocumentNode, DocumentNode
  | ElementNode, ElementNode | CommentNode, CommentNode
  | DoctypeNode, DoctypeNode | RawNode, RawNode => true
  | _, _ => false
  end.

Record Attribute : Set := mkAttr {
  Namespace : string;
  Key : string;
  Val : string
}.

(** A [*html.Node]: [Children] is the chain [FirstChild], [NextSibling],
    ... that the program walks. *)
#[local] Unset Elimination Schemes.
Inductive Node : Set :=
  mkNode (Type_ : NodeType) (Data : string) (Attr : list Attribute)
         (Children : list Node).
#[local] Set Elimination Schemes.

(** Induction on a tree, with the property known of every child. *)
Fixpoint Node_ind (P : Node -> Prop)
    (step : forall t d a cs, Forall P cs -> P (mkNode t d a cs)) (n : Node) : P n :=
  match n with
  | mkNode t d a cs =>
      step t d a cs
        ((fix children (l : list Node) : Forall P l :=
            match l with
            | [] => Forall_nil_2 P
            | c :: l' => Forall_cons_2 P c l' (Node_ind P step c) (children l')
            end) cs)
  end.

Definition Type_ (n : Node) := let 'mkNode t _ _ _ := n in t.
Definition Data (n : Node) := let 'mkNode _ d _ _ := n in d.
Definition Attr (n : Node) := let 'mkNode _ _ a _ := n in a.
Definition Children (n : Node) := let 'mkNode _ _ _ cs := n in cs.

(** The nodes of a tree in document order, the order [rec] visits them. *)
Fixpoint nodes (n : Node) : list Node :=
  match n with
  | mkNode _ _ _ cs => n :: flat_map nodes cs
  end.

(** An element with the given tag name, attributes and children. *)
Definition elem (tag : string) (attrs : list (string * string)) (cs : list Node) : Node :=
  mkNode ElementNode tag (map (fun kv => mkAttr "" (fst kv) (snd kv)) attrs) cs.

Definition text (s : string) : Node := mkNode TextNode s [] [].

(** The document node with [<html><head>..</head><body>..</body></html>]. *)
Definition document (head body : list Node) : Node :=
  mkNode DocumentNode "" [] [elem "html" [] [elem "head" [] head; elem "body" [] body]].

End html.

(* ===================================================================== *)
(** * The world the program runs in *)
(* ===================================================================== *)

(** An [*http.Response] as far as the program reads it: the status code and
    the outcome of [io.ReadAll(resp.Body)] ([None] is a read error). *)
Record Response : Set := mkResponse {
  StatusCode : Z;
  Body : option string
}.

(** What the program asks of its environment.

    - [html_Parse content] is [html.Parse(strings.NewReader(content))];
      [None] is its error.
    - [crawl_Get page] is the [http.Get(page)] of the crawl loop, and
      [probe_Get js] the [http.Get(js)] of the test loop; [None] is a
      transport error. Each loop asks for a URL at most once, so a function
      of the URL describes every run.
    - [os_Create name] tells whether [os.Create(name)] succeeds.
    - [map_range k m] is the order in which the [k]-th [for .. range] loop
      over the map [m] yields its keys; Go leaves it unspecified. *)
Record World : Type := mkWorld {
  html_Parse : string -> option html.Node;
  crawl_Get : string -> option Response;
  probe_Get : string -> option Response;
  os_Create : string -> bool;
  map_range : nat -> gmap string bool -> list string
}.

(** Go yields every key of the map exactly once. *)
Definition range_ok (w : World) : Prop :=
  forall k (m : gmap string bool), map_range w k m ≡ₚ elements (dom m).

(* ===================================================================== *)
(** * JsCrawlar.go *)
(* ===================================================================== *)

Import gostrings.

(** [resolveURL] makes [href] absolute against [base]; the empty string
    stands for a failure. *)
Definition resolveURL (base href : string) : string :=
  match url.Parse href with
  | None => ""
  | Some u =>
      if url.IsAbs u then url.String u
      else match url.Parse base with
           | None => ""
           | Some bu => url.String (url.ResolveReference bu u)
           end
  end.

(** [sameDomain] ensures the link's host matches [domain]. *)
Definition sameDomain (link domain : string) : bool :=
  match url.Parse link with
  | None => false
  | Some u => String.eqb (url.Host u) domain
  end.

(** The loop over the attributes of a [script] element. *)
Definition script_attrs (base : string) (attrs : list html.Attribute)
    (out : list string) : list string :=
  fold_left
    (fun out a =>
       if String.eqb (html.Key a) "src" then
         let u := resolveURL base (html.Val a) in
         if HasSuffix u ".js" then out ++ [u] else out
       else out)
    attrs out.

(** The loop over the attributes of a [link] element: [(rel, as, href)],
    each the value of the last attribute of that name, or empty. *)
Definition link_attrs (attrs : list html.Attribute) : string * string * string :=
  fold_left
    (fun '(rel, as_, href) a =>
       if String.eqb (html.Key a) "rel" then (html.Val a, as_, href)
       else if String.eqb (html.Key a) "as" then (rel, html.Val a, href)
       else if String.eqb (html.Key a) "href" then (rel, as_, html.Val a)
       else (rel, as_, href))
    attrs ("", "", "").

(** What one node appends to [out] in [extractJS], before its children. *)
Definition visitJS (base : string) (n : html.Node) (out : list string) : list string :=
  if html.NodeType_eqb (html.Type_ n) html.ElementNode then
    let out :=
      if String.eqb (html.Data n) "script"
      then script_attrs base (html.Attr n) out else out in
    if String.eqb (html.Data n) "link" then
      let '(rel, as_, href) := link_attrs (html.Attr n) in
      if (String.eqb rel "modulepreload" || String.eqb rel "prefetch")
         && String.eqb as_ "script" then
        let u := resolveURL base href in
        if HasSuffix u ".js" then out ++ [u] else out
      else out
    else out
  else out.

(** The closure [rec] of [extractJS]; [out] is the captured slice. *)
Fixpoint recJS (base : string) (n : html.Node) (out : list string) {struct n} : list string :=
  match n with
  | html.mkNode _ _ _ cs =>
      fold_left (fun out c => recJS base c out) cs (visitJS base n out)
  end.

(** [extractJS] finds [<script src>] and
    [<link rel=modulepreload|prefetch as=script>] URLs ending with [.js]. *)
Definition extractJS (w : World) (htmlContent base : string) : list string :=
  match html_Parse w htmlContent with
  | None => []
  | Some doc => recJS base doc []
  end.

(** What one node appends to [out] in [extractLinks]. *)
Definition visitLinks (base : string) (n : html.Node) (out : list string) : list string :=
  if html.NodeType_eqb (html.Type_ n) html.ElementNode && String.eqb (html.Data n) "a" then
    fold_left
      (fun out a =>
         if String.eqb (html.Key a) "href"
         then out ++ [resolveURL base (html.Val a)] else out)
      (html.Attr n) out
  else out.

(** The closure [rec] of [extractLinks]. *)
Fixpoint recLinks (base : string) (n : html.Node) (out : list string) {struct n} : list string :=
  match n with
  | html.mkNode _ _ _ cs =>
      fold_left (fun out c => recLinks base c out) cs (visitLinks base n out)
  end.

(** [extractLinks] finds [<a href>] URLs. *)
Definition extractLinks (w : World) (htmlContent base : string) : list string :=
  match html_Parse w htmlContent with
  | None => []
  | Some doc => recLinks base doc []
  end.

(** The variables of the crawl loop of [main]; [crawled] lists the pages of
    the [Crawling page] lines, that is the [http.Get] calls, in order. *)
Record Crawl : Type := mkCrawl {
  seen : gmap string bool;
  queue : list string;
  jsSet : gmap string bool;
  crawled : list string
}.

(** [m[k]] on a [map[string]bool]: [false] for a missing key. *)
Definition index (m : gmap string bool) (k : string) : bool := default false (m !! k).

(** The body of [for _, link := range extractLinks(content, page)]. *)
Definition enqueue (domain : string) (sq : gmap string bool * list string) (link : string)
    : gmap string bool * list string :=
  let '(seen, queue) := sq in
  if sameDomain link domain && negb (index seen link)
  then (<[link := true]> seen, queue ++ [link])
  else (seen, queue).

(** One turn of [for len(queue) > 0]. *)
Definition crawl_page (w : World) (domain : string) (st : Crawl) : Crawl :=
  match queue st with
  | [] => st
  | page :: queue' =>
      let crawled' := crawled st ++ [page] in
      match crawl_Get w page with
      | None => mkCrawl (seen st) queue' (jsSet st) crawled'
      | Some resp =>
          match Body resp with
          | None => mkCrawl (seen st) queue' (jsSet st) crawled'
          | Some content =>
              let jsSet' :=
                fold_left (fun m js => <[js := true]> m) (extractJS w content page) (jsSet st) in
              let '(seen', queue'') :=
                fold_left (enqueue domain) (extractLinks w content page) (seen st, queue') in
              mkCrawl seen' queue'' jsSet' crawled'
          end
      end
  end.

(** The crawl loop, for at most [fuel] turns: [Some] once the queue is
    empty, [None] while pages are still waiting. *)
Fixpoint crawl (w : World) (domain : string) (fuel : nat) (st : Crawl) : option Crawl :=
  match queue st with
  | [] => Some st
  | _ :: _ =>
      match fuel with
      | O => None
      | S fuel' => crawl w domain fuel' (crawl_page w domain st)
      end
  end.

(** [seen := map[string]bool{root: true}; queue := []string{root};
    jsSet := map[string]bool{}] *)
Definition crawl_init (root : string) : Crawl :=
  mkCrawl {[ root := true ]} [root] ∅ [].

(** What a run leaves behind: the exit code, the pages fetched, the files
    created with the lines written to them, and the JS URLs probed. *)
Record Run : Type := mkRun {
  exit_code : Z;
  pages : list string;
  files : list (string * list string);
  probed : list string;
  visited : Z;
  found : Z
}.

(** The body of the test loop, on the lines of the good and the bad file. *)
Definition test_js (w : World) (gb : list string * list string) (js : string)
    : list string * list string :=
  let '(good, bad) := gb in
  match probe_Get w js with
  | None => (good, bad ++ [js])
  | Some resp =>
      if 400 <=? StatusCode resp then (good, bad ++ [js]) else (good ++ [js], bad)
  end.

Definition test_all (w : World) (order : list string) : list string * list string :=
  fold_left (test_js w) order ([], []).

(** [main] from the end of the crawl loop on. *)
Definition report (w : World) (domain : string) (st : Crawl) : Run :=
  let run fs ps := mkRun 0 (crawled st) fs ps
                         (Z.of_nat (size (seen st))) (Z.of_nat (size (jsSet st))) in
  if Z.of_nat (size (jsSet st)) =? 0 then run [] []
  else
    let allFile := domain +:+ "_all_js.txt" in
    let goodFile := domain +:+ "_good_js.txt" in
    let badFile := domain +:+ "_bad_js.txt" in
    if negb (os_Create w allFile) then run [] []
    else if negb (os_Create w goodFile) then run [(allFile, [])] []
    else if negb (os_Create w badFile) then run [(allFile, []); (goodFile, [])] []
    else
      let all := map_range w 0%nat (jsSet st) in
      let order := map_range w 1%nat (jsSet st) in
      let '(good, bad) := test_all w order in
      run [(allFile, all); (goodFile, good); (badFile, bad)] order.

(** [main]: [Args] is [os.Args]. [None] means the crawl loop has not ended
    within [fuel] turns. *)
Definition main (w : World) (Args : list string) (fuel : nat) : option Run :=
  match Args with
  | _ :: domain :: rest =>
      let scheme :=
        match rest with
        | s :: _ => TrimRight s ":/"
        | [] => "https"
        end in
      let root := scheme +:+ "://" +:+ domain +:+ "/" in
      option_map (report w domain) (crawl w domain fuel (crawl_init root))
  | _ => Some (mkRun 1 [] [] [] 0 0)
  end.

(* ===================================================================== *)
(** * Vocabulary of the statements *)
(* ===================================================================== *)

(** What a single node contributes to the output of [extractJS] and of
    [extractLinks]: what its visit appends to an empty [out]. *)
Definition jsOf (base : string) (n : html.Node) : list string := visitJS base n [].
Definition linksOf (base : string) (n : html.Node) : list string := visitLinks base n [].

(** [n] is an element with tag name [tag]. *)
Definition is_element (tag : string) (n : html.Node) : bool :=
  html.NodeType_eqb (html.Type_ n) html.ElementNode && String.eqb (html.Data n) tag.

(** The values of the attributes named [key], in order. *)
Definition attr_vals (key : string) (attrs : list html.Attribute) : list string :=
  map html.Val (filter (fun a => String.eqb (html.Key a) key = true) attrs).

(** The value the [switch] of the [link] branch leaves in a variable: the
    last attribute named [key], or the zero value. *)
Definition last_attr (key : string) (attrs : list html.Attribute) : string :=
  List.last (attr_vals key attrs) "".

Definition ends_js (u : string) : bool := HasSuffix u ".js".

(** The rel/as condition of the [link] branch. *)
Definition preload_link (n : html.Node) : bool :=
  is_element "link" n
  && (String.eqb (last_attr "rel" (html.Attr n)) "modulepreload"
      || String.eqb (last_attr "rel" (html.Attr n)) "prefetch")
  && String.eqb (last_attr "as" (html.Attr n)) "script".

(** The states the crawl loop goes through from [root]. *)
Definition crawl_at (w : World) (domain root : string) (k : nat) : Crawl :=
  Nat.iter k (crawl_page w domain) (crawl_init root).

(** The outcome of the probe of one URL. *)
Definition reachable (w : World) (js : string) : bool :=
  match probe_Get w js with
  | None => false
  | Some resp => negb (400 <=? StatusCode resp)
  end.

(** Resolution of [href] against [base] fails: [resolveURL] takes one of
    its two [return ""] exits. *)
Definition resolve_fails (base href : string) : bool :=
  match url.Parse href with
  | None => true
  | Some u => negb (url.IsAbs u) && url.is_nil (url.Parse base)
  end.

(** ** A two-page site *)

Definition seed_markup : string :=
  "<script src='/app.js'></script><a href='/about'>About</a>".

Definition about_markup : string :=
  "<link rel='modulepreload' as='script' href='/chunk1.js'>About us".

Definition seed_doc : html.Node :=
  html.document [html.elem "script" [("src", "/app.js")] []]
                [html.elem "a" [("href", "/about")] [html.text "About"]].

Definition about_doc : html.Node :=
  html.document
    [html.elem "link" [("rel", "modulepreload"); ("as", "script"); ("href", "/chunk1.js")] []]
    [html.text "About us"].

(** The site: both pages are served, [app.js] answers 200 and [chunk1.js]
    answers 404, every file can be created. *)
Definition site : World :=
  mkWorld
    (fun content =>
       if String.eqb content seed_markup then Some seed_doc
       else if String.eqb content about_markup then Some about_doc
       else Some (html.document [] []))
    (fun page =>
       if String.eqb page "https://example.com/" then Some (mkResponse 200 (Some seed_markup))
       else if String.eqb page "https://example.com/about"
       then Some (mkResponse 200 (Some about_markup))
       else None)
    (fun js =>
       if String.eqb js "https://example.com/app.js" then Some (mkResponse 200 (Some ""))
       else if String.eqb js "https://example.com/chunk1.js" then Some (mkResponse 404 (Some ""))
       else None)
    (fun _ => true)
    (fun _ m => elements (dom m)).

(** A host that cannot be reached at all. *)
Definition offline : World :=
  mkWorld (fun _ => None) (fun _ => None) (fun _ => None) (fun _ => true)
          (fun _ m => elements (dom m)).

(** A document whose only element of interest is [n]. *)
Definition page_of (n : html.Node) : html.Node := html.document [n] [].

(** ** The visited set and the queue *)

(** The invariant of the loop, on the pair the inner loop updates. [hist]
    is what has left the queue already. *)
Definition enqueued_once (hist : list string) (sq : gmap string bool * list string) : Prop :=
  NoDup (hist ++ sq.2)
  /\ dom sq.1 = list_to_set (hist ++ sq.2)
  /\ (forall u b, sq.1 !! u = Some b -> b = true).

(** ** Strings, bytes and URLs as [url.String] writes them *)

(** Every byte of [s] satisfies [P]. *)
Fixpoint all (P : ascii -> bool) (s : string) : bool :=
  match s with
  | EmptyString => true
  | String c s' => P c && all P s'
  end.

(** The byte [c] does not occur in [s]. *)
Definition lacks (c : ascii) (s : string) : bool := all (fun d => negb (Ascii.eqb d c)) s.

(** The last byte of [s], if any, is not [c]. *)
Fixpoint not_last (c : ascii) (s : string) : bool :=
  match s with
  | EmptyString => true
  | String d EmptyString => negb (Ascii.eqb d c)
  | String _ s' => not_last c s'
  end.

Definition isCTL (c : ascii) : bool := ((url.code c <? 32) || (url.code c =? 127))%N.

(** A byte that may stand in the part of a URL before the fragment. *)
Definition okQ (c : ascii) : bool := negb (isCTL c) && negb (Ascii.eqb c "#").

(** A byte that may stand before the query. *)
Definition okP (c : ascii) : bool := okQ c && negb (Ascii.eqb c "?").

(** A byte that may stand in an authority. *)
Definition okA (c : ascii) : bool := okP c && negb (Ascii.eqb c "/") && negb (Ascii.eqb c "@").

(** A byte of a user name or password as written. *)
Definition okU (c : ascii) : bool := okA c && negb (Ascii.eqb c ":").

Definition userinfo_byte (c : ascii) : bool := url.isalnum c || mem c "-._:~!$&'()*+,;=%@".

(** The modes in which [unescape] only decodes. *)
Definition plain_mode (m : url.encoding) : bool :=
  match m with
  | url.encodePath | url.encodePathSegment | url.encodeUserPassword | url.encodeFragment => true
  | _ => false
  end.

(** [u] with other path fields. *)
Definition with_path (u : url.URL) (p r : string) : url.URL :=
  url.mkURL (url.Scheme u) (url.Opaque u) (url.User u) (url.Host u) p r
            (url.OmitHost u) (url.ForceQuery u) (url.RawQuery u)
            (url.Fragment u) (url.RawFragment u).

Definition with_fragment (u : url.URL) (f r : string) : url.URL :=
  url.mkURL (url.Scheme u) (url.Opaque u) (url.User u) (url.Host u) (url.Path u) (url.RawPath u)
            (url.OmitHost u) (url.ForceQuery u) (url.RawQuery u) f r.

(** A path as written: empty, or starting with a slash. *)
Definition rooted (e : string) : bool :=
  match e with
  | EmptyString => true
  | String c _ => Ascii.eqb c "/"
  end.

Definition scheme_byte (c : ascii) : bool := url.isalpha c || url.isdigit c || mem c "+-.".

(** A scheme as [getScheme] accepts it. *)
Definition valid_scheme (s : string) : bool :=
  match s with
  | EmptyString => false
  | String c r => url.isalpha c && all scheme_byte r
  end.

(** The query as [String] writes it. *)
Definition qpart (force : bool) (rq : string) : string :=
  if force || url.nonempty rq then "?" +:+ rq else "".

(** The user information as [parseAuthority] reads it back. *)
Definition norm_user (ui : url.Userinfo) : url.Userinfo :=
  url.mkUserinfo (url.username ui) (if url.passwordSet ui then url.password ui else "")
                 (url.passwordSet ui).

Definition upart (user : option url.Userinfo) : string :=
  match user with
  | Some ui => url.Userinfo_String ui +:+ "@"
  | None => ""
  end.

(** The host, as [String] writes it, is read back as the same host. *)
Definition host_reparses (u : url.URL) : bool :=
  match url.parseHost (url.escape (url.Host u) url.encodeHost) with
  | Some h => String.eqb h (url.Host u)
  | None => false
  end.

(** The fragment as [String] writes it. *)
Definition fpart (u : url.URL) : string :=
  if url.nonempty (url.Fragment u) then "#" +:+ url.EscapedFragment u else "".

(** What holds of every URL that [Parse] returns and of every URL that
    [ResolveReference] makes of two such. *)
Record wfURL (u : url.URL) : Prop := mk_wfURL {
  wf_scheme :
    url.Scheme u = ""
    \/ valid_scheme (url.Scheme u) = true /\ ToLower (url.Scheme u) = url.Scheme u;
  wf_opaque : all okP (url.Opaque u) = true /\ HasPrefix (url.Opaque u) "/" = false;
  wf_relative : url.Scheme u = "" -> url.Opaque u = "" /\ url.OmitHost u = false;
  wf_path : all okP (url.EscapedPath u) = true;
  wf_rooted : url.Scheme u <> "" -> url.Opaque u = "" -> rooted (url.EscapedPath u) = true;
  wf_omit :
    url.OmitHost u = true ->
    url.EscapedPath u <> "" /\ url.Host u = "" /\ url.User u = None;
  wf_query : all okQ (url.RawQuery u) = true;
  wf_force : url.ForceQuery u = true -> url.RawQuery u = ""
}.

(** What [String] writes before the fragment, with [B] between the scheme
    and the query. *)
Definition front (u : url.URL) (B : string) : string :=
  url.Scheme u +:+ ":" +:+ B +:+ qpart (url.ForceQuery u) (url.RawQuery u).

(** Every [%] is followed by two hex digits. *)
Fixpoint wfp (s : string) : bool :=
  match s with
  | EmptyString => true
  | String c r =>
      if Ascii.eqb c "%" then
        match r with
        | String h1 (String h2 r') => url.ishex h1 && url.ishex h2 && wfp r'
        | _ => false
        end
      else wfp r
  end.

(** The strings a path is made of: clean bytes, complete escapes. *)
Definition good (s : string) : bool := all okP s && wfp s.

(** The state of the loop of [resolvePath]: [dst] starts with a slash and
    is made of good strings, and is the lone slash while [first] holds. *)
Definition loop_ok (st : string * bool) : Prop :=
  good st.1 = true /\ HasPrefix st.1 "/" = true /\ (st.2 = true -> st.1 = "/").

(** The URL that [resolveURL] writes, when it does not fail. *)
Definition resolved (base href : string) : option url.URL :=
  match url.Parse href with
  | None => None
  | Some u =>
      if url.IsAbs u then Some u
      else match url.Parse base with
           | None => None
           | Some bu => Some (url.ResolveReference bu u)
           end
  end.

(** The path, as [String] writes it after a scheme without authority, is
    not mistaken for an authority. *)
Definition path_reparses (u : url.URL) : bool :=
  negb (url.OmitHost u && HasPrefix (url.EscapedPath u) "//").

(** The host of [u] is one that [parseHost] returns. *)
Definition host_parsed (h : string) : Prop := exists raw, url.parseHost raw = Some h.

(** ** The run as a whole *)

(** The scheme [main] uses: the third argument without its trailing colons
    and slashes, or [https]. *)
Definition scheme_of (rest : list string) : string :=
  match rest with
  | s :: _ => TrimRight s ":/"
  | [] => "https"
  end.

(** The root URL [main] starts from. *)
Definition root_of (domain : string) (rest : list string) : string :=
  scheme_of rest +:+ "://" +:+ domain +:+ "/".

(** The content of [page] as the crawl loop gets it: [None] when the fetch
    or the read of the body fails. *)
Definition page_body (w : World) (page : string) : option string :=
  match crawl_Get w page with
  | Some resp => Body resp
  | None => None
  end.

(** The three files of a run for [domain], in the order of their creation. *)
Definition file_names (domain : string) : list string :=
  [domain +:+ "_all_js.txt"; domain +:+ "_good_js.txt"; domain +:+ "_bad_js.txt"].

(** The site, in a directory where the good file cannot be created. *)
Definition site_no_good_file : World :=
  mkWorld (html_Parse site) (crawl_Get site) (probe_Get site)
          (fun name => negb (String.eqb name "example.com_good_js.txt"))
          (map_range site).

(** The site, answering every page with status 500 and the same body. *)
Definition site_failing : World :=
  mkWorld (html_Parse site)
          (fun page => option_map (fun r => mkResponse 500 (Body r)) (crawl_Get site page))
          (probe_Get site) (os_Create site) (map_range site).

(** The bytes a host can hold once parsed: a byte above ASCII, an ASCII
    byte that a host need not escape, and, though a host must escape them,
    [%] (decoded from [%25]) and the space (decoded from [%20] in a
    zone). *)
Definition host_byte (c : ascii) : bool :=
  negb ((url.code c <? 128)%N && url.shouldEscape c url.encodeHost)
  || Ascii.eqb c "%" || Ascii.eqb c " ".

(** ** Valid references *)

(** A byte that RFC 3986 allows in a URI reference: an unreserved or a
    reserved character, or the percent sign of an escape. *)
Definition uri_byte (c : ascii) : bool :=
  url.isalnum c || mem c "-._~:/?#[]@!$&'()*+,;=%".

(** An ASCII byte. *)
Definition ascii7 (c : ascii) : bool := (url.code c <? 128)%N.

(** The bytes of a host outside a zone, once parsed: those a host need not
    escape, [%], and the bytes above ASCII. *)
Definition hostok (c : ascii) : bool :=
  negb (url.shouldEscape c url.encodeHost) || Ascii.eqb c "%" || negb (ascii7 c).

(** The bytes of a zone read from ASCII: those a host need not escape, [%]
    and the space. *)
Definition zoneok (c : ascii) : bool :=
  negb (url.shouldEscape c url.encodeHost) || Ascii.eqb c "%" || Ascii.eqb c " ".

(** The host [h] is what [parseHost] reads from an ASCII string. *)
Definition host_parsed_ascii (h : string) : Prop :=
  exists raw, all ascii7 raw = true /\ url.parseHost raw = Some h.

(* ===================================================================== *)
(** * The extractor, node by node *)
(* ===================================================================== *)

Section Extractor.

Variable base : string.

Lemma script_attrs_spec attrs out :
  script_attrs base attrs out
  = out ++ filter (fun u => ends_js u = true) (map (resolveURL base) (attr_vals "src" attrs)).
Proof.
  unfold script_attrs, attr_vals. revert out.
  induction attrs as [|a attrs IH]; intros out; simpl.
  - by rewrite app_nil_r.
  - rewrite IH. rewrite filter_cons.
    destruct (String.eqb (html.Key a) "src") eqn:Hk.
    + rewrite decide_True by done. simpl. rewrite filter_cons. unfold ends_js.
      destruct (HasSuffix _ ".js") eqn:Hs.
      * rewrite decide_True by done. by rewrite <- app_assoc.
      * rewrite decide_False by (by intros ?). done.
    + rewrite decide_False by (by intros ?). done.
Qed.

Lemma last_snoc_filter key (attrs : list html.Attribute) a d :
  List.last (attr_vals key (attrs ++ [a])) d
  = if String.eqb (html.Key a) key then html.Val a else List.last (attr_vals key attrs) d.
Proof.
  unfold attr_vals. rewrite filter_app, map_app, filter_cons, filter_nil.
  destruct (String.eqb (html.Key a) key) eqn:Hk.
  - rewrite decide_True by done. simpl. by rewrite last_last.
  - rewrite decide_False by (by intros ?). simpl. by rewrite app_nil_r.
Qed.

Lemma link_attrs_spec attrs :
  link_attrs attrs
  = (last_attr "rel" attrs, last_attr "as" attrs, last_attr "href" attrs).
Proof.
  unfold link_attrs, last_attr.
  induction attrs as [|a attrs IH] using rev_ind; [done|].
  rewrite fold_left_app, IH. simpl. rewrite !last_snoc_filter.
  destruct (String.eqb (html.Key a) "rel") eqn:Hrel.
  - apply String.eqb_eq in Hrel. rewrite Hrel. done.
  - destruct (String.eqb (html.Key a) "as") eqn:Has.
    + apply String.eqb_eq in Has. rewrite Has. done.
    + destruct (String.eqb (html.Key a) "href"); done.
Qed.

Lemma visitJS_app n out : visitJS base n out = out ++ jsOf base n.
Proof.
  unfold jsOf, visitJS.
  destruct (html.NodeType_eqb _ _); [|by rewrite app_nil_r].
  rewrite !script_attrs_spec. destruct (link_attrs (html.Attr n)) as [[rel as_] href].
  repeat match goal with
         | |- context [if ?b then _ else _] => destruct b
         end; simpl; rewrite ?app_nil_r, ?app_assoc; done.
Qed.

Lemma fold_rec_app {A} (f : A -> list string -> list string) (g : A -> list string)
    (cs : list A) out :
  Forall (fun c => forall o, f c o = o ++ g c) cs ->
  fold_left (fun o c => f c o) cs out = out ++ flat_map g cs.
Proof.
  intros H. revert out. induction H as [|c cs Hc _ IH]; intros out; simpl.
  - by rewrite app_nil_r.
  - rewrite Hc, IH. by rewrite app_assoc.
Qed.

Lemma flat_map_nested {A B C} (f : B -> list C) (g : A -> list B) (l : list A) :
  flat_map (fun x => flat_map f (g x)) l = flat_map f (flat_map g l).
Proof.
  induction l as [|x l IH]; simpl; [done|]. by rewrite flat_map_app, IH.
Qed.

Lemma recJS_app n : forall out,
  recJS base n out = out ++ flat_map (jsOf base) (html.nodes n).
Proof.
  induction n as [t d a cs IH] using html.Node_ind. intros out.
  cbn [recJS html.nodes flat_map].
  rewrite (fold_rec_app (recJS base) (fun c => flat_map (jsOf base) (html.nodes c))) by exact IH.
  rewrite visitJS_app, <- app_assoc. f_equal. f_equal.
  apply flat_map_nested.
Qed.

Lemma visitLinks_app n out : visitLinks base n out = out ++ linksOf base n.
Proof.
  unfold linksOf, visitLinks.
  destruct (_ && _); [|by rewrite app_nil_r].
  generalize (html.Attr n). intros attrs. revert out.
  induction attrs as [|a attrs IH] using rev_ind; intros out; simpl.
  - by rewrite app_nil_r.
  - rewrite !fold_left_app. simpl. rewrite IH, (IH []).
    destruct (String.eqb _ _); simpl; rewrite ?app_assoc; done.
Qed.

Lemma linksOf_spec n :
  linksOf base n
  = if is_element "a" n then map (resolveURL base) (attr_vals "href" (html.Attr n)) else [].
Proof.
  unfold linksOf, visitLinks, is_element.
  destruct (_ && _); [|done].
  unfold attr_vals. generalize (html.Attr n). intros attrs.
  induction attrs as [|a attrs IH] using rev_ind; [done|].
  rewrite fold_left_app, filter_app, !map_app, <- IH. simpl. rewrite filter_cons.
  destruct (String.eqb _ _) eqn:Hk.
  - rewrite decide_True by done. done.
  - rewrite decide_False by (by intros ?). simpl. by rewrite app_nil_r.
Qed.

Lemma recLinks_app n : forall out,
  recLinks base n out = out ++ flat_map (linksOf base) (html.nodes n).
Proof.
  induction n as [t d a cs IH] using html.Node_ind. intros out.
  cbn [recLinks html.nodes flat_map].
  rewrite (fold_rec_app (recLinks base) (fun c => flat_map (linksOf base) (html.nodes c)))
    by exact IH.
  rewrite visitLinks_app, <- app_assoc. f_equal. f_equal.
  apply flat_map_nested.
Qed.

(** A [script] element contributes the resolved [src] values that end with
    [.js], and a node that is not a [link] nothing else. *)
Lemma jsOf_script n :
  is_element "script" n = true ->
  jsOf base n
  = filter (fun u => ends_js u = true)
           (map (resolveURL base) (attr_vals "src" (html.Attr n))).
Proof.
  unfold is_element, jsOf, visitJS. intros [Ht Hd]%andb_true_iff.
  rewrite Ht, Hd. apply String.eqb_eq in Hd. rewrite Hd. simpl.
  by rewrite script_attrs_spec.
Qed.

(** A [link] element contributes the resolved value of its last [href]
    (the empty reference when it has none) when the rel/as condition holds
    and the result ends with [.js]. *)
Lemma jsOf_link n :
  is_element "link" n = true ->
  jsOf base n
  = if preload_link n && ends_js (resolveURL base (last_attr "href" (html.Attr n)))
    then [resolveURL base (last_attr "href" (html.Attr n))] else [].
Proof.
  unfold preload_link. intros Hl. rewrite Hl. revert Hl.
  unfold is_element, jsOf, visitJS. intros [Ht Hd]%andb_true_iff.
  rewrite Ht, Hd. apply String.eqb_eq in Hd. rewrite Hd. simpl.
  rewrite link_attrs_spec. unfold ends_js.
  destruct (_ || _); simpl; [|done].
  destruct (String.eqb _ "script"); simpl; [|done].
  destruct (HasSuffix _ _); done.
Qed.

(** Any other node contributes nothing. *)
Lemma jsOf_other n :
  is_element "script" n = false -> is_element "link" n = false -> jsOf base n = [].
Proof.
  unfold is_element, jsOf, visitJS.
  destruct (html.NodeType_eqb _ _); simpl; [|done].
  intros -> ->. done.
Qed.

End Extractor.

(** The output of [extractJS] is the contributions of the nodes of the
    parsed document, in document order. *)
Lemma extractJS_nodes w markup base doc :
  html_Parse w markup = Some doc ->
  extractJS w markup base = flat_map (jsOf base) (html.nodes doc).
Proof. intros H. unfold extractJS. rewrite H. by rewrite recJS_app. Qed.

Lemma extractLinks_nodes w markup base doc :
  html_Parse w markup = Some doc ->
  extractLinks w markup base = flat_map (linksOf base) (html.nodes doc).
Proof. intros H. unfold extractLinks. rewrite H. by rewrite recLinks_app. Qed.

(* ===================================================================== *)
(** * The crawl loop *)
(* ===================================================================== *)

Lemma crawl_page_fetched w domain st page q resp content :
  queue st = page :: q -> crawl_Get w page = Some resp -> Body resp = Some content ->
  crawl_page w domain st =
    mkCrawl (fold_left (enqueue domain) (extractLinks w content page) (seen st, q)).1
            (fold_left (enqueue domain) (extractLinks w content page) (seen st, q)).2
            (fold_left (fun m js => <[js := true]> m) (extractJS w content page) (jsSet st))
            (crawled st ++ [page]).
Proof.
  intros Hq Hg Hb. unfold crawl_page. rewrite Hq, Hg, Hb.
  by destruct (fold_left _ _ _).
Qed.

Lemma crawl_more w domain fuel st page q :
  queue st = page :: q ->
  crawl w domain (S fuel) st = crawl w domain fuel (crawl_page w domain st).
Proof. intros Hq. simpl. by rewrite Hq. Qed.

Lemma crawl_done w domain fuel st : queue st = [] -> crawl w domain fuel st = Some st.
Proof. intros Hq. destruct fuel; simpl; by rewrite Hq. Qed.

(** A finished crawl is one of the states of the loop. *)
Lemma crawl_Some_iter w domain fuel : forall st st',
  crawl w domain fuel st = Some st' ->
  exists k, st' = Nat.iter k (crawl_page w domain) st /\ queue st' = [].
Proof.
  induction fuel as [|fuel IH]; intros st st'; simpl.
  - destruct (queue st) eqn:Hq; [|done]. intros [= <-]. by exists 0%nat.
  - destruct (queue st) eqn:Hq.
    + intros [= <-]. by exists 0%nat.
    + intros H. destruct (IH _ _ H) as (k & -> & Hk). exists (S k). split; [|done].
      clear. induction k as [|k IHk]; [done|]. simpl. by rewrite IHk.
Qed.

(** ** C1: the two-page site *)

(** C1. On every world that serves the seed page (a [script] with
    [src="/app.js"] and an anchor to [/about]) and the about page (a
    [modulepreload] link to [/chunk1.js], no anchors), the run started as
    [JsCrawlar example.com] ends, has fetched exactly the two pages, has two
    URLs in [seen], and has collected exactly [app.js] and [chunk1.js]. *)
Theorem two_page_site_crawl (w : World) (seed about : string) (s1 s2 : Z) (fuel : nat) :
  crawl_Get w "https://example.com/" = Some (mkResponse s1 (Some seed)) ->
  html_Parse w seed = Some seed_doc ->
  crawl_Get w "https://example.com/about" = Some (mkResponse s2 (Some about)) ->
  html_Parse w about = Some about_doc ->
  (2 <= fuel)%nat ->
  exists st,
    crawl w "example.com" fuel (crawl_init "https://example.com/") = Some st
    /\ main w ["JsCrawlar"; "example.com"] fuel = Some (report w "example.com" st)
    /\ crawled st = ["https://example.com/"; "https://example.com/about"]
    /\ size (seen st) = 2%nat
    /\ dom (seen st) = {[ "https://example.com/"; "https://example.com/about" ]}
    /\ dom (jsSet st) = {[ "https://example.com/app.js"; "https://example.com/chunk1.js" ]}.
Proof.
  intros H1 P1 H2 P2 Hf.
  assert (Hroot : "https" +:+ "://" +:+ "example.com" +:+ "/" = "https://example.com/")
    by reflexivity.
  unfold main. rewrite Hroot.
  destruct fuel as [|[|fuel]]; [lia|lia|].
  erewrite crawl_more by reflexivity.
  erewrite (crawl_page_fetched w _ _ _ _ _ seed) by (try reflexivity; exact H1).
  unfold extractJS, extractLinks. rewrite P1.
  erewrite crawl_more by (vm_compute; reflexivity).
  erewrite (crawl_page_fetched w _ _ _ _ _ about);
    [| vm_compute; reflexivity | exact H2 | reflexivity].
  unfold extractJS, extractLinks. rewrite P2.
  eexists. split; [apply crawl_done; vm_compute; reflexivity|].
  split; [rewrite crawl_done by (vm_compute; reflexivity); reflexivity|].
  repeat split; vm_compute; reflexivity.
Qed.

Lemma two_page_site_crawl_witness :
  exists st,
    crawl site "example.com" 5 (crawl_init "https://example.com/") = Some st
    /\ main site ["JsCrawlar"; "example.com"] 5 = Some (report site "example.com" st)
    /\ crawled st = ["https://example.com/"; "https://example.com/about"]
    /\ size (seen st) = 2%nat
    /\ dom (seen st) = {[ "https://example.com/"; "https://example.com/about" ]}
    /\ dom (jsSet st) = {[ "https://example.com/app.js"; "https://example.com/chunk1.js" ]}.
Proof.
  apply (two_page_site_crawl site seed_markup about_markup 200 200 5);
    [reflexivity | reflexivity | reflexivity | reflexivity | lia].
Defined.

(** ** C6: the visited set and the queue *)

Lemma index_true_dom (m : gmap string bool) u :
  (forall u b, m !! u = Some b -> b = true) ->
  index m u = true <-> u ∈ dom m.
Proof.
  intros Hv. unfold index. rewrite elem_of_dom. destruct (m !! u) as [b|] eqn:E; simpl.
  - rewrite (Hv _ _ E). split; [by eexists | done].
  - split; [done | by intros [? ?]].
Qed.

Lemma enqueue_grows domain sq link :
  dom sq.1 ⊆ dom (enqueue domain sq link).1
  /\ exists new, (enqueue domain sq link).2 = sq.2 ++ new.
Proof.
  destruct sq as [s q]. unfold enqueue. destruct (_ && _); simpl.
  - split; [rewrite dom_insert_L; apply union_subseteq_r | by exists [link]].
  - split; [done | exists []; by rewrite app_nil_r].
Qed.

Lemma enqueue_once domain hist sq link :
  enqueued_once hist sq -> enqueued_once hist (enqueue domain sq link).
Proof.
  destruct sq as [s q]. intros (Hnd & Hdom & Hv). unfold enqueue.
  destruct (sameDomain link domain) eqn:Hs; simpl; [|done].
  destruct (index s link) eqn:Hi; simpl; [done|].
  assert (Hnotin : link ∉ dom s).
  { intros Hin. apply (index_true_dom s link Hv) in Hin. congruence. }
  simpl in *. repeat split; simpl.
  - rewrite app_assoc. apply NoDup_app. split; [done|]. split.
    + intros x Hx ->%list_elem_of_singleton. apply Hnotin. rewrite Hdom.
      by apply elem_of_list_to_set.
    + apply NoDup_singleton.
  - rewrite dom_insert_L, Hdom, app_assoc, (list_to_set_app_L (hist ++ q)).
    simpl. rewrite (right_id_L ∅ (∪)). apply (comm_L (∪)).
  - intros u b. destruct (decide (link = u)) as [->|Hne].
    + rewrite lookup_insert_eq. congruence.
    + rewrite lookup_insert_ne by done. apply Hv.
Qed.

Lemma enqueue_all_once domain hist links : forall sq,
  enqueued_once hist sq -> enqueued_once hist (fold_left (enqueue domain) links sq).
Proof.
  induction links as [|l links IH]; intros sq H; simpl; [done|].
  apply IH. by apply enqueue_once.
Qed.

Lemma enqueue_all_grows domain links : forall sq,
  dom sq.1 ⊆ dom (fold_left (enqueue domain) links sq).1
  /\ exists new, (fold_left (enqueue domain) links sq).2 = sq.2 ++ new.
Proof.
  induction links as [|l links IH]; intros sq; simpl.
  - split; [done | exists []; by rewrite app_nil_r].
  - destruct (IH (enqueue domain sq l)) as (Hd & new & Hq).
    destruct (enqueue_grows domain sq l) as (Hd' & new' & Hq').
    split; [by etrans|]. exists (new' ++ new). by rewrite Hq, Hq', <- app_assoc.
Qed.

(** One turn of the loop keeps the invariant. *)
Lemma crawl_page_once w domain st :
  enqueued_once (crawled st) (seen st, queue st) ->
  enqueued_once (crawled (crawl_page w domain st))
                (seen (crawl_page w domain st), queue (crawl_page w domain st)).
Proof.
  intros H. unfold crawl_page. destruct (queue st) as [|page q] eqn:Hq; [by rewrite Hq|].
  assert (H' : enqueued_once (crawled st ++ [page]) (seen st, q)).
  { destruct H as (Hnd & Hdom & Hv). simpl in *.
    repeat split; simpl; rewrite <- ?app_assoc; done. }
  destruct (crawl_Get w page) as [resp|]; [|exact H'].
  destruct (Body resp) as [content|]; [|exact H'].
  pose proof (enqueue_all_once domain _ (extractLinks w content page) _ H') as H2.
  by destruct (fold_left _ _ _).
Qed.

(** One turn of the loop only adds to [seen], and only appends to the
    sequence of URLs that have ever been in the queue. *)
Lemma crawl_page_grows w domain st :
  dom (seen st) ⊆ dom (seen (crawl_page w domain st))
  /\ exists new, crawled (crawl_page w domain st) ++ queue (crawl_page w domain st)
                 = (crawled st ++ queue st) ++ new.
Proof.
  unfold crawl_page. destruct (queue st) as [|page q] eqn:Hq.
  - split; [done|]. exists []. by rewrite Hq, !app_nil_r.
  - assert (Hfail : forall j, dom (seen st) ⊆ dom (seen (mkCrawl (seen st) q j (crawled st ++ [page])))
        /\ exists new, crawled (mkCrawl (seen st) q j (crawled st ++ [page]))
                       ++ queue (mkCrawl (seen st) q j (crawled st ++ [page]))
                       = (crawled st ++ page :: q) ++ new).
    { intros j. split; [done|]. exists []. simpl. by rewrite app_nil_r, <- app_assoc. }
    destruct (crawl_Get w page) as [resp|]; [|apply Hfail].
    destruct (Body resp) as [content|]; [|apply Hfail].
    destruct (enqueue_all_grows domain (extractLinks w content page) (seen st, q))
      as (Hd & new & Hn).
    destruct (fold_left _ _ _) as [s' q']. simpl in *. split; [done|].
    exists new. rewrite Hn. by rewrite <- !app_assoc.
Qed.

Lemma crawl_at_once w domain root k :
  enqueued_once (crawled (crawl_at w domain root k))
                (seen (crawl_at w domain root k), queue (crawl_at w domain root k)).
Proof.
  induction k as [|k IH].
  - unfold crawl_at. simpl. repeat split; simpl.
    + apply NoDup_singleton.
    + rewrite dom_singleton_L. by rewrite (right_id_L ∅ (∪)).
    + intros u b [-> ->]%lookup_singleton_Some. done.
  - unfold crawl_at in *. rewrite Nat.iter_succ. by apply crawl_page_once.
Qed.

(** C6. In every state of the crawl loop: the next turn only adds to the
    visited set; every queued URL is in the visited set; the sequence of all
    URLs that ever entered the queue (those already fetched, then those
    waiting) only grows at its end and never holds a string twice, so no URL
    is enqueued or fetched twice; the visited set is exactly that sequence.
    The key is the string as resolved: a link is appended exactly when it is
    in scope and that very string is not in [seen], so strings that differ
    only in a trailing slash or in letter case are separate entries. *)
Theorem visited_set_invariant (w : World) (domain root : string) (k : nat) :
  let st := crawl_at w domain root k in
  let st' := crawl_at w domain root (S k) in
  dom (seen st) ⊆ dom (seen st')
  /\ (forall u, u ∈ queue st -> index (seen st) u = true)
  /\ (exists new, crawled st' ++ queue st' = (crawled st ++ queue st) ++ new)
  /\ NoDup (crawled st ++ queue st)
  /\ dom (seen st) = list_to_set (crawled st ++ queue st)
  /\ (forall sq link,
        enqueue domain sq link
        = if sameDomain link domain && negb (index sq.1 link)
          then (<[link := true]> sq.1, sq.2 ++ [link]) else sq)
  /\ (fold_left (enqueue "example.com")
        ["https://example.com/about"; "https://example.com/about/";
         "https://example.com/About"; "https://example.com/about"]
        ({[ "https://example.com/" := true ]}, [])).2
     = ["https://example.com/about"; "https://example.com/about/";
        "https://example.com/About"].
Proof.
  cbv zeta.
  assert (Est : crawl_at w domain root (S k)
                = crawl_page w domain (crawl_at w domain root k)) by apply Nat.iter_succ.
  rewrite Est. generalize (crawl_at_once w domain root k).
  generalize (crawl_at w domain root k). intros st (Hnd & Hdom & Hv). simpl in Hnd, Hdom, Hv.
  destruct (crawl_page_grows w domain st) as (Hsub & Hnew).
  split; [exact Hsub|]. split.
  { intros u Hu. apply (index_true_dom _ _ Hv). rewrite Hdom.
    apply elem_of_list_to_set, elem_of_app. by right. }
  split; [exact Hnew|]. split; [exact Hnd|]. split; [exact Hdom|]. split.
  - intros [s q] link. reflexivity.
  - vm_compute. reflexivity.
Qed.

(** The state in which a crawl ends is a state of the loop, so the
    invariant holds of what [crawl] returns. *)
Lemma crawl_final_once w domain root fuel st :
  crawl w domain fuel (crawl_init root) = Some st ->
  queue st = [] /\ NoDup (crawled st) /\ dom (seen st) = list_to_set (crawled st).
Proof.
  intros H. destruct (crawl_Some_iter _ _ _ _ _ H) as (k & -> & Hq).
  destruct (crawl_at_once w domain root k) as (Hnd & Hdom & _).
  unfold crawl_at in *. simpl in *. rewrite Hq, app_nil_r in *. done.
Qed.

(* ===================================================================== *)
(** * The end of the run: files and probes *)
(* ===================================================================== *)

(** The test loop sends each URL to the good or to the bad file by the
    outcome of its probe, keeping the order of the loop. *)
Lemma test_js_reachable w good bad js :
  test_js w (good, bad) js
  = if reachable w js then (good ++ [js], bad) else (good, bad ++ [js]).
Proof.
  unfold test_js, reachable. destruct (probe_Get w js) as [resp|]; [|done].
  by destruct (400 <=? StatusCode resp).
Qed.

Lemma test_all_filter w order :
  test_all w order
  = (filter (fun js => reachable w js = true) order,
     filter (fun js => reachable w js = false) order).
Proof.
  unfold test_all.
  induction order as [|js order IH] using rev_ind; [done|].
  rewrite fold_left_app, IH, !filter_app, !filter_cons, !filter_nil. cbn [fold_left].
  rewrite test_js_reachable. destruct (reachable w js).
  - rewrite decide_True by done. rewrite decide_False by done. by rewrite app_nil_r.
  - rewrite decide_False by done. rewrite decide_True by done. by rewrite app_nil_r.
Qed.

Lemma filter_split_length (f : string -> bool) (l : list string) :
  (length (filter (fun x => f x = true) l) + length (filter (fun x => f x = false) l)
   = length l)%nat.
Proof.
  induction l as [|x l IH]; [done|]. rewrite !filter_cons.
  destruct (f x); repeat case_decide; try congruence; simpl; lia.
Qed.

Lemma filter_split_perm (f : string -> bool) (l : list string) :
  filter (fun x => f x = true) l ++ filter (fun x => f x = false) l ≡ₚ l.
Proof.
  induction l as [|x l IH]; [done|]. rewrite !filter_cons.
  destruct (f x); repeat case_decide; try congruence; simpl.
  - by rewrite IH.
  - rewrite <- Permutation_middle. by rewrite IH.
Qed.

(** ** C4: the partition into reachable and broken *)

(** C4. Whenever the test loop is reached (the JS set is not empty and the
    three files could be created), the good and the bad file together hold
    every URL of the set exactly once: their lengths add up to the size of
    the set, no URL is in both, and a URL of the set is in the bad file
    exactly when its probe failed in transport or answered 400 or more, in
    the good file exactly when it answered less than 400. *)
Theorem classification_partition (w : World) (domain : string) (st : Crawl) :
  range_ok w ->
  size (jsSet st) <> 0%nat ->
  os_Create w (domain +:+ "_all_js.txt") = true ->
  os_Create w (domain +:+ "_good_js.txt") = true ->
  os_Create w (domain +:+ "_bad_js.txt") = true ->
  exists all good bad,
    files (report w domain st)
    = [(domain +:+ "_all_js.txt", all); (domain +:+ "_good_js.txt", good);
       (domain +:+ "_bad_js.txt", bad)]
    /\ (length good + length bad = size (jsSet st))%nat
    /\ good ++ bad ≡ₚ elements (dom (jsSet st))
    /\ NoDup (good ++ bad)
    /\ (forall js, js ∈ good -> js ∈ bad -> False)
    /\ (forall js, js ∈ dom (jsSet st) ->
          (js ∈ bad <->
             probe_Get w js = None
             \/ exists resp, probe_Get w js = Some resp /\ 400 <= StatusCode resp)
          /\ (js ∈ good <->
                exists resp, probe_Get w js = Some resp /\ StatusCode resp < 400)).
Proof.
  intros Hrange Hsize Ha Hg Hb. unfold report.
  destruct (Z.eqb_spec (Z.of_nat (size (jsSet st))) 0) as [E|_]; [lia|].
  rewrite Ha, Hg, Hb. simpl. rewrite test_all_filter.
  set (order := map_range w 1%nat (jsSet st)).
  assert (Hperm : order ≡ₚ elements (dom (jsSet st))) by apply Hrange.
  eexists _, _, _. split; [reflexivity|].
  assert (Hall : filter (fun js => reachable w js = true) order
                 ++ filter (fun js => reachable w js = false) order ≡ₚ order)
    by apply filter_split_perm.
  split.
  { rewrite filter_split_length, Hperm, <- size_dom. reflexivity. }
  split; [by rewrite Hall|]. split.
  { rewrite Hall, Hperm. apply NoDup_elements. }
  split.
  { intros js [H1 _]%list_elem_of_filter [H2 _]%list_elem_of_filter. congruence. }
  intros js Hjs.
  assert (Hin : js ∈ order) by (rewrite Hperm; by apply elem_of_elements).
  rewrite !list_elem_of_filter. unfold reachable.
  destruct (probe_Get w js) as [resp|]; split; split.
  - intros [H _]. right. exists resp. split; [done|].
    destruct (Z.leb_spec 400 (StatusCode resp)); [done | simpl in H; done].
  - intros [[=] | (r & [= <-] & Hr)]. split; [|done].
    destruct (Z.leb_spec 400 (StatusCode resp)); [done | lia].
  - intros [H _]. exists resp. split; [done|].
    destruct (Z.leb_spec 400 (StatusCode resp)); [simpl in H; done | done].
  - intros (r & [= <-] & Hr). split; [|done].
    destruct (Z.leb_spec 400 (StatusCode resp)); [lia | done].
  - intros _. by left.
  - intros _. done.
  - intros [[=] _].
  - intros (r & [=] & _).
Qed.

Lemma site_range_ok : range_ok site.
Proof. intros k m. reflexivity. Qed.

Lemma classification_partition_witness :
  exists all good bad,
    files (report site "example.com"
             (mkCrawl ∅ [] {[ "https://example.com/app.js" := true;
                              "https://example.com/chunk1.js" := true ]} []))
    = [("example.com" +:+ "_all_js.txt", all); ("example.com" +:+ "_good_js.txt", good);
       ("example.com" +:+ "_bad_js.txt", bad)]
    /\ (length good + length bad = 2)%nat
    /\ good ++ bad ≡ₚ ["https://example.com/app.js"; "https://example.com/chunk1.js"]
    /\ good = ["https://example.com/app.js"]
    /\ bad = ["https://example.com/chunk1.js"].
Proof.
  destruct (classification_partition site "example.com"
              (mkCrawl ∅ [] {[ "https://example.com/app.js" := true;
                               "https://example.com/chunk1.js" := true ]} []))
    as (all & good & bad & Hf & Hlen & Hperm & _);
    [exact site_range_ok | vm_compute; lia | reflexivity | reflexivity | reflexivity |].
  exists all, good, bad. split; [exact Hf|].
  vm_compute in Hf. injection Hf as <- <- <-.
  repeat split; vm_compute; reflexivity.
Defined.

(** ** C8: nothing found, nothing written *)

(** C8. In every run that reaches the crawl loop, whatever the program
    name, the domain, and the arguments after it: when the loop ends with an
    empty JS set, [main] returns without creating any of the three files
    and without probing any URL. *)
Theorem empty_set_no_files (w : World) (prog domain : string) (rest : list string)
    (fuel : nat) (st : Crawl) :
  crawl w domain fuel (crawl_init (root_of domain rest)) = Some st ->
  jsSet st = ∅ ->
  exists run,
    main w (prog :: domain :: rest) fuel = Some run
    /\ run = report w domain st
    /\ files run = []
    /\ probed run = []
    /\ found run = 0.
Proof.
  intros Hc He.
  assert (Hr : files (report w domain st) = [] /\ probed (report w domain st) = []
               /\ found (report w domain st) = 0).
  { unfold report. rewrite He. rewrite map_size_empty. simpl. done. }
  exists (report w domain st). split; [|tauto].
  unfold root_of, scheme_of in Hc. unfold main. destruct rest; by rewrite Hc.
Qed.

Lemma empty_set_no_files_witness :
  exists run,
    main offline ["./JsCrawlar"; "example.com"; "http://"; "more"] 1 = Some run
    /\ run = report offline "example.com"
               (mkCrawl {[ "http://example.com/" := true ]} [] ∅ ["http://example.com/"])
    /\ files run = []
    /\ probed run = []
    /\ found run = 0.
Proof.
  apply (empty_set_no_files offline "./JsCrawlar" "example.com" ["http://"; "more"] 1);
    reflexivity.
Defined.

(* ===================================================================== *)
(** * The domain filter *)
(* ===================================================================== *)

(** ** C5: scope is equality of the host with the domain *)

(** C5. [sameDomain] accepts a link exactly when the link parses and the
    host of the parsed URL is the domain, string for string: a parse
    failure is a plain [false]; the scheme is not looked at; a subdomain, a
    [www.] prefix, another letter case or an explicit port make a different
    host. *)
Theorem sameDomain_exact_host :
  (forall L D, sameDomain L D = true <-> exists u, url.Parse L = Some u /\ url.Host u = D)
  /\ (forall L D, url.Parse L = None -> sameDomain L D = false)
  /\ sameDomain "http://sub.example.com/x" "example.com" = false
  /\ sameDomain "https://www.example.com/" "example.com" = false
  /\ sameDomain "https://EXAMPLE.com/" "example.com" = false
  /\ sameDomain "https://example.com:443/" "example.com" = false
  /\ sameDomain "http://example.com/x" "example.com" = true
  /\ sameDomain "ftp://example.com/x" "example.com" = true
  /\ sameDomain "//example.com/x" "example.com" = true
  /\ (url.Parse "http://exa mple.com/" = None
      /\ sameDomain "http://exa mple.com/" "exa mple.com" = false).
Proof.
  split.
  { intros L D. unfold sameDomain. destruct (url.Parse L) as [u|].
    - rewrite String.eqb_eq. split; [intros <-; by exists u | by intros (? & [= <-] & ?)].
    - split; [done | by intros (? & ? & _)]. }
  split.
  { intros L D H. unfold sameDomain. by rewrite H. }
  repeat split; vm_compute; reflexivity.
Qed.

(* ===================================================================== *)
(** * What the extractor keeps *)
(* ===================================================================== *)

Lemma resolve_fails_empty base v : resolve_fails base v = true -> resolveURL base v = "".
Proof.
  unfold resolve_fails, resolveURL. destruct (url.Parse v) as [u|]; [|done].
  destruct (url.IsAbs u); simpl; [done|]. by destruct (url.Parse base).
Qed.

Lemma ends_js_empty : ends_js "" = false.
Proof. reflexivity. Qed.

(** ** C2: script elements *)

(** C2. The output of [extractJS] is what the nodes of the document
    contribute one by one, and a [script] element contributes, for each of
    its [src] attributes, the resolved URL exactly when that string ends
    with the bytes [.js]. On the page [https://example.com/], [/a/b.js] is
    kept, and [/a/b.JS], [/a/b.js.map] and [foo.js?v=2] (whose resolved
    string ends with the query) are not. *)
Theorem script_src_suffix :
  (forall w markup base doc,
      html_Parse w markup = Some doc ->
      extractJS w markup base = flat_map (jsOf base) (html.nodes doc))
  /\ (forall base n,
        is_element "script" n = true ->
        jsOf base n
        = filter (fun u => HasSuffix u ".js" = true)
                 (map (resolveURL base) (attr_vals "src" (html.Attr n))))
  /\ (forall base n v,
        is_element "script" n = true ->
        v ∈ attr_vals "src" (html.Attr n) ->
        (resolveURL base v ∈ jsOf base n <-> HasSuffix (resolveURL base v) ".js" = true))
  /\ (resolveURL "https://example.com/" "/a/b.js" = "https://example.com/a/b.js"
      /\ recJS "https://example.com/" (page_of (html.elem "script" [("src", "/a/b.js")] [])) []
         = ["https://example.com/a/b.js"])
  /\ (resolveURL "https://example.com/" "/a/b.JS" = "https://example.com/a/b.JS"
      /\ recJS "https://example.com/" (page_of (html.elem "script" [("src", "/a/b.JS")] [])) []
         = [])
  /\ (resolveURL "https://example.com/" "/a/b.js.map" = "https://example.com/a/b.js.map"
      /\ recJS "https://example.com/" (page_of (html.elem "script" [("src", "/a/b.js.map")] [])) []
         = [])
  /\ (resolveURL "https://example.com/" "foo.js?v=2" = "https://example.com/foo.js?v=2"
      /\ recJS "https://example.com/" (page_of (html.elem "script" [("src", "foo.js?v=2")] [])) []
         = []).
Proof.
  split; [exact extractJS_nodes|].
  split; [exact jsOf_script|].
  split.
  { intros base n v Hn Hv. rewrite (jsOf_script base n Hn), list_elem_of_filter.
    split; [by intros [? _]|]. intros Hs. split; [done|].
    apply list_elem_of_fmap. by exists v. }
  repeat split; vm_compute; reflexivity.
Qed.

(** ** C10: no scheme is excluded *)

(** C10. Nothing in [extractJS] looks at the scheme of a reference. For
    every markup and page URL, an absolute reference of any scheme whose
    written form ends with [.js] is in the list that [extractJS] returns,
    when it is the [src] of a [script] or the [href] of a qualifying
    [link] anywhere in the document. What [extractJS] returns is decided,
    node by node, by the tag, the rel/as values of a [link], and the [.js]
    suffix of the resolved string alone; [ftp://host/a.js] and
    [file:///srv/a.js] are kept. *)
Theorem any_scheme_is_kept :
  (forall w markup base doc n v u,
      html_Parse w markup = Some doc -> n ∈ html.nodes doc ->
      url.Parse v = Some u -> url.IsAbs u = true ->
      HasSuffix (url.String u) ".js" = true ->
      (is_element "script" n = true /\ v ∈ attr_vals "src" (html.Attr n)
       \/ preload_link n = true /\ last_attr "href" (html.Attr n) = v) ->
      url.String u ∈ extractJS w markup base)
  /\ (forall w markup base doc,
        html_Parse w markup = Some doc ->
        extractJS w markup base
        = flat_map
            (fun n =>
               if is_element "script" n then
                 filter (fun u => HasSuffix u ".js" = true)
                        (map (resolveURL base) (attr_vals "src" (html.Attr n)))
               else if preload_link n
                       && HasSuffix (resolveURL base (last_attr "href" (html.Attr n))) ".js"
               then [resolveURL base (last_attr "href" (html.Attr n))]
               else [])
            (html.nodes doc))
  /\ (forall base n v u,
        url.Parse v = Some u -> url.IsAbs u = true ->
        HasSuffix (url.String u) ".js" = true ->
        (is_element "script" n = true /\ v ∈ attr_vals "src" (html.Attr n)
         \/ preload_link n = true /\ last_attr "href" (html.Attr n) = v) ->
        url.String u ∈ jsOf base n)
  /\ (forall base n,
        jsOf base n
        = if is_element "script" n then
            filter (fun u => HasSuffix u ".js" = true)
                   (map (resolveURL base) (attr_vals "src" (html.Attr n)))
          else if preload_link n
                  && HasSuffix (resolveURL base (last_attr "href" (html.Attr n))) ".js"
          then [resolveURL base (last_attr "href" (html.Attr n))]
          else [])
  /\ (forall w markup,
        html_Parse w markup
        = Some (page_of (html.elem "script" [("src", "ftp://host/a.js")] [])) ->
        extractJS w markup "https://example.com/" = ["ftp://host/a.js"])
  /\ (forall w markup,
        html_Parse w markup
        = Some (page_of (html.elem "link" [("rel", "prefetch"); ("as", "script");
                                           ("href", "file:///srv/a.js")] [])) ->
        extractJS w markup "https://example.com/" = ["file:///srv/a.js"])
  /\ recJS "https://example.com/" (page_of (html.elem "script" [("src", "ftp://host/a.js")] [])) []
     = ["ftp://host/a.js"]
  /\ recJS "https://example.com/"
       (page_of (html.elem "link" [("rel", "prefetch"); ("as", "script");
                                   ("href", "file:///srv/a.js")] [])) []
     = ["file:///srv/a.js"].
Proof.
  assert (Hnode : forall base n v u,
             url.Parse v = Some u -> url.IsAbs u = true ->
             HasSuffix (url.String u) ".js" = true ->
             (is_element "script" n = true /\ v ∈ attr_vals "src" (html.Attr n)
              \/ preload_link n = true /\ last_attr "href" (html.Attr n) = v) ->
             url.String u ∈ jsOf base n).
  { intros base n v u Hp Ha Hs Hn.
    assert (Hr : resolveURL base v = url.String u) by (unfold resolveURL; by rewrite Hp, Ha).
    destruct Hn as [[Hn Hv] | [Hn Hv]].
    - rewrite (jsOf_script base n Hn), list_elem_of_filter. rewrite <- Hr at 2.
      split; [done|]. apply list_elem_of_fmap. by exists v.
    - assert (Hl : is_element "link" n = true).
      { unfold preload_link in Hn. by destruct (is_element "link" n). }
      rewrite (jsOf_link base n Hl), Hn, Hv, Hr. unfold ends_js. rewrite Hs. simpl.
      by apply list_elem_of_singleton. }
  assert (Hchar : forall base n,
             jsOf base n
             = if is_element "script" n then
                 filter (fun u => HasSuffix u ".js" = true)
                        (map (resolveURL base) (attr_vals "src" (html.Attr n)))
               else if preload_link n
                       && HasSuffix (resolveURL base (last_attr "href" (html.Attr n))) ".js"
               then [resolveURL base (last_attr "href" (html.Attr n))]
               else []).
  { intros base n. destruct (is_element "script" n) eqn:Hs; [by apply jsOf_script|].
    destruct (is_element "link" n) eqn:Hl.
    - by rewrite (jsOf_link base n Hl).
    - rewrite (jsOf_other base n Hs Hl). unfold preload_link. by rewrite Hl. }
  split.
  { intros w markup base doc n v u Hdoc Hin Hp Ha Hs Hn.
    rewrite (extractJS_nodes w markup base doc Hdoc).
    apply list_elem_of_In, in_flat_map. exists n. split; [by apply list_elem_of_In|].
    apply list_elem_of_In. by apply (Hnode base n v u). }
  split.
  { intros w markup base doc Hdoc. rewrite (extractJS_nodes w markup base doc Hdoc).
    apply flat_map_ext. intros n. apply Hchar. }
  split; [exact Hnode|]. split; [exact Hchar|].
  split.
  { intros w markup Hdoc. unfold extractJS. rewrite Hdoc. vm_compute. reflexivity. }
  split.
  { intros w markup Hdoc. unfold extractJS. rewrite Hdoc. vm_compute. reflexivity. }
  split; vm_compute; reflexivity.
Qed.

Lemma any_scheme_is_kept_witness :
  "ftp://host/a.js"
  ∈ extractJS
      (mkWorld (fun _ => Some (page_of (html.elem "script" [("src", "ftp://host/a.js")] [])))
               (fun _ => None) (fun _ => None) (fun _ => true) (fun _ m => elements (dom m)))
      "<script src='ftp://host/a.js'></script>" "https://example.com/".
Proof.
  apply (proj1 any_scheme_is_kept _ _ "https://example.com/"
           (page_of (html.elem "script" [("src", "ftp://host/a.js")] []))
           (html.elem "script" [("src", "ftp://host/a.js")] []) "ftp://host/a.js"
           (url.mkURL "ftp" "" None "host" "/a.js" "" false false "" "" ""));
    [reflexivity | | reflexivity | reflexivity | reflexivity |].
  - vm_compute. do 3 right. left.
  - left. split; [reflexivity|]. vm_compute. left.
Defined.

(** ** C3: link elements *)

(** The [link] branch on a link that has an [href]: the resolved value of
    the last [href] is contributed exactly when [rel] is [modulepreload] or
    [prefetch], [as] is [script], and the resolved string ends with [.js];
    a missing [rel] or [as] counts as the empty string and disqualifies. *)
Lemma link_with_href base n :
  is_element "link" n = true ->
  attr_vals "href" (html.Attr n) <> [] ->
  forall u,
    u ∈ jsOf base n
    <-> u = resolveURL base (last_attr "href" (html.Attr n))
        /\ (attr_vals "rel" (html.Attr n) <> [] /\ attr_vals "as" (html.Attr n) <> []
            /\ attr_vals "href" (html.Attr n) <> [])
        /\ (last_attr "rel" (html.Attr n) = "modulepreload"
            \/ last_attr "rel" (html.Attr n) = "prefetch")
        /\ last_attr "as" (html.Attr n) = "script"
        /\ HasSuffix u ".js" = true.
Proof.
  intros Hl Hh u. rewrite (jsOf_link base n Hl). unfold preload_link, ends_js. rewrite Hl.
  simpl. split.
  - destruct (_ || _) eqn:Hrel; simpl; [|by intros ?%elem_of_nil].
    destruct (String.eqb _ "script") eqn:Has; simpl; [|by intros ?%elem_of_nil].
    destruct (HasSuffix _ _) eqn:Hs; [|by intros ?%elem_of_nil].
    intros ->%list_elem_of_singleton. apply String.eqb_eq in Has.
    apply orb_true_iff in Hrel. rewrite !String.eqb_eq in Hrel.
    repeat split; try done.
    + intros E. unfold last_attr in Hrel. rewrite E in Hrel. simpl in Hrel.
      by destruct Hrel.
    + intros E. unfold last_attr in Has. rewrite E in Has. done.
  - intros (-> & _ & Hrel & Has & Hs).
    rewrite <- !String.eqb_eq, <- orb_true_iff in Hrel. rewrite Hrel.
    apply String.eqb_eq in Has. rewrite Has, Hs. simpl. by apply list_elem_of_singleton.
Qed.

(** C3. The claim does not hold of the code: the [link] branch never asks
    whether an [href] is there. A link without one leaves [href] empty,
    the empty reference resolves to the page's own URL, and on a page whose
    URL ends with [.js] that URL is reported as a JS resource. *)
Theorem link_without_href_contributes_page :
  attr_vals "href" [html.mkAttr "" "rel" "prefetch"; html.mkAttr "" "as" "script"] = []
  /\ resolveURL "https://example.com/app.js" "" = "https://example.com/app.js"
  /\ jsOf "https://example.com/app.js"
          (html.elem "link" [("rel", "prefetch"); ("as", "script")] [])
     = ["https://example.com/app.js"]
  /\ recJS "https://example.com/app.js"
           (page_of (html.elem "link" [("rel", "prefetch"); ("as", "script")] [])) []
     = ["https://example.com/app.js"].
Proof. repeat split; vm_compute; reflexivity. Qed.

(** ** C7: references that do not resolve *)

(** C7 as stated fails: an anchor whose [href] does not parse is not left
    out of the links; [extractLinks] appends the empty string for it. *)
Lemma failed_href_is_kept_as_empty :
  url.Parse ":" = None
  /\ resolve_fails "https://example.com/" ":" = true
  /\ linksOf "https://example.com/" (html.elem "a" [("href", ":")] []) = [""]
  /\ recLinks "https://example.com/" (page_of (html.elem "a" [("href", ":")] [])) [] = [""]
  /\ ~ (recLinks "https://example.com/" (page_of (html.elem "a" [("href", ":")] [])) [] = []).
Proof. repeat split; try (vm_compute; reflexivity). vm_compute. discriminate. Qed.

(** C7, amended. Extraction never stops at a reference that fails to
    resolve: both outputs are the contributions of all nodes of the
    document, one by one. Such a reference is left out of the JS URLs, from
    a [script] as from a [link]. In the links it is not left out: every
    [href] of an anchor yields one entry, the empty string when it fails;
    the crawl loop then passes over that entry for every non-empty
    domain. *)
Theorem failed_reference_is_skipped :
  (forall w markup base doc,
      html_Parse w markup = Some doc ->
      extractJS w markup base = flat_map (jsOf base) (html.nodes doc)
      /\ extractLinks w markup base = flat_map (linksOf base) (html.nodes doc))
  /\ (forall base v, resolve_fails base v = true -> resolveURL base v = "")
  /\ (forall base n,
        is_element "script" n = true ->
        jsOf base n
        = filter (fun u => HasSuffix u ".js" = true)
            (map (resolveURL base)
               (filter (fun v => resolve_fails base v = false)
                       (attr_vals "src" (html.Attr n)))))
  /\ (forall base n,
        is_element "link" n = true ->
        resolve_fails base (last_attr "href" (html.Attr n)) = true ->
        jsOf base n = [])
  /\ (forall base n,
        is_element "a" n = true ->
        linksOf base n
        = map (fun v => if resolve_fails base v then "" else resolveURL base v)
              (attr_vals "href" (html.Attr n)))
  /\ (forall domain sq, domain <> "" -> enqueue domain sq "" = sq).
Proof.
  split.
  { intros w markup base doc H. split; [by apply extractJS_nodes | by apply extractLinks_nodes]. }
  split; [exact resolve_fails_empty|].
  split.
  { intros base n Hn. rewrite (jsOf_script base n Hn).
    induction (attr_vals "src" (html.Attr n)) as [|v vs IH]; [done|].
    simpl. rewrite (filter_cons _ v vs). rewrite filter_cons.
    destruct (resolve_fails base v) eqn:Hf.
    - rewrite (resolve_fails_empty _ _ Hf). rewrite decide_False by done.
      rewrite (decide_False (P := true = false)) by done. exact IH.
    - rewrite (decide_True (P := false = false)) by done. simpl.
      rewrite (filter_cons _ (resolveURL base v)). by rewrite IH. }
  split.
  { intros base n Hn Hf. rewrite (jsOf_link base n Hn), (resolve_fails_empty _ _ Hf).
    rewrite ends_js_empty. by rewrite andb_false_r. }
  split.
  { intros base n Hn. rewrite linksOf_spec, Hn. apply map_ext_in. intros v _.
    destruct (resolve_fails base v) eqn:Hf; [by apply resolve_fails_empty | done]. }
  intros domain [s q] Hd. unfold enqueue.
  assert (Hs : sameDomain "" domain = false).
  { unfold sameDomain. change (url.Parse "") with (Some url.zero). simpl.
    destruct domain; [done | reflexivity]. }
  by rewrite Hs.
Qed.

(* ===================================================================== *)
(** * Resolving a resolved reference *)
(* ===================================================================== *)

#[local] Arguments String.append !_ _ / : simpl nomatch.

Section Strings.

Implicit Types (s a b p : string) (c d : ascii).

Lemma sapp_nil_r s : s +:+ "" = s.
Proof. induction s as [|c s IH]; simpl; [done | by rewrite IH]. Qed.

Lemma sapp_assoc a b s : (a +:+ b) +:+ s = a +:+ b +:+ s.
Proof. induction a as [|c a IH]; simpl; [done | by rewrite IH]. Qed.

Lemma slength_app a b : String.length (a +:+ b) = (String.length a + String.length b)%nat.
Proof. induction a as [|c a IH]; simpl; [done | by rewrite IH]. Qed.

Lemma len_app a b : len (a +:+ b) = len a + len b.
Proof. unfold len. rewrite slength_app. lia. Qed.

Lemma len_nonneg s : 0 <= len s.
Proof. unfold len. lia. Qed.

Lemma len_cons c s : len (String c s) = 1 + len s.
Proof. unfold len. simpl. lia. Qed.

Lemma all_app P a b : all P (a +:+ b) = all P a && all P b.
Proof. induction a as [|c a IH]; simpl; [done | by rewrite IH, andb_assoc]. Qed.

Lemma all_impl (P Q : ascii -> bool) s :
  (forall c, P c = true -> Q c = true) -> all P s = true -> all Q s = true.
Proof.
  intros H. induction s as [|c s IH]; simpl; [done|].
  intros [Hc Hs]%andb_true_iff. by rewrite (H _ Hc), IH.
Qed.

Lemma all_and (P Q : ascii -> bool) s :
  all (fun c => P c && Q c) s = all P s && all Q s.
Proof.
  induction s as [|c s IH]; simpl; [done|]. rewrite IH.
  destruct (P c), (Q c), (all P s), (all Q s); done.
Qed.

Lemma all_take P n s : all P s = true -> all P (take n s) = true.
Proof.
  revert s. induction n as [|n IH]; intros [|c s]; simpl; try done.
  intros [Hc Hs]%andb_true_iff. by rewrite Hc, IH.
Qed.

Lemma all_drop P n s : all P s = true -> all P (drop n s) = true.
Proof.
  revert s. induction n as [|n IH]; intros [|c s]; simpl; try done.
  intros [Hc Hs]%andb_true_iff. by apply IH.
Qed.

Lemma take_drop n s : take n s +:+ drop n s = s.
Proof.
  revert s. induction n as [|n IH]; intros [|c s]; simpl; try done. by rewrite IH.
Qed.

Lemma take_app a b : take (String.length a) (a +:+ b) = a.
Proof. induction a as [|c a IH]; simpl; [by destruct b | by rewrite IH]. Qed.

Lemma drop_app a b : drop (String.length a) (a +:+ b) = b.
Proof. induction a as [|c a IH]; simpl; done. Qed.

Lemma slice_to_app a b : slice_to (a +:+ b) (len a) = a.
Proof. unfold slice_to, len. rewrite Nat2Z.id. apply take_app. Qed.

Lemma slice_from_app a b : slice_from (a +:+ b) (len a) = b.
Proof. unfold slice_from, len. rewrite Nat2Z.id. apply drop_app. Qed.

Lemma slice_from_0 s : slice_from s 0 = s.
Proof. done. Qed.

Lemma HasPrefix_app p s : HasPrefix (p +:+ s) p = true.
Proof. induction p as [|c p IH]; simpl; [done|]. by rewrite Ascii.eqb_refl. Qed.

Lemma HasPrefix_split s p : HasPrefix s p = true -> exists r, s = p +:+ r.
Proof.
  revert s. induction p as [|c p IH]; intros s; simpl.
  - by exists s.
  - destruct s as [|d s]; [done|]. intros [Hc Hp]%andb_true_iff.
    apply Ascii.eqb_eq in Hc as ->. destruct (IH _ Hp) as [r ->]. exists r. reflexivity.
Qed.

Lemma HasPrefix_char s c : HasPrefix s (String c "") = match s with String d _ => Ascii.eqb d c | _ => false end.
Proof. destruct s as [|d s]; simpl; [done|]. by rewrite andb_true_r. Qed.

(** *** A byte as a separator *)

Lemma Index_here c s : Index (String c s) (String c "") = 0.
Proof. simpl. by rewrite Ascii.eqb_refl. Qed.

Lemma Index_char a c b :
  lacks c a = true -> Index (a +:+ String c b) (String c "") = len a.
Proof.
  induction a as [|d a IH]; simpl.
  - intros _. by rewrite Ascii.eqb_refl.
  - intros [Hd Ha]%andb_true_iff. apply negb_true_iff in Hd. rewrite Hd. simpl.
    rewrite (IH Ha). rewrite len_cons. pose proof (len_nonneg a).
    destruct (Z.ltb_spec (len a) 0); lia.
Qed.

Lemma Index_none c s : lacks c s = true -> Index s (String c "") = -1.
Proof.
  induction s as [|d s IH]; simpl; [done|].
  intros [Hd Hs]%andb_true_iff. apply negb_true_iff in Hd. rewrite Hd. simpl.
  by rewrite (IH Hs).
Qed.

Lemma Cut_char a c b :
  lacks c a = true -> Cut (a +:+ String c b) (String c "") = (a, b, true).
Proof.
  intros H. unfold Cut. rewrite (Index_char _ _ _ H).
  pose proof (len_nonneg a). destruct (Z.leb_spec 0 (len a)); [|lia].
  rewrite slice_to_app. change (len (String c "")) with 1.
  replace (len a + 1) with (len (a +:+ String c "")) by (rewrite len_app; done).
  replace (a +:+ String c b) with ((a +:+ String c "") +:+ b) by (by rewrite sapp_assoc).
  by rewrite slice_from_app.
Qed.

Lemma Cut_none c s : lacks c s = true -> Cut s (String c "") = (s, "", false).
Proof. intros H. unfold Cut. by rewrite (Index_none _ _ H). Qed.

Lemma Contains_char c s : Contains s (String c "") = negb (lacks c s).
Proof.
  unfold Contains, lacks. induction s as [|d s IH]; simpl; [reflexivity|].
  rewrite andb_true_r. destruct (Ascii.eqb d c); simpl; [reflexivity|].
  rewrite <- IH. destruct (Z.ltb_spec (Index s (String c "")) 0);
    destruct (Z.leb_spec 0 (Index s (String c ""))); try lia; try done;
    destruct (Z.leb_spec 0 (1 + Index s (String c ""))); first [lia | done].
Qed.

Lemma LastIndex_none c s : lacks c s = true -> LastIndex s (String c "") = -1.
Proof.
  induction s as [|d s IH]; simpl; [done|].
  intros [Hd Hs]%andb_true_iff. apply negb_true_iff in Hd. by rewrite (IH Hs), Hd.
Qed.

Lemma LastIndex_char a c b :
  lacks c b = true -> LastIndex (a +:+ String c b) (String c "") = len a.
Proof.
  intros Hb. induction a as [|d a IH]; simpl.
  - rewrite (LastIndex_none _ _ Hb). simpl. by rewrite Ascii.eqb_refl.
  - rewrite IH, len_cons. pose proof (len_nonneg a).
    destruct (Z.leb_spec 0 (len a)); lia.
Qed.

Lemma CountByte_app a b c : CountByte (a +:+ b) c = CountByte a c + CountByte b c.
Proof. induction a as [|d a IH]; simpl; [done|]. rewrite IH. lia. Qed.

Lemma CountByte_lacks s c : lacks c s = true -> CountByte s c = 0.
Proof.
  induction s as [|d s IH]; simpl; [done|].
  intros [Hd Hs]%andb_true_iff. apply negb_true_iff in Hd. by rewrite Hd, (IH Hs).
Qed.

Lemma CountByte_nonneg s c : 0 <= CountByte s c.
Proof. induction s as [|d s IH]; simpl; [done|]. destruct (Ascii.eqb d c); lia. Qed.

Lemma CountByte_pos s c : lacks c s = false -> 1 <= CountByte s c.
Proof.
  unfold lacks. induction s as [|d s IH]; simpl; [done|]. pose proof (CountByte_nonneg s c).
  destruct (Ascii.eqb d c); simpl; [lia|]. intros H'. specialize (IH H'). lia.
Qed.

Lemma HasSuffix_snoc s c : HasSuffix (s +:+ String c "") (String c "") = true.
Proof.
  unfold HasSuffix. rewrite len_app. change (len (String c "")) with 1.
  pose proof (len_nonneg s). destruct (Z.leb_spec 1 (len s + 1)); [|lia]. simpl.
  replace (len s + 1 - 1) with (len s) by lia. rewrite slice_from_app. apply String.eqb_refl.
Qed.

Lemma drop_last s d :
  drop (String.length s) (s +:+ String d "") = String d "".
Proof. apply drop_app. Qed.

Lemma HasSuffix_char s c : HasSuffix s (String c "") = negb (not_last c s).
Proof.
  unfold HasSuffix. change (len (String c "")) with 1.
  induction s as [|d s IH]; [done|].
  rewrite len_cons. pose proof (len_nonneg s).
  destruct (Z.leb_spec 1 (1 + len s)); [|lia]. cbn [andb].
  destruct s as [|e s].
  - simpl. destruct (Ascii.eqb_spec d c) as [->|Hne]; simpl.
    + reflexivity.
    + destruct (Ascii.eqb_spec d c); done.
  - change (not_last c (String d (String e s))) with (not_last c (String e s)).
    rewrite <- IH. rewrite len_cons in *. pose proof (len_nonneg s).
    destruct (Z.leb_spec 1 (1 + len s)); [|lia]. cbn [andb].
    unfold slice_from.
    replace (Z.to_nat (1 + (1 + len s) - 1)) with (S (Z.to_nat (1 + len s - 1))) by lia.
    done.
Qed.

End Strings.

(** ** Bytes and escapes *)

Ltac by_bytes c :=
  destruct c as [[] [] [] [] [] [] [] []]; vm_compute; try reflexivity; try discriminate;
  try (intros; discriminate); try (intros; reflexivity).

Lemma CTL_all s : url.stringContainsCTLByte s = negb (all (fun c => negb (isCTL c)) s).
Proof.
  induction s as [|c s IH]; [done|]. simpl. rewrite IH. unfold isCTL.
  destruct ((url.code c <? 32)%N), ((url.code c =? 127)%N); done.
Qed.

Lemma okQ_noCTL s : all okQ s = true -> url.stringContainsCTLByte s = false.
Proof.
  intros H. rewrite CTL_all. apply negb_false_iff.
  revert H. apply all_impl. intros c. unfold okQ. by intros [? _]%andb_true_iff.
Qed.

Lemma okQ_lacks s : all okQ s = true -> lacks "#" s = true.
Proof. apply all_impl. intros c. unfold okQ. by intros [_ ?]%andb_true_iff. Qed.

Lemma okP_okQ s : all okP s = true -> all okQ s = true.
Proof. apply all_impl. intros c. unfold okP. by intros [? _]%andb_true_iff. Qed.

Lemma okP_lacks s : all okP s = true -> lacks "?" s = true.
Proof. apply all_impl. intros c. unfold okP. by intros [_ ?]%andb_true_iff. Qed.

Lemma okA_okP s : all okA s = true -> all okP s = true.
Proof. apply all_impl. intros c. unfold okA. by intros [[? _]%andb_true_iff _]%andb_true_iff. Qed.

Lemma okA_lacks_slash s : all okA s = true -> lacks "/" s = true.
Proof. apply all_impl. intros c. unfold okA. by intros [[_ ?]%andb_true_iff _]%andb_true_iff. Qed.

Lemma okA_lacks_at s : all okA s = true -> lacks "@" s = true.
Proof. apply all_impl. intros c. unfold okA. by intros [_ ?]%andb_true_iff. Qed.

Lemma okU_okA s : all okU s = true -> all okA s = true.
Proof. apply all_impl. intros c. unfold okU. by intros [? _]%andb_true_iff. Qed.

Lemma okU_lacks_colon s : all okU s = true -> lacks ":" s = true.
Proof. apply all_impl. intros c. unfold okU. by intros [_ ?]%andb_true_iff. Qed.

(** What [escape] writes: bytes it leaves alone, [%], and hex digits. *)
Lemma escape_all (P : ascii -> bool) (m : url.encoding) s :
  m <> url.encodeQueryComponent ->
  (forall c, url.shouldEscape c m = false -> P c = true) ->
  (forall c, P "%"%char && P (url.upperhex (url.code c / 16)) && P (url.upperhex (url.code c mod 16)) = true) ->
  all P (url.escape s m) = true.
Proof.
  intros Hm Hkeep Hhex. induction s as [|c s IH]; [done|]. simpl.
  destruct (url.shouldEscape c m) eqn:Hc.
  - replace (Ascii.eqb c " " && url.encoding_eqb m url.encodeQueryComponent) with false
      by (destruct m; try done; by rewrite andb_false_r).
    simpl. rewrite IH. specialize (Hhex c).
    apply andb_true_iff in Hhex as [[H1 H2]%andb_true_iff H3]. by rewrite H1, H2, H3.
  - simpl. by rewrite (Hkeep _ Hc), IH.
Qed.

Lemma all_mem (P : ascii -> bool) s c : all P s = true -> mem c s = true -> P c = true.
Proof.
  induction s as [|d s IH]; simpl; [done|].
  intros [Hd Hs]%andb_true_iff [->%Ascii.eqb_eq | Hc]%orb_true_iff; [done | by apply IH].
Qed.

Lemma upperhex_digit c :
  mem (url.upperhex (url.code c / 16)) "0123456789ABCDEF" = true
  /\ mem (url.upperhex (url.code c mod 16)) "0123456789ABCDEF" = true.
Proof. by_bytes c; split; reflexivity. Qed.

Lemma hex_ok (P : ascii -> bool) :
  P "%"%char = true -> all P "0123456789ABCDEF" = true ->
  forall c, P "%"%char && P (url.upperhex (url.code c / 16)) && P (url.upperhex (url.code c mod 16)) = true.
Proof.
  intros Hp Hh c. destruct (upperhex_digit c) as [H1 H2].
  by rewrite Hp, (all_mem _ _ _ Hh H1), (all_mem _ _ _ Hh H2).
Qed.

Lemma keep_okP c : url.shouldEscape c url.encodePath = false -> okP c = true.
Proof. by_bytes c. Qed.

Lemma keep_okA c : url.shouldEscape c url.encodeHost = false -> okA c = true.
Proof. by_bytes c. Qed.

Lemma keep_okU c : url.shouldEscape c url.encodeUserPassword = false -> okU c = true.
Proof. by_bytes c. Qed.

Lemma escape_okP s : all okP (url.escape s url.encodePath) = true.
Proof. apply escape_all; [done | exact keep_okP | by apply hex_ok]. Qed.

Lemma escape_okA s : all okA (url.escape s url.encodeHost) = true.
Proof. apply escape_all; [done | exact keep_okA | by apply hex_ok]. Qed.

Lemma escape_okU s : all okU (url.escape s url.encodeUserPassword) = true.
Proof. apply escape_all; [done | exact keep_okU | by apply hex_ok]. Qed.

Lemma validUserinfo_all s : url.validUserinfo s = all userinfo_byte s.
Proof. induction s as [|c s IH]; [done|]. simpl. by rewrite IH. Qed.

Lemma keep_userinfo c : url.shouldEscape c url.encodeUserPassword = false -> userinfo_byte c = true.
Proof. by_bytes c. Qed.

Lemma escape_validUserinfo s : all userinfo_byte (url.escape s url.encodeUserPassword) = true.
Proof. apply escape_all; [done | exact keep_userinfo | by apply hex_ok]. Qed.

Lemma hex_roundtrip c :
  url.ishex (url.upperhex (url.code c / 16)) && url.ishex (url.upperhex (url.code c mod 16)) = true
  /\ ascii_of_N (url.unhex (url.upperhex (url.code c / 16)) * 16
                 + url.unhex (url.upperhex (url.code c mod 16))) = c.
Proof. by_bytes c; split; reflexivity. Qed.

Lemma keep_not_percent c m :
  url.shouldEscape c m = false -> Ascii.eqb c "%" = false.
Proof. destruct m; by_bytes c. Qed.

Lemma unescape_cons_plain c s m :
  plain_mode m = true -> Ascii.eqb c "%" = false ->
  url.unescape (String c s) m = option_map (String c) (url.unescape s m).
Proof.
  intros Hm Hc. simpl. rewrite Hc.
  destruct (Ascii.eqb c "+") eqn:Hp.
  - by destruct m.
  - by destruct m.
Qed.

Lemma unescape_escape s m :
  plain_mode m = true -> url.unescape (url.escape s m) m = Some s.
Proof.
  intros Hm. induction s as [|c s IH]; [done|]. simpl url.escape.
  destruct (url.shouldEscape c m) eqn:Hc.
  - replace (Ascii.eqb c " " && url.encoding_eqb m url.encodeQueryComponent) with false
      by (destruct m; try done; by rewrite andb_false_r).
    destruct (hex_roundtrip c) as [Hh Hb].
    cbn [url.unescape]. change (Ascii.eqb "%" "%") with true. cbn iota.
    rewrite Hh. cbn [negb].
    replace (url.encoding_eqb m url.encodeHost) with false by (by destruct m).
    replace (url.encoding_eqb m url.encodeZone) with false by (by destruct m).
    cbn [andb]. rewrite Hb, IH. done.
  - rewrite unescape_cons_plain by (done || by eapply keep_not_percent). by rewrite IH.
Qed.

(** [escape] and [unescape] on a leading slash. *)
Lemma escape_slash s : url.escape (String "/" s) url.encodePath = String "/" (url.escape s url.encodePath).
Proof. reflexivity. Qed.

Lemma unescape_slash s m :
  plain_mode m = true ->
  url.unescape (String "/" s) m = option_map (String "/") (url.unescape s m).
Proof. intros Hm. by apply unescape_cons_plain. Qed.

Lemma rooted_not_star e p :
  rooted e = true -> url.unescape e url.encodePath = Some p -> String.eqb p "*" = false.
Proof.
  destruct e as [|c e]; simpl rooted.
  - intros _ [= <-]. done.
  - intros ->%Ascii.eqb_eq. rewrite unescape_slash by done.
    destruct (url.unescape e url.encodePath); [|done]. by intros [= <-].
Qed.

Lemma EscapedPath_cases u :
  (url.EscapedPath u = url.RawPath u
   /\ url.RawPath u <> ""
   /\ url.validEncoded (url.RawPath u) url.encodePath = true
   /\ url.unescape (url.RawPath u) url.encodePath = Some (url.Path u))
  \/ (url.EscapedPath u = "*" /\ url.Path u = "*")
  \/ (url.EscapedPath u = url.escape (url.Path u) url.encodePath /\ url.Path u <> "*").
Proof.
  unfold url.EscapedPath.
  destruct (negb (String.eqb (url.RawPath u) "")) eqn:Hn; simpl.
  - destruct (url.validEncoded (url.RawPath u) url.encodePath) eqn:Hv; simpl.
    + destruct (url.unescape (url.RawPath u) url.encodePath) as [p|] eqn:Hu.
      * destruct (String.eqb_spec p (url.Path u)) as [->|Hne].
        -- left. repeat split; try done. apply negb_true_iff, String.eqb_neq in Hn. done.
        -- right. destruct (String.eqb_spec (url.Path u) "*"); [by left | by right].
      * right. destruct (String.eqb_spec (url.Path u) "*"); [by left | by right].
    + right. destruct (String.eqb_spec (url.Path u) "*"); [by left | by right].
  - right. destruct (String.eqb_spec (url.Path u) "*"); [by left | by right].
Qed.

(** A rooted path as written is read back and written again the same. *)
Lemma setPath_stable u0 u :
  rooted (url.EscapedPath u) = true ->
  exists r,
    url.setPath u0 (url.EscapedPath u) = Some (with_path u0 (url.Path u) r)
    /\ url.EscapedPath (with_path u0 (url.Path u) r) = url.EscapedPath u.
Proof.
  intros Hr. unfold url.setPath.
  destruct (EscapedPath_cases u) as [(He & Hne & Hv & Hu) | [(He & Hp) | (He & Hp)]].
  - rewrite He in *. rewrite Hu. eexists. split; [reflexivity|].
    pose proof (rooted_not_star _ _ Hr Hu) as Hstar.
    unfold url.EscapedPath, with_path. simpl.
    destruct (String.eqb_spec (url.RawPath u) (url.escape (url.Path u) url.encodePath)) as [E|E].
    + simpl. by rewrite Hstar.
    + apply String.eqb_neq in Hne. rewrite Hne, Hv, Hu, String.eqb_refl. done.
  - rewrite He in Hr. done.
  - rewrite He. rewrite unescape_escape by done. rewrite String.eqb_refl.
    eexists. split; [reflexivity|]. unfold url.EscapedPath, with_path. simpl.
    apply String.eqb_neq in Hp. by rewrite Hp.
Qed.

Lemma EscapedPath_empty u :
  rooted (url.EscapedPath u) = true -> (url.Path u = "" <-> url.EscapedPath u = "").
Proof.
  intros Hr.
  destruct (EscapedPath_cases u) as [(He & Hne & Hv & Hu) | [(He & Hp) | (He & Hp)]].
  - rewrite He. split; [|done]. intros Hp. rewrite Hp in Hu.
    destruct (url.RawPath u) as [|c r]; [done|]. rewrite He in Hr. simpl in Hr.
    apply Ascii.eqb_eq in Hr as ->. rewrite unescape_slash in Hu by done.
    by destruct (url.unescape r url.encodePath).
  - rewrite He in Hr. done.
  - rewrite He. destruct (url.Path u) as [|c p]; [done|]. split; [done|].
    simpl. destruct (url.shouldEscape c url.encodePath); [|done].
    by destruct (Ascii.eqb c " " && _).
Qed.

Lemma EscapedFragment_cases u :
  (url.EscapedFragment u = url.RawFragment u
   /\ url.RawFragment u <> ""
   /\ url.validEncoded (url.RawFragment u) url.encodeFragment = true
   /\ url.unescape (url.RawFragment u) url.encodeFragment = Some (url.Fragment u))
  \/ url.EscapedFragment u = url.escape (url.Fragment u) url.encodeFragment.
Proof.
  unfold url.EscapedFragment.
  destruct (negb (String.eqb (url.RawFragment u) "")) eqn:Hn; simpl; [|by right].
  destruct (url.validEncoded (url.RawFragment u) url.encodeFragment) eqn:Hv; simpl; [|by right].
  destruct (url.unescape (url.RawFragment u) url.encodeFragment) as [p|] eqn:Hu; [|by right].
  destruct (String.eqb_spec p (url.Fragment u)) as [->|Hne]; [|by right].
  left. repeat split; try done. by apply negb_true_iff, String.eqb_neq in Hn.
Qed.

Lemma escape_nonempty s m : s <> "" -> url.escape s m <> "".
Proof.
  destruct s as [|c s]; [done|]. intros _. simpl.
  destruct (url.shouldEscape c m); [|done]. by destruct (Ascii.eqb c " " && _).
Qed.

(** A fragment as written is read back and written again the same. *)
Lemma setFragment_stable u0 u :
  url.Fragment u <> "" ->
  url.EscapedFragment u <> ""
  /\ exists r,
      url.setFragment u0 (url.EscapedFragment u) = Some (with_fragment u0 (url.Fragment u) r)
      /\ url.EscapedFragment (with_fragment u0 (url.Fragment u) r) = url.EscapedFragment u.
Proof.
  intros Hf. unfold url.setFragment.
  destruct (EscapedFragment_cases u) as [(He & Hne & Hv & Hu) | He].
  - rewrite He in *. split; [done|]. rewrite Hu. eexists. split; [reflexivity|].
    unfold url.EscapedFragment, with_fragment. simpl.
    destruct (String.eqb_spec (url.RawFragment u) (url.escape (url.Fragment u) url.encodeFragment))
      as [E|E]; simpl; [done|].
    apply String.eqb_neq in Hne. by rewrite Hne, Hv, Hu, String.eqb_refl.
  - rewrite He. split; [by apply escape_nonempty|].
    rewrite unescape_escape by done. rewrite String.eqb_refl.
    eexists. split; [reflexivity|]. done.
Qed.

(** ** Schemes *)

Lemma valid_scheme_all s : valid_scheme s = true -> all scheme_byte s = true.
Proof.
  destruct s as [|c s]; [done|]. simpl. intros [Hc Hs]%andb_true_iff.
  rewrite Hs, andb_true_r. unfold scheme_byte. by rewrite Hc.
Qed.

Lemma valid_scheme_snoc pre c :
  all scheme_byte pre = true -> (pre = "" -> url.isalpha c = true) ->
  (pre <> "" -> valid_scheme pre = true) -> scheme_byte c = true ->
  valid_scheme (pre +:+ String c "") = true.
Proof.
  destruct pre as [|d pre]; simpl.
  - intros _ Hc _ _. by rewrite Hc.
  - intros [Hd Hp]%andb_true_iff _ Hv Hc. specialize (Hv ltac:(done)).
    apply andb_true_iff in Hv as [Hv _]. rewrite Hv. simpl. by rewrite all_app, Hp; simpl; rewrite Hc.
Qed.

Lemma getScheme_from_ok r s : forall pre,
  all scheme_byte s = true ->
  (pre = "" -> valid_scheme s = true) ->
  url.getScheme_from (pre +:+ s +:+ String ":" r) (len pre) (s +:+ String ":" r)
  = Some (pre +:+ s, r).
Proof.
  induction s as [|c s IH]; intros pre Hs Hpre.
  - assert (Hne : pre <> "") by (intros ->; by specialize (Hpre eq_refl)).
    simpl. assert ((len pre =? 0) = false) as ->.
    { destruct pre; [done|]. rewrite len_cons. pose proof (len_nonneg pre).
      apply Z.eqb_neq. lia. }
    rewrite slice_to_app. rewrite sapp_nil_r.
    replace (len pre + 1) with (len (pre +:+ String ":" "")) by (by rewrite len_app).
    replace (pre +:+ String ":" r) with ((pre +:+ String ":" "") +:+ r)
      by (by rewrite sapp_assoc).
    by rewrite slice_from_app.
  - simpl in Hs. apply andb_true_iff in Hs as [Hc Hs].
    assert (Hstep : url.getScheme_from (pre +:+ String c s +:+ String ":" r) (len pre + 1)
                      (s +:+ String ":" r) = Some (pre +:+ String c s, r)).
    { specialize (IH (pre +:+ String c "")).
      rewrite len_app, !sapp_assoc in IH. apply IH; [done|].
      intros E. by destruct pre. }
    change (String c s +:+ String ":" r) with (String c (s +:+ String ":" r)) at 2.
    cbn [url.getScheme_from].
    destruct (url.isalpha c) eqn:Ha; [exact Hstep|].
    assert (Hd : url.isdigit c || mem c "+-." = true).
    { unfold scheme_byte in Hc. by rewrite Ha in Hc. }
    rewrite Hd.
    assert ((len pre =? 0) = false) as ->; [|exact Hstep].
    destruct pre as [|d pre].
    + specialize (Hpre eq_refl). simpl in Hpre. by rewrite Ha in Hpre.
    + rewrite len_cons. pose proof (len_nonneg pre). apply Z.eqb_neq. lia.
Qed.

Lemma getScheme_ok s r :
  valid_scheme s = true -> url.getScheme (s +:+ String ":" r) = Some (s, r).
Proof.
  intros H. unfold url.getScheme.
  apply (getScheme_from_ok r s ""); [by apply valid_scheme_all | done].
Qed.

Lemma scheme_byte_not_colon c : scheme_byte c = true -> Ascii.eqb c ":" = false.
Proof. by_bytes c. Qed.

Lemma getScheme_from_inv raw s rest : forall t pre,
  raw = pre +:+ t ->
  all scheme_byte pre = true ->
  (pre <> "" -> valid_scheme pre = true) ->
  url.getScheme_from raw (len pre) t = Some (s, rest) ->
  (s = "" /\ rest = raw) \/ (valid_scheme s = true /\ raw = s +:+ String ":" rest).
Proof.
  induction t as [|c t IH]; intros pre Hraw Hp Hv; cbn [url.getScheme_from].
  - intros [= <- <-]. by left.
  - assert (Hnext : scheme_byte c = true -> (pre = "" -> url.isalpha c = true) ->
              url.getScheme_from raw (len pre + 1) t = Some (s, rest) ->
              (s = "" /\ rest = raw) \/ (valid_scheme s = true /\ raw = s +:+ String ":" rest)).
    { intros Hc Ha H. apply (IH (pre +:+ String c "")).
      - by rewrite sapp_assoc.
      - by rewrite all_app, Hp; simpl; rewrite Hc.
      - intros _. by apply valid_scheme_snoc.
      - by rewrite len_app. }
    destruct (url.isalpha c) eqn:Ha.
    { apply Hnext; [unfold scheme_byte; by rewrite Ha | done]. }
    destruct (url.isdigit c || mem c "+-.") eqn:Hd.
    { destruct (Z.eqb_spec (len pre) 0) as [E|E]; cbn iota.
      - intros [= <- <-]. by left.
      - apply Hnext; [unfold scheme_byte; rewrite Ha; exact Hd|].
        intros ->. done. }
    destruct (Ascii.eqb_spec c ":") as [->|Hc]; cbn iota; [|intros [= <- <-]; by left].
    destruct (Z.eqb_spec (len pre) 0) as [E|E]; cbn iota; [done|].
    intros [= <- <-]. right. subst raw. rewrite slice_to_app.
    split.
    + apply Hv. intros ->. done.
    + replace (len pre + 1) with (len (pre +:+ String ":" "")) by (by rewrite len_app).
      replace (pre +:+ String ":" t) with ((pre +:+ String ":" "") +:+ t)
        by (by rewrite sapp_assoc).
      rewrite slice_from_app. by rewrite sapp_assoc.
Qed.

Lemma getScheme_inv raw s rest :
  url.getScheme raw = Some (s, rest) ->
  (s = "" /\ rest = raw) \/ (valid_scheme s = true /\ raw = s +:+ String ":" rest).
Proof. apply (getScheme_from_inv raw s rest raw ""); done. Qed.

Lemma lower_facts c :
  lower (lower c) = lower c
  /\ url.isalpha (lower c) = url.isalpha c
  /\ scheme_byte (lower c) = scheme_byte c.
Proof. by_bytes c; repeat split; reflexivity. Qed.

Lemma ToLower_idem s : ToLower (ToLower s) = ToLower s.
Proof.
  induction s as [|c s IH]; [done|]. simpl. rewrite IH.
  by destruct (lower_facts c) as (-> & _).
Qed.

Lemma ToLower_scheme_bytes s : all scheme_byte (ToLower s) = all scheme_byte s.
Proof.
  induction s as [|c s IH]; [done|]. simpl. rewrite IH.
  by destruct (lower_facts c) as (_ & _ & ->).
Qed.

Lemma ToLower_valid s : valid_scheme (ToLower s) = valid_scheme s.
Proof.
  destruct s as [|c s]; [done|]. simpl. rewrite ToLower_scheme_bytes.
  by destruct (lower_facts c) as (_ & -> & _).
Qed.

Lemma ToLower_empty s : ToLower s = "" <-> s = "".
Proof. by destruct s. Qed.

Lemma scheme_byte_okA c : scheme_byte c = true -> okU c = true.
Proof. by_bytes c. Qed.

Lemma scheme_okU s : all scheme_byte s = true -> all okU s = true.
Proof. apply all_impl, scheme_byte_okA. Qed.

(** ** Reading back what [String] writes *)

Lemma not_last_app c a b : b <> "" -> not_last c (a +:+ b) = not_last c b.
Proof.
  intros Hb. induction a as [|d a IH]; [done|].
  simpl. destruct (a +:+ b) eqn:E; [|done].
  destruct a; [simpl in E; by subst | done].
Qed.

Lemma lacks_not_last c s : lacks c s = true -> not_last c s = true.
Proof.
  unfold lacks. induction s as [|d s IH]; [done|]. simpl.
  intros [Hd Hs]%andb_true_iff. destruct s; [done | by apply IH].
Qed.

Lemma not_last_count c s : s <> "" -> not_last c s = false -> 1 <= CountByte s c.
Proof.
  induction s as [|d s IH]; [done|]. intros _. simpl.
  pose proof (CountByte_nonneg s c).
  destruct s as [|e s].
  - intros ->%negb_false_iff. simpl. lia.
  - intros H'. specialize (IH ltac:(done) H'). destruct (Ascii.eqb d c); lia.
Qed.

Lemma splitQuery_qpart B force rq :
  lacks "?" B = true -> (force = true -> rq = "") ->
  url.splitQuery (B +:+ qpart force rq) = (B, force, rq).
Proof.
  intros HB Hf. unfold url.splitQuery, qpart.
  destruct force; simpl orb; cbn iota.
  - rewrite (Hf eq_refl). change ("?" +:+ "") with "?".
    rewrite HasSuffix_snoc, CountByte_app, (CountByte_lacks _ _ HB).
    simpl. rewrite len_app. change (len "?") with 1.
    replace (len B + 1 - 1) with (len B) by lia. by rewrite slice_to_app.
  - destruct rq as [|c rq]; simpl url.nonempty; cbn iota.
    + rewrite sapp_nil_r, HasSuffix_char, (lacks_not_last _ _ HB). simpl.
      by rewrite (Cut_none _ _ HB).
    + assert (Hne : String c rq <> "") by done. revert Hne. generalize (String c rq).
      clear c rq Hf. intros rq Hne.
      assert (Hcond : HasSuffix (B +:+ "?" +:+ rq) "?"
                      && (CountByte (B +:+ "?" +:+ rq) "?" =? 1) = false).
      { rewrite HasSuffix_char. change ("?" +:+ rq) with (String "?" rq).
        rewrite not_last_app by done. rewrite CountByte_app, (CountByte_lacks _ _ HB).
        assert (not_last "?" (String "?" rq) = not_last "?" rq) as -> by (by destruct rq).
        destruct (not_last "?" rq) eqn:Hl; [reflexivity|]. simpl negb. cbn [andb].
        assert (Hn : 1 <= CountByte rq "?") by (by apply not_last_count).
        cbn [CountByte]. change (Ascii.eqb "?" "?") with true. cbn iota.
        apply Z.eqb_neq. lia. }
      assert (url.nonempty rq = true) as -> by (by destruct rq).
      rewrite Hcond. change ("?" +:+ rq) with (String "?" rq).
      by rewrite (Cut_char _ _ _ HB).
Qed.

Lemma escape_host_opt h :
  (if url.nonempty h then url.escape h url.encodeHost else "") = url.escape h url.encodeHost.
Proof. by destruct h. Qed.

Lemma Userinfo_String_norm ui : url.Userinfo_String (norm_user ui) = url.Userinfo_String ui.
Proof. unfold url.Userinfo_String, norm_user. simpl. by destruct (url.passwordSet ui). Qed.

Lemma Userinfo_String_okA ui : all okA (url.Userinfo_String ui) = true.
Proof.
  unfold url.Userinfo_String. rewrite all_app.
  rewrite (okU_okA _ (escape_okU _)). destruct (url.passwordSet ui); [|done].
  simpl. apply okU_okA, escape_okU.
Qed.

Lemma parseAuthority_render user h :
  url.parseHost (url.escape h url.encodeHost) = Some h ->
  url.parseAuthority (upart user +:+ url.escape h url.encodeHost)
  = Some (option_map norm_user user, h).
Proof.
  intros Hh. unfold url.parseAuthority.
  pose proof (okA_lacks_at _ (escape_okA h)) as Hat.
  destruct user as [ui|]; simpl upart.
  - rewrite sapp_assoc. change ("@" +:+ url.escape h url.encodeHost)
      with (String "@" (url.escape h url.encodeHost)).
    rewrite (LastIndex_char _ _ _ Hat).
    pose proof (len_nonneg (url.Userinfo_String ui)).
    destruct (Z.ltb_spec (len (url.Userinfo_String ui)) 0); [lia|].
    replace (url.Userinfo_String ui +:+ String "@" (url.escape h url.encodeHost))
      with ((url.Userinfo_String ui +:+ "@") +:+ url.escape h url.encodeHost)
      by (by rewrite sapp_assoc).
    replace (len (url.Userinfo_String ui) + 1) with (len (url.Userinfo_String ui +:+ "@"))
      by (by rewrite len_app).
    rewrite slice_from_app, Hh. rewrite sapp_assoc, slice_to_app.
    unfold url.Userinfo_String.
    rewrite validUserinfo_all, all_app, escape_validUserinfo.
    pose proof (okU_lacks_colon _ (escape_okU (url.username ui))) as Hname.
    destruct (url.passwordSet ui) eqn:Hps.
    + change (":" +:+ url.escape (url.password ui) url.encodeUserPassword)
        with (String ":" (url.escape (url.password ui) url.encodeUserPassword)).
      simpl all. rewrite escape_validUserinfo. simpl negb. cbn iota.
      rewrite Contains_char.
      assert (lacks ":" (url.escape (url.username ui) url.encodeUserPassword
                         +:+ String ":" (url.escape (url.password ui) url.encodeUserPassword))
              = false) as ->.
      { unfold lacks. rewrite all_app. simpl. by rewrite andb_false_r. }
      simpl negb. cbn iota. rewrite (Cut_char _ _ _ Hname).
      rewrite !unescape_escape by done. simpl. unfold norm_user. by rewrite Hps.
    + simpl all. simpl negb. cbn iota. rewrite sapp_nil_r, Contains_char, Hname.
      simpl negb. cbn iota. rewrite unescape_escape by done.
      simpl. unfold norm_user. by rewrite Hps.
  - change ("" +:+ url.escape h url.encodeHost) with (url.escape h url.encodeHost).
    rewrite (LastIndex_none _ _ Hat). simpl. by rewrite Hh.
Qed.

Lemma host_reparses_eq u :
  host_reparses u = true ->
  url.parseHost (url.escape (url.Host u) url.encodeHost) = Some (url.Host u).
Proof.
  unfold host_reparses. destruct (url.parseHost _) as [h|]; [|done].
  by intros ->%String.eqb_eq.
Qed.

Lemma parse_rest_opaque scheme rest f q :
  scheme <> "" -> HasPrefix rest "/" = false ->
  url.parse_rest scheme rest f q = Some (url.mkURL scheme rest None "" "" "" false f q "" "").
Proof.
  intros Hs Hr. unfold url.parse_rest. rewrite Hr.
  apply String.eqb_neq in Hs. by rewrite Hs.
Qed.

Lemma rooted_prefix P : P <> "" -> rooted P = HasPrefix P "/".
Proof. destruct P as [|c P]; [done|]. intros _. simpl. by rewrite andb_true_r. Qed.

Lemma parse_rest_authority scheme A P f q user host :
  scheme <> "" -> lacks "/" A = true -> rooted P = true ->
  url.parseAuthority A = Some (user, host) ->
  url.parse_rest scheme ("//" +:+ A +:+ P) f q
  = url.setPath (url.mkURL scheme "" user host "" "" false f q "" "") P.
Proof.
  intros Hs HA HP Hauth. unfold url.parse_rest.
  apply String.eqb_neq in Hs. rewrite Hs.
  change (HasPrefix ("//" +:+ A +:+ P) "/") with true.
  change (HasPrefix ("//" +:+ A +:+ P) "//") with true.
  cbn [negb andb orb]. cbn iota.
  change (slice_from ("//" +:+ A +:+ P) 2) with (A +:+ P).
  destruct P as [|c P].
  - rewrite sapp_nil_r, (Index_none _ _ HA). change (0 <=? -1) with false. cbn iota.
    by rewrite Hauth.
  - simpl in HP. apply Ascii.eqb_eq in HP as ->.
    rewrite (Index_char _ _ _ HA). pose proof (len_nonneg A).
    destruct (Z.leb_spec 0 (len A)); [|lia]. cbn iota.
    rewrite slice_to_app, slice_from_app. by rewrite Hauth.
Qed.

Lemma parse_rest_omit scheme P f q :
  scheme <> "" -> HasPrefix P "/" = true -> HasPrefix P "//" = false ->
  url.parse_rest scheme P f q
  = url.setPath (url.mkURL scheme "" None "" "" "" true f q "" "") P.
Proof.
  intros Hs H1 H2. unfold url.parse_rest. rewrite H1, H2.
  apply String.eqb_neq in Hs. rewrite Hs. by rewrite andb_false_r.
Qed.

Lemma okU_okQ s : all okU s = true -> all okQ s = true.
Proof. intros H. by apply okP_okQ, okA_okP, okU_okA. Qed.

(** The part of [parse] before the split of opaque data from a path. *)
Lemma parse_front scheme B f rq :
  valid_scheme scheme = true -> ToLower scheme = scheme ->
  all okP B = true -> all okQ rq = true -> (f = true -> rq = "") ->
  all okQ (scheme +:+ ":" +:+ B +:+ qpart f rq) = true
  /\ url.parse (scheme +:+ ":" +:+ B +:+ qpart f rq) = url.parse_rest scheme B f rq.
Proof.
  intros Hv Hl HB Hq Hf.
  assert (Hok : all okQ (scheme +:+ ":" +:+ B +:+ qpart f rq) = true).
  { rewrite !all_app. rewrite (okU_okQ _ (scheme_okU _ (valid_scheme_all _ Hv))).
    rewrite (okP_okQ _ HB). unfold qpart. simpl.
    destruct (f || url.nonempty rq); simpl; by rewrite ?Hq. }
  split; [exact Hok|]. unfold url.parse.
  rewrite (okQ_noCTL _ Hok).
  assert (String.eqb (scheme +:+ ":" +:+ B +:+ qpart f rq) "*" = false) as ->.
  { destruct scheme as [|c s]; [done|]. simpl in Hv. apply andb_true_iff in Hv as [Hc _].
    simpl. destruct (Ascii.eqb_spec c "*") as [->|]; [done | done]. }
  change (":" +:+ B +:+ qpart f rq) with (String ":" (B +:+ qpart f rq)).
  rewrite (getScheme_ok _ _ Hv), Hl.
  by rewrite (splitQuery_qpart _ _ _ (okP_lacks _ HB) Hf).
Qed.

(** [Parse] on a string whose fragment is that of [u]. *)
Lemma Parse_fpart X u :
  all okQ X = true ->
  url.Parse (X +:+ fpart u)
  = match url.parse X with
    | None => None
    | Some v =>
        if url.nonempty (url.Fragment u) then url.setFragment v (url.EscapedFragment u)
        else Some v
    end.
Proof.
  intros HX. unfold url.Parse, fpart. pose proof (okQ_lacks _ HX) as Hl.
  destruct (url.nonempty (url.Fragment u)) eqn:Hf.
  - change ("#" +:+ url.EscapedFragment u) with (String "#" (url.EscapedFragment u)).
    rewrite (Cut_char _ _ _ Hl). destruct (url.parse X) as [v|]; [|done].
    assert (url.Fragment u <> "") as Hne.
    { unfold url.nonempty in Hf. by apply negb_true_iff, String.eqb_neq in Hf. }
    destruct (setFragment_stable v u Hne) as [Hef _].
    apply String.eqb_neq in Hef. by rewrite Hef.
  - rewrite sapp_nil_r, (Cut_none _ _ Hl). by destruct (url.parse X).
Qed.

Lemma String_opaque u :
  url.nonempty (url.Scheme u) = true -> url.nonempty (url.Opaque u) = true ->
  url.String u = front u (url.Opaque u) +:+ fpart u.
Proof.
  intros Hs Ho. unfold url.String, front. rewrite Hs, Ho. by rewrite !sapp_assoc.
Qed.

Lemma String_hier_abs u :
  url.nonempty (url.Scheme u) = true -> url.nonempty (url.Opaque u) = false ->
  rooted (url.EscapedPath u) = true ->
  url.String u = front u (url.String_authority u +:+ url.EscapedPath u) +:+ fpart u.
Proof.
  intros Hs Ho Hr. unfold url.String, front. rewrite Ho. unfold url.String_hier. rewrite Hs.
  assert (url.nonempty (url.EscapedPath u) && negb (HasPrefix (url.EscapedPath u) "/") = false) as ->.
  { destruct (url.EscapedPath u) as [|c e]; [done|]. simpl in Hr. simpl.
    by rewrite Hr. }
  cbn [andb]. cbn iota. rewrite sapp_nil_r.
  assert (String.eqb ((url.Scheme u +:+ ":") +:+ url.String_authority u) "" = false) as ->.
  { destruct (url.Scheme u); done. }
  cbn [andb]. cbn iota. fold (qpart (url.ForceQuery u) (url.RawQuery u)). fold (fpart u).
  by rewrite !sapp_assoc.
Qed.

Lemma String_authority_abs u :
  url.nonempty (url.Scheme u) = true ->
  url.String_authority u
  = if url.OmitHost u && String.eqb (url.Host u) "" && url.is_nil (url.User u) then ""
    else (if url.nonempty (url.Host u) || url.nonempty (url.Path u)
             || negb (url.is_nil (url.User u)) then "//" else "")
         +:+ upart (url.User u) +:+ url.escape (url.Host u) url.encodeHost.
Proof.
  intros Hs. unfold url.String_authority. rewrite Hs. cbn [orb]. cbn iota.
  rewrite escape_host_opt. by destruct (url.User u).
Qed.

Lemma nonempty_true s : url.nonempty s = true <-> s <> "".
Proof. unfold url.nonempty. by rewrite negb_true_iff, String.eqb_neq. Qed.

Lemma nonempty_false s : url.nonempty s = false <-> s = "".
Proof. unfold url.nonempty. by rewrite negb_false_iff, String.eqb_eq. Qed.

(** Reading back [front u B] and the fragment of [u], when the rest is read
    back as [v], which [String] writes as it does [u]. *)
Lemma reparse_front u v B :
  valid_scheme (url.Scheme u) = true -> ToLower (url.Scheme u) = url.Scheme u ->
  all okQ (url.RawQuery u) = true -> (url.ForceQuery u = true -> url.RawQuery u = "") ->
  all okP B = true ->
  url.parse_rest (url.Scheme u) B (url.ForceQuery u) (url.RawQuery u) = Some v ->
  url.Fragment v = "" ->
  (forall f r, url.String (with_fragment v f r) = front u B +:+ fpart (with_fragment v f r)) ->
  exists u',
    url.Parse (front u B +:+ fpart u) = Some u'
    /\ url.Scheme u' = url.Scheme v
    /\ url.String u' = front u B +:+ fpart u.
Proof.
  intros Hv Hl Hq Hf HB Hpr Hfv Hstr.
  destruct (parse_front _ _ _ _ Hv Hl HB Hq Hf) as [Hok Hp]. fold (front u B) in Hok, Hp.
  rewrite (Parse_fpart _ _ Hok), Hp, Hpr.
  destruct (url.nonempty (url.Fragment u)) eqn:Hfr.
  - destruct (setFragment_stable v u (proj1 (nonempty_true _) Hfr)) as (_ & r & -> & Hef).
    eexists. split; [reflexivity|]. split; [done|]. rewrite Hstr.
    unfold fpart. rewrite Hef. simpl. by rewrite Hfr.
  - exists v. split; [done|]. split; [done|].
    replace v with (with_fragment v "" (url.RawFragment v)) at 1
      by (destruct v; simpl in *; by subst).
    rewrite Hstr. unfold fpart. simpl. by rewrite Hfr.
Qed.

Lemma EscapedPath_with_fragment v f r :
  url.EscapedPath (with_fragment v f r) = url.EscapedPath v.
Proof. done. Qed.

(** An absolute URL, as [String] writes it, is read back by [Parse] as a
    URL that [String] writes the same way, provided its host is read back
    and its path is not mistaken for an authority. *)
Lemma reparse_abs u :
  wfURL u ->
  url.Scheme u <> "" ->
  host_reparses u = true ->
  (url.OmitHost u = true -> HasPrefix (url.EscapedPath u) "//" = false) ->
  exists u',
    url.Parse (url.String u) = Some u'
    /\ url.Scheme u' = url.Scheme u
    /\ url.String u' = url.String u.
Proof.
  intros [Hsch [Hop Hop'] Hrel Hpath Hroot Homit Hq Hf] Hs Hhost Hdbl.
  destruct Hsch as [E | [Hv Hl]]; [done|].
  pose proof (proj2 (nonempty_true _) Hs) as Hsn.
  pose proof (host_reparses_eq _ Hhost) as Hh.
  destruct (url.nonempty (url.Opaque u)) eqn:Ho.
  - (* opaque data *)
    rewrite (String_opaque u Hsn Ho).
    apply (reparse_front u (url.mkURL (url.Scheme u) (url.Opaque u) None "" "" "" false
                              (url.ForceQuery u) (url.RawQuery u) "" "")); try done.
    + by apply parse_rest_opaque.
    + intros f r. by rewrite String_opaque.
  - (* authority and path *)
    pose proof (proj1 (nonempty_false _) Ho) as Ho0.
    specialize (Hroot Hs Ho0).
    rewrite (String_hier_abs u Hsn Ho Hroot).
    rewrite (String_authority_abs u Hsn).
    destruct (url.OmitHost u) eqn:Hom.
    + (* no authority written *)
      destruct (Homit eq_refl) as (Hne & Hho & Hus). rewrite Hho, Hus. simpl.
      set (v0 := url.mkURL (url.Scheme u) "" None "" "" "" true
                   (url.ForceQuery u) (url.RawQuery u) "" "").
      destruct (setPath_stable v0 u Hroot) as (r & Hset & Hesc).
      apply (reparse_front u (with_path v0 (url.Path u) r)); try done.
      * rewrite parse_rest_omit; try done; [| by apply Hdbl].
        rewrite <- rooted_prefix by done. done.
      * intros f r'. rewrite String_hier_abs; try done.
        -- rewrite String_authority_abs by done. rewrite EscapedPath_with_fragment, Hesc.
           reflexivity.
        -- by rewrite EscapedPath_with_fragment, Hesc.
    + simpl andb. cbn iota.
      destruct (url.nonempty (url.Host u) || url.nonempty (url.Path u)
                || negb (url.is_nil (url.User u))) eqn:Hany.
      * (* an authority *)
        set (A := upart (url.User u) +:+ url.escape (url.Host u) url.encodeHost).
        set (v0 := url.mkURL (url.Scheme u) "" (option_map norm_user (url.User u)) (url.Host u)
                     "" "" false (url.ForceQuery u) (url.RawQuery u) "" "").
        destruct (setPath_stable v0 u Hroot) as (r & Hset & Hesc).
        assert (HA : all okP A = true /\ lacks "/" A = true).
        { pose proof (okA_lacks_slash _ (escape_okA (url.Host u))) as Hsl.
          unfold A, lacks in *. rewrite !all_app.
          rewrite (okA_okP _ (escape_okA _)), Hsl, !andb_true_r.
          destruct (url.User u) as [ui|]; [|done]. simpl. rewrite !all_app.
          rewrite (okA_okP _ (Userinfo_String_okA _)).
          pose proof (okA_lacks_slash _ (Userinfo_String_okA ui)) as Hsl'.
          unfold lacks in Hsl'. by rewrite Hsl'. }
        destruct HA as [HA HA'].
        rewrite (sapp_assoc "//" A).
        apply (reparse_front u (with_path v0 (url.Path u) r)); try done.
        -- simpl. by rewrite !all_app, HA, Hpath.
        -- rewrite (parse_rest_authority _ _ _ _ _ (option_map norm_user (url.User u)) (url.Host u));
             try done. by apply parseAuthority_render.
        -- intros f r'. rewrite String_hier_abs; try done.
           ++ rewrite String_authority_abs by done.
              rewrite EscapedPath_with_fragment, Hesc. simpl.
              assert (url.is_nil (option_map norm_user (url.User u)) = url.is_nil (url.User u)) as ->
                by (by destruct (url.User u)).
              rewrite Hany.
              assert (upart (option_map norm_user (url.User u)) = upart (url.User u)) as ->.
              { destruct (url.User u) as [ui|]; [|done]. simpl. by rewrite Userinfo_String_norm. }
              unfold front. simpl. fold A. by rewrite !sapp_assoc.
           ++ by rewrite EscapedPath_with_fragment, Hesc.
      * (* nothing but the scheme *)
        apply orb_false_iff in Hany as [[H1 H2]%orb_false_iff H3].
        apply nonempty_false in H1, H2. apply negb_false_iff in H3.
        destruct (url.User u) as [ui|] eqn:Hus; [done|]. rewrite H1. simpl.
        assert (He : url.EscapedPath u = "") by (by apply EscapedPath_empty).
        rewrite He.
        apply (reparse_front u (url.mkURL (url.Scheme u) "" None "" "" "" false
                                  (url.ForceQuery u) (url.RawQuery u) "" "")); try done.
        -- by apply parse_rest_opaque.
        -- intros f r. rewrite String_hier_abs by done.
           rewrite String_authority_abs by done. reflexivity.
Qed.

(** ** What [Parse] returns *)

Lemma Index_range s p : -1 <= Index s p <= len s.
Proof.
  induction s as [|c s IH]; simpl.
  - change (len "") with 0. destruct (HasPrefix "" p); lia.
  - rewrite len_cons. destruct (HasPrefix (String c s) p); [pose proof (len_nonneg s); lia|].
    destruct (Z.ltb_spec (Index s p) 0); lia.
Qed.

Lemma Index_prefix s p :
  0 <= Index s p -> HasPrefix (slice_from s (Index s p)) p = true.
Proof.
  induction s as [|c s IH]; simpl.
  - destruct (HasPrefix "" p) eqn:E; [done | lia].
  - destruct (HasPrefix (String c s) p) eqn:E; [done|].
    destruct (Z.ltb_spec (Index s p) 0); [lia|]. intros _.
    unfold slice_from in *. replace (Z.to_nat (1 + Index s p)) with (S (Z.to_nat (Index s p))) by lia.
    simpl. by apply IH.
Qed.

Lemma Index_before c s :
  lacks c (slice_to s (Index s (String c ""))) = true.
Proof.
  unfold lacks. induction s as [|d s IH]; [done|].
  cbn [Index]. rewrite HasPrefix_char.
  destruct (Ascii.eqb d c) eqn:E; [done|].
  destruct (Z.ltb_spec (Index s (String c "")) 0); [done|].
  unfold slice_to in *.
  replace (Z.to_nat (1 + Index s (String c ""))) with (S (Z.to_nat (Index s (String c "")))) by lia.
  simpl. by rewrite E, IH.
Qed.

Lemma Cut_before_lacks c s : lacks c (Cut s (String c "")).1.1 = true.
Proof.
  unfold Cut. destruct (Z.leb_spec 0 (Index s (String c ""))) as [H|H]; simpl.
  - apply Index_before.
  - destruct (Contains s (String c "")) eqn:E.
    + unfold Contains in E. apply Z.leb_le in E. lia.
    + rewrite Contains_char in E. by apply negb_false_iff in E.
Qed.

Lemma Cut_all P c s :
  all P s = true -> all P (Cut s (String c "")).1.1 = true /\ all P (Cut s (String c "")).1.2 = true.
Proof.
  intros H. unfold Cut. destruct (0 <=? Index s (String c "")); simpl.
  - split; [by apply all_take | by apply all_drop].
  - done.
Qed.

Lemma all_okQ s : url.stringContainsCTLByte s = false -> lacks "#" s = true -> all okQ s = true.
Proof.
  rewrite CTL_all. intros H1%negb_false_iff H2. unfold okQ. rewrite all_and. unfold lacks in H2.
  by rewrite H1, H2.
Qed.

Lemma all_okP s : all okQ s = true -> lacks "?" s = true -> all okP s = true.
Proof. intros H1 H2. unfold okP. rewrite all_and. unfold lacks in H2. by rewrite H1, H2. Qed.

Lemma HasSuffix_split s c :
  HasSuffix s (String c "") = true -> s = slice_to s (len s - 1) +:+ String c "".
Proof.
  unfold HasSuffix. change (len (String c "")) with 1.
  intros [Hl He]%andb_true_iff. apply String.eqb_eq in He. apply Z.leb_le in Hl.
  rewrite <- He. unfold slice_to, slice_from. by rewrite take_drop.
Qed.

Lemma CountByte_zero s c : CountByte s c = 0 -> lacks c s = true.
Proof.
  intros H. destruct (lacks c s) eqn:E; [done|]. pose proof (CountByte_pos _ _ E). lia.
Qed.

Lemma splitQuery_wf rest :
  all okQ rest = true ->
  all okP (url.splitQuery rest).1.1 = true
  /\ all okQ (url.splitQuery rest).2 = true
  /\ ((url.splitQuery rest).1.2 = true -> (url.splitQuery rest).2 = "").
Proof.
  intros H. unfold url.splitQuery.
  destruct (HasSuffix rest "?" && (CountByte rest "?" =? 1)) eqn:E.
  - simpl. apply andb_true_iff in E as [Hs Hc]. apply Z.eqb_eq in Hc.
    pose proof (HasSuffix_split _ _ Hs) as Hr. split; [|done].
    apply all_okP; [by apply all_take|]. apply CountByte_zero.
    rewrite Hr, CountByte_app in Hc. simpl in Hc. lia.
  - destruct (Cut rest "?") as [[r q] fnd] eqn:EC. simpl.
    pose proof (Cut_before_lacks "?" rest) as Hl. pose proof (Cut_all okQ "?" rest H) as [H1 H2].
    rewrite EC in *. simpl in *. split; [by apply all_okP|]. done.
Qed.

Lemma wfURL_with_fragment u f r : wfURL u -> wfURL (with_fragment u f r).
Proof. intros [H1 H2 H3 H4 H5 H6 H7 H8]. by constructor. Qed.

(** [setPath] on a clean path. *)
Lemma setPath_wf v q u :
  url.setPath v q = Some u -> all okP q = true ->
  u = with_path v (url.Path u) (url.RawPath u)
  /\ all okP (url.EscapedPath u) = true
  /\ (rooted q = true -> rooted (url.EscapedPath u) = true)
  /\ (q <> "" -> url.EscapedPath u <> "").
Proof.
  unfold url.setPath. destruct (url.unescape q url.encodePath) as [p|] eqn:Hu; [|done].
  intros [= <-] Hq. split; [done|].
  match goal with |- context [url.EscapedPath ?w] => remember w as u eqn:Eu end.
  assert (Hraw : url.RawPath u = "" \/ url.RawPath u = q).
  { subst u. simpl. destruct (String.eqb q _); [by left | by right]. }
  assert (Hp : url.Path u = p) by (by subst u).
  clear Eu.
  destruct (EscapedPath_cases u) as [(He & Hne & _) | [(He & Hs) | (He & Hs)]].
  - destruct Hraw as [E|E]; [done|]. rewrite He, E. done.
  - rewrite He. rewrite Hp in Hs. subst p. repeat split; try done.
    intros Hr. pose proof (rooted_not_star _ _ Hr Hu) as X. rewrite Hs in X. discriminate X.
  - rewrite He, Hp. split; [apply escape_okP|]. split.
    + destruct q as [|c q]; simpl.
      * injection Hu as <-. done.
      * intros ->%Ascii.eqb_eq. rewrite unescape_slash in Hu by done.
        destruct (url.unescape q url.encodePath); [|done]. injection Hu as <-. done.
    + intros Hne. apply escape_nonempty. intros ->.
      destruct q as [|c q]; [done|]. simpl in Hu.
      destruct (Ascii.eqb c "%").
      * destruct q as [|h1 [|h2 q]]; try done.
        destruct (negb _); [done|]. cbn in Hu.
        by destruct (url.unescape q url.encodePath).
      * destruct (Ascii.eqb c "+"); cbn in Hu; by destruct (url.unescape q url.encodePath).
Qed.

Lemma EscapedPath_zero s o us h om f q fr rf :
  url.EscapedPath (url.mkURL s o us h "" "" om f q fr rf) = "".
Proof. reflexivity. Qed.

Lemma HasPrefix_rooted P : HasPrefix P "/" = true -> rooted P = true.
Proof. destruct P as [|c P]; [done|]. simpl. by rewrite andb_true_r. Qed.

Lemma parse_rest_wf scheme rest f q u :
  scheme = "" \/ valid_scheme scheme = true /\ ToLower scheme = scheme ->
  all okP rest = true -> all okQ q = true -> (f = true -> q = "") ->
  url.parse_rest scheme rest f q = Some u -> wfURL u.
Proof.
  intros Hsch Hrest Hq Hf. unfold url.parse_rest.
  destruct (HasPrefix rest "/") eqn:Hslash; cbn [negb andb].
  - (* a path from the root, with or without an authority *)
    destruct ((negb (String.eqb scheme "") || negb (HasPrefix rest "///"))
              && HasPrefix rest "//") eqn:Hauth.
    + set (authority := slice_from rest 2).
      destruct (0 <=? Index authority "/") eqn:Hi.
      * destruct (url.parseAuthority (slice_to authority (Index authority "/")))
          as [[user host]|]; [|done].
        intros Hset.
        assert (Hp2 : all okP (slice_from authority (Index authority "/")) = true).
        { unfold authority, slice_from. by apply all_drop, all_drop. }
        destruct (setPath_wf _ _ _ Hset Hp2) as (-> & Hok & Hr & Hne).
        assert (Hrt : rooted (slice_from authority (Index authority "/")) = true).
        { apply Z.leb_le in Hi. by apply HasPrefix_rooted, Index_prefix. }
        constructor; simpl; try done. by intros _ _; apply Hr.
      * destruct (url.parseAuthority authority) as [[user host]|]; [|done].
        intros Hset.
        destruct (setPath_wf _ _ _ Hset eq_refl) as (-> & Hok & Hr & Hne).
        constructor; simpl; try done. by intros _ _; apply Hr.
    + intros Hset.
      destruct (setPath_wf _ _ _ Hset Hrest) as (-> & Hok & Hr & Hne).
      assert (Hrt : rooted rest = true) by (by apply HasPrefix_rooted).
      constructor; simpl; try done.
      * intros ->. done.
      * by intros _ _; apply Hr.
      * intros [_ _]%andb_true_iff. split; [|done]. apply Hne. by destruct rest.
  - destruct (String.eqb_spec scheme "") as [->|Hne]; cbn [negb].
    + (* a relative path *)
      destruct (Contains _ _); [done|]. cbn [andb orb].
      assert (HasPrefix rest "//" = false) as ->.
      { destruct rest as [|c r]; [done|]. simpl in *.
        rewrite andb_true_r in Hslash. by rewrite Hslash. }
      rewrite andb_false_r. intros Hset.
      destruct (setPath_wf _ _ _ Hset Hrest) as (-> & Hok & Hr & Hnee).
      constructor; simpl; try done.
    + (* opaque data *)
      intros [= <-]. constructor; simpl; try done.
Qed.

Lemma parse_wf X u : all okQ X = true -> url.parse X = Some u -> wfURL u.
Proof.
  intros HX. unfold url.parse. rewrite (okQ_noCTL _ HX).
  destruct (String.eqb X "*").
  - intros [= <-]. constructor; simpl; try done. by left.
  - destruct (url.getScheme X) as [[s rest]|] eqn:Hg; [|done].
    destruct (url.splitQuery rest) as [[r f] q] eqn:Hsq.
    assert (Hs : ToLower s = "" \/ valid_scheme (ToLower s) = true
                                   /\ ToLower (ToLower s) = ToLower s).
    { destruct (getScheme_inv _ _ _ Hg) as [[-> _] | [Hv _]]; [by left|].
      right. by rewrite ToLower_valid, ToLower_idem. }
    assert (Hrest : all okQ rest = true).
    { destruct (getScheme_inv _ _ _ Hg) as [[_ ->] | [_ ->]]; [done|].
      rewrite all_app in HX. apply andb_true_iff in HX as [_ HX].
      simpl in HX. exact HX. }
    pose proof (splitQuery_wf _ Hrest) as (H1 & H2 & H3). rewrite Hsq in *. simpl in *.
    by apply parse_rest_wf.
Qed.

Lemma Parse_wf s u : url.Parse s = Some u -> wfURL u.
Proof.
  unfold url.Parse. destruct (Cut s "#") as [[X frag] fnd] eqn:EC.
  destruct (url.parse X) as [v|] eqn:Hp; [|done].
  assert (Hv : wfURL v).
  { apply (parse_wf X); [|done]. apply all_okQ.
    - unfold url.parse in Hp. by destruct (url.stringContainsCTLByte X).
    - pose proof (Cut_before_lacks "#" s) as Hl. by rewrite EC in Hl. }
  destruct (String.eqb frag ""); [by intros [= <-]|].
  unfold url.setFragment. destruct (url.unescape frag url.encodeFragment); [|done].
  intros [= <-]. by apply (wfURL_with_fragment v).
Qed.

(** ** Paths that [resolvePath] makes *)

(** Induction along the escapes of a string. *)
Lemma pct_ind (P : string -> Prop) :
  P "" ->
  (forall c r, Ascii.eqb c "%" = false -> P r -> P (String c r)) ->
  (forall h1 h2 r, P r -> P (String "%" (String h1 (String h2 r)))) ->
  P "%" ->
  (forall h, P (String "%" (String h ""))) ->
  forall s, P s.
Proof.
  intros H0 Hc Hp H1 H2. fix IH 1. intros [|c r]; [exact H0|].
  destruct (Ascii.eqb c "%") eqn:E.
  - apply Ascii.eqb_eq in E as ->. destruct r as [|h1 [|h2 r']].
    + exact H1.
    + apply H2.
    + apply Hp, IH.
  - apply Hc; [exact E | apply IH].
Qed.

Lemma wfp_slash a b : wfp (a +:+ String "/" b) = wfp a && wfp b.
Proof.
  induction a as [|c r Hc IH|h1 h2 r IH| |h] using pct_ind.
  - reflexivity.
  - simpl. by rewrite Hc, IH.
  - simpl. by rewrite IH, !andb_assoc.
  - simpl. by destruct b.
  - simpl. by rewrite andb_false_r.
Qed.

Lemma wfp_app a b : wfp a = true -> wfp b = true -> wfp (a +:+ b) = true.
Proof.
  induction a as [|c r Hc IH|h1 h2 r IH| |h] using pct_ind; simpl; try done.
  - rewrite Hc. exact IH.
  - intros [Hh Hr]%andb_true_iff Hb. by rewrite Hh, IH.
Qed.

Lemma wfp_unescape s m :
  plain_mode m = true -> wfp s = true <-> exists p, url.unescape s m = Some p.
Proof.
  intros Hm. induction s as [|c r Hc IH|h1 h2 r IH| |h] using pct_ind.
  - split; [by exists "" | done].
  - rewrite unescape_cons_plain by done. simpl. rewrite Hc, IH. split.
    + intros [p ->]. by eexists.
    + destruct (url.unescape r m); [by eexists | by intros [? ?]].
  - cbn [wfp url.unescape]. change (Ascii.eqb "%" "%") with true. cbn iota.
    replace (url.encoding_eqb m url.encodeHost) with false by (by destruct m).
    replace (url.encoding_eqb m url.encodeZone) with false by (by destruct m).
    cbn [andb]. destruct (url.ishex h1 && url.ishex h2); cbn [negb andb]; cbn iota.
    + rewrite IH. split.
      * intros [p ->]. by eexists.
      * destruct (url.unescape r m); [by eexists | by intros [? ?]].
    + split; [done | by intros [? ?]].
  - split; [done | by intros [? ?]].
  - split; [done | by intros [? ?]].
Qed.

Lemma good_slash a b : good (a +:+ String "/" b) = good a && good b.
Proof.
  unfold good. rewrite all_app, wfp_slash. simpl.
  destruct (all okP a), (all okP b), (wfp a), (wfp b); done.
Qed.

Lemma good_root s : good (String "/" s) = good s.
Proof. change (String "/" s) with ("" +:+ String "/" s). by rewrite good_slash. Qed.

Lemma good_snoc s : good (s +:+ "/") = good s.
Proof.
  change (s +:+ "/") with (s +:+ String "/" ""). rewrite good_slash. by rewrite andb_true_r.
Qed.

Lemma good_app a b : good a = true -> good b = true -> good (a +:+ b) = true.
Proof.
  unfold good. intros [H1 H2]%andb_true_iff [H3 H4]%andb_true_iff.
  by rewrite all_app, H1, H3, wfp_app.
Qed.

Lemma split_slash_nonempty s : url.split_slash s <> [].
Proof.
  destruct s as [|c s]; [done|]. simpl. destruct (Ascii.eqb c "/"); [done|].
  by destruct (url.split_slash s).
Qed.

Lemma good_split s : forall pre,
  good (pre +:+ s) = true ->
  Forall (fun e => good e = true)
         (match url.split_slash s with
          | e :: es => (pre +:+ e) :: es
          | [] => []
          end).
Proof.
  induction s as [|c s IH]; intros pre Hg.
  - simpl. by constructor.
  - simpl. destruct (Ascii.eqb c "/") eqn:Hc.
    + apply Ascii.eqb_eq in Hc as ->. rewrite good_slash in Hg.
      apply andb_true_iff in Hg as [Hpre Hs]. rewrite sapp_nil_r. constructor; [done|].
      specialize (IH "" Hs). by destruct (url.split_slash s).
    + specialize (IH (pre +:+ String c "")). rewrite sapp_assoc in IH. specialize (IH Hg).
      pose proof (split_slash_nonempty s) as Hne.
      destruct (url.split_slash s) as [|e es]; [done|].
      by rewrite sapp_assoc in IH.
Qed.

Lemma good_elems s : good s = true -> Forall (fun e => good e = true) (url.split_slash s).
Proof. intros H. pose proof (good_split s "" H) as H'. by destruct (url.split_slash s). Qed.

Lemma LastIndex_split s c :
  0 <= LastIndex s (String c "") ->
  s = slice_to s (LastIndex s (String c ""))
      +:+ String c (slice_from s (LastIndex s (String c "") + 1)).
Proof.
  induction s as [|d s IH]; cbn [LastIndex].
  - rewrite HasPrefix_char. lia.
  - destruct (Z.leb_spec 0 (LastIndex s (String c ""))) as [H|H].
    + intros _. specialize (IH H). unfold slice_to, slice_from in *.
      replace (Z.to_nat (1 + LastIndex s (String c ""))) with
        (S (Z.to_nat (LastIndex s (String c "")))) by lia.
      replace (Z.to_nat (1 + LastIndex s (String c "") + 1)) with
        (S (Z.to_nat (LastIndex s (String c "") + 1))) by lia.
      simpl. by rewrite <- IH.
    + rewrite HasPrefix_char. destruct (Ascii.eqb_spec d c) as [->|]; [|lia]. done.
Qed.

Lemma good_before_last s :
  good s = true -> 0 <= LastIndex s "/" -> good (slice_to s (LastIndex s "/")) = true.
Proof.
  intros Hg Hi. rewrite (LastIndex_split _ _ Hi), good_slash in Hg.
  by apply andb_true_iff in Hg as [? _].
Qed.

Lemma LastIndex_neg s c : LastIndex s (String c "") < 0 -> LastIndex s (String c "") = -1.
Proof.
  induction s as [|d s IH]; cbn [LastIndex]; rewrite HasPrefix_char.
  - done.
  - destruct (Z.leb_spec 0 (LastIndex s (String c ""))); [lia|].
    by destruct (Ascii.eqb d c).
Qed.

Lemma resolve_step_ok st elem :
  loop_ok st -> good elem = true -> loop_ok (url.resolve_step st elem).
Proof.
  destruct st as [dst first]. intros (Hg & Hp & Hf) He. unfold url.resolve_step.
  cbn [fst snd] in Hg, Hp, Hf.
  destruct (String.eqb elem "."); [done|].
  destruct (String.eqb elem "..").
  - destruct (HasPrefix_split _ _ Hp) as [str ->]. change (slice_from ("/" +:+ str) 1) with str.
    change ("/" +:+ str) with (String "/" str) in Hg. rewrite good_root in Hg.
    destruct (Z.eqb_spec (LastIndex str "/") (-1)) as [E|E]; [done|].
    assert (Hi : 0 <= LastIndex str "/").
    { destruct (Z.leb_spec 0 (LastIndex str "/")) as [H|H]; [done|].
      by apply LastIndex_neg in H. }
    split; [|split]; cbn [fst snd]; [|done|].
    + change ("/" +:+ slice_to str (LastIndex str "/"))
        with (String "/" (slice_to str (LastIndex str "/"))).
      rewrite good_root. by apply good_before_last.
    + intros ->. specialize (Hf eq_refl). injection Hf as ->. exfalso. by apply E.
  - destruct first.
    + rewrite (Hf eq_refl). split; [|done]. cbn [fst].
      change ("/" +:+ elem) with (String "/" elem). by rewrite good_root.
    + split; [|split]; cbn [fst snd]; [| |done].
      * rewrite sapp_assoc. change ("/" +:+ elem) with (String "/" elem).
        by rewrite good_slash, Hg, He.
      * destruct (HasPrefix_split _ _ Hp) as [str ->]. done.
Qed.

Lemma LastIndex_range s p : -1 <= LastIndex s p <= len s.
Proof.
  induction s as [|c s IH]; cbn [LastIndex].
  - change (len "") with 0. destruct (HasPrefix "" p); lia.
  - rewrite len_cons. destruct (Z.leb_spec 0 (LastIndex s p)); [lia|].
    destruct (HasPrefix (String c s) p); pose proof (len_nonneg s); lia.
Qed.

Lemma slength_take n s : (n <= String.length s)%nat -> String.length (take n s) = n.
Proof.
  revert s. induction n as [|n IH]; intros [|c s]; simpl; try lia.
  intros H. rewrite IH; lia.
Qed.

Lemma len_slice_to s i : 0 <= i <= len s -> len (slice_to s i) = i.
Proof.
  intros H. unfold len, slice_to in *. rewrite slength_take; lia.
Qed.

Lemma resolve_loop_ok elems st :
  loop_ok st -> Forall (fun e => good e = true) elems ->
  loop_ok (fold_left url.resolve_step elems st).
Proof.
  intros Hst H. revert st Hst. induction H as [|e es He _ IH]; intros st Hst; [done|].
  simpl. apply IH. by apply resolve_step_ok.
Qed.

(** [resolvePath] on good paths gives a good path, empty or from the root. *)
Lemma resolvePath_good base ref :
  good base = true -> good ref = true ->
  good (url.resolvePath base ref) = true /\ rooted (url.resolvePath base ref) = true.
Proof.
  intros Hb Hr. unfold url.resolvePath.
  set (full := match ref with
               | EmptyString => base
               | String c _ => if Ascii.eqb c "/" then ref
                               else slice_to base (LastIndex base "/" + 1) +:+ ref
               end).
  assert (Hfull : good full = true).
  { unfold full. destruct ref as [|c r]; [done|]. destruct (Ascii.eqb c "/"); [done|].
    apply good_app; [|done].
    destruct (Z.leb_spec 0 (LastIndex base "/")) as [Hi|Hi].
    - pose proof (good_before_last _ Hb Hi) as Hg.
      pose proof (LastIndex_split _ _ Hi) as Hsplit.
      set (a := slice_to base (LastIndex base "/")) in *.
      set (b := slice_from base (LastIndex base "/" + 1)) in *.
      assert (Hlen : LastIndex base "/" = len a).
      { unfold a. rewrite len_slice_to; [done|]. pose proof (LastIndex_range base "/"). lia. }
      rewrite Hlen. clearbody a b. subst base.
      replace (len a + 1) with (len (a +:+ "/")) by (by rewrite len_app).
      replace (a +:+ String "/" b) with ((a +:+ "/") +:+ b) by (by rewrite sapp_assoc).
      by rewrite slice_to_app, good_snoc.
    - by rewrite (LastIndex_neg _ _ Hi). }
  destruct (String.eqb full ""); [done|].
  pose proof (resolve_loop_ok (url.split_slash full) ("/", true)) as Hloop.
  destruct (fold_left url.resolve_step (url.split_slash full) ("/", true)) as [dst first].
  destruct Hloop as (Hg & Hp & _); [done | by apply good_elems |].
  cbn [fst snd] in Hg, Hp.
  match goal with
  | |- context [if ?c then dst +:+ "/" else dst] => set (r := if c then dst +:+ "/" else dst)
  end.
  assert (Hr' : good r = true /\ HasPrefix r "/" = true).
  { unfold r. destruct (_ || _); [|done]. split.
    - by rewrite good_snoc.
    - destruct (HasPrefix_split _ _ Hp) as [str ->]. done. }
  destruct Hr' as [Hgr Hpr]. clearbody r. destruct (HasPrefix_split _ _ Hpr) as [str ->].
  change ("/" +:+ str) with (String "/" str) in *.
  destruct str as [|c str]; [done|]. cbn iota.
  destruct (Ascii.eqb c "/") eqn:Hc; [|done].
  apply Ascii.eqb_eq in Hc as ->.
  rewrite good_root in Hgr. done.
Qed.

Lemma EscapedPath_wfp u : wfp (url.EscapedPath u) = true.
Proof.
  destruct (EscapedPath_cases u) as [(He & _ & _ & Hu) | [(He & _) | (He & _)]]; rewrite He.
  - apply (wfp_unescape _ url.encodePath); [done | by eexists].
  - done.
  - apply (wfp_unescape _ url.encodePath); [done|]. eexists. by apply unescape_escape.
Qed.

Lemma EscapedPath_good u : wfURL u -> good (url.EscapedPath u) = true.
Proof. intros H. unfold good. by rewrite (wf_path u H), EscapedPath_wfp. Qed.

(** [setPath] on what [resolvePath] makes does not fail. *)
Lemma setPath_ignore_good v q :
  good q = true -> url.setPath v q = Some (url.setPath_ignore v q).
Proof.
  unfold good. intros [_ Hw]%andb_true_iff.
  apply (wfp_unescape _ url.encodePath) in Hw as [p Hp]; [|done].
  unfold url.setPath_ignore, url.setPath. by rewrite Hp.
Qed.

(** What [ResolveReference] makes of a base and a relative reference. *)
Lemma ResolveReference_wf b r :
  wfURL b -> wfURL r -> url.Scheme r = "" -> wfURL (url.ResolveReference b r).
Proof.
  intros Hb Hr Hs. unfold url.ResolveReference. rewrite Hs. cbn [String.eqb url.nonempty negb orb].
  destruct (wf_relative r Hr Hs) as [Hop Hom]. rewrite Hop, Hom.
  change (String.eqb "" "") with true. cbn [negb orb]. cbn iota.
  assert (Hset : forall v q, good q = true -> rooted q = true ->
            (url.Scheme v = "" \/ valid_scheme (url.Scheme v) = true
                                  /\ ToLower (url.Scheme v) = url.Scheme v) ->
            url.Opaque v = "" -> url.OmitHost v = false ->
            all okQ (url.RawQuery v) = true ->
            (url.ForceQuery v = true -> url.RawQuery v = "") ->
            wfURL (url.setPath_ignore v q)).
  { intros v q Hq Hrt H1 H2 H3 H4 H5.
    pose proof (setPath_ignore_good v q Hq) as Hsp.
    assert (Hq' : all okP q = true).
    { unfold good in Hq. by apply andb_true_iff in Hq as [? _]. }
    destruct (setPath_wf _ _ _ Hsp Hq') as (-> & Hok & Hroot & _).
    constructor; simpl; rewrite ?H2, ?H3; try done.
    intros _ _. by apply Hroot. }
  assert (Hq : forall c : bool, all okQ (if c then url.RawQuery b else url.RawQuery r) = true).
  { intros []; [apply (wf_query b Hb) | apply (wf_query r Hr)]. }
  destruct (url.nonempty (url.Host r) || negb (url.is_nil (url.User r))).
  - destruct (resolvePath_good (url.EscapedPath r) "" (EscapedPath_good r Hr) eq_refl) as [Hg Hrt].
    apply Hset; simpl; try done.
    + apply (wf_scheme b Hb).
    + apply (wf_query r Hr).
    + apply (wf_force r Hr).
  - destruct (String.eqb (url.Path r) "" && url.nonempty (url.Opaque b)) eqn:Hbo.
    + apply andb_true_iff in Hbo as [Hp Ho]. apply String.eqb_eq in Hp.
      apply nonempty_true in Ho.
      constructor; simpl; try done.
      * apply (wf_scheme b Hb).
      * apply (wf_opaque b Hb).
      * intros E. by destruct (wf_relative b Hb E).
      * replace (url.EscapedPath _) with (url.EscapedPath r); [apply (wf_path r Hr)|].
        unfold url.EscapedPath. simpl. by rewrite Hp.
      * intros E. rewrite E in *. rewrite (wf_force r Hr E). by rewrite andb_false_r.
    + destruct (resolvePath_good (url.EscapedPath b) (url.EscapedPath r)
                  (EscapedPath_good b Hb) (EscapedPath_good r Hr)) as [Hg Hrt].
      apply Hset; simpl; try done.
      * apply (wf_scheme b Hb).
      * intros E. rewrite E in *. rewrite (wf_force r Hr E). by rewrite andb_false_r.
Qed.

(** ** Resolving twice *)

Lemma resolveURL_resolved base href :
  resolveURL base href = match resolved base href with Some u => url.String u | None => "" end.
Proof.
  unfold resolveURL, resolved. destruct (url.Parse href) as [u|]; [|done].
  destruct (url.IsAbs u); [done|]. by destruct (url.Parse base).
Qed.

Lemma resolved_wf base href u : resolved base href = Some u -> wfURL u.
Proof.
  unfold resolved. destruct (url.Parse href) as [r|] eqn:Hr; [|done].
  destruct (url.IsAbs r) eqn:Ha.
  - intros [= <-]. by apply (Parse_wf href).
  - destruct (url.Parse base) as [b|] eqn:Hb; [|done]. intros [= <-].
    apply ResolveReference_wf; [by apply (Parse_wf base) | by apply (Parse_wf href) |].
    unfold url.IsAbs in Ha. by apply negb_false_iff, String.eqb_eq in Ha.
Qed.

(** ** Hosts that need no escape *)

Lemma slength_escape s m : (String.length s <= String.length (url.escape s m))%nat.
Proof.
  induction s as [|c s IH]; [done|]. simpl.
  destruct (url.shouldEscape c m); [|simpl; lia].
  destruct (Ascii.eqb c " " && _); simpl; lia.
Qed.

Lemma escape_fixed s m :
  url.escape s m = s -> all (fun c => negb (url.shouldEscape c m)) s = true.
Proof.
  induction s as [|c s IH]; [done|]. simpl.
  destruct (url.shouldEscape c m) eqn:Hc.
  - destruct (Ascii.eqb c " " && _) eqn:Hsp.
    + apply andb_true_iff in Hsp as [->%Ascii.eqb_eq _]. by intros [= ? _].
    + intros [= _ Hs]. pose proof (slength_escape s m) as Hl.
      apply (f_equal String.length) in Hs. simpl in Hs. lia.
  - intros [= Hs]. simpl. by apply IH.
Qed.

Lemma unhex_small c : (url.unhex c < 16)%N.
Proof. by_bytes c. Qed.

Lemma high_escaped c : (128 <= url.code c)%N -> url.shouldEscape c url.encodeHost = true.
Proof. by_bytes c; intros H; exfalso; apply H; reflexivity. Qed.

Lemma decoded_high h1 h2 :
  (8 <= url.unhex h1)%N ->
  url.shouldEscape (ascii_of_N (url.unhex h1 * 16 + url.unhex h2)) url.encodeHost = true.
Proof.
  intros H. apply high_escaped. unfold url.code. rewrite N_ascii_embedding.
  - lia.
  - pose proof (unhex_small h1). pose proof (unhex_small h2). lia.
Qed.

Lemma unescape_host_plain raw : forall h,
  url.unescape raw url.encodeHost = Some h ->
  all (fun c => negb (url.shouldEscape c url.encodeHost)) h = true ->
  raw = h.
Proof.
  induction raw as [|c raw IH]; intros h; [by intros [= <-]|].
  cbn [url.unescape]. destruct (Ascii.eqb c "%") eqn:Hc.
  - destruct raw as [|h1 [|h2 raw']]; try done.
    destruct (negb (url.ishex h1 && url.ishex h2)); [done|].
    cbn [url.encoding_eqb andb]. cbn iota.
    destruct (N.ltb_spec (url.unhex h1) 8) as [Hlt|Hge]; cbn [andb].
    + destruct (Ascii.eqb h1 "2" && Ascii.eqb h2 "5") eqn:E25; [|done]. cbn [negb]. cbn iota.
      apply andb_true_iff in E25 as [->%Ascii.eqb_eq ->%Ascii.eqb_eq].
      destruct (url.unescape raw' url.encodeHost); [|done]. intros [= <-]. done.
    + cbn iota. destruct (url.unescape raw' url.encodeHost); [|done]. intros [= <-].
      simpl. by rewrite (decoded_high h1 h2 Hge).
  - destruct (Ascii.eqb c "+").
    + cbn [url.encoding_eqb]. destruct (url.unescape raw url.encodeHost) as [h'|] eqn:Hu; [|done].
      intros [= <-]. simpl. intros [_ Hh]%andb_true_iff. by rewrite (IH _ eq_refl Hh).
    + destruct (_ && _); [done|].
      destruct (url.unescape raw url.encodeHost) as [h'|] eqn:Hu; [|done].
      intros [= <-]. simpl. intros [_ Hh]%andb_true_iff. by rewrite (IH _ eq_refl Hh).
Qed.

Lemma all_percent_free h :
  all (fun c => negb (url.shouldEscape c url.encodeHost)) h = true -> lacks "%" h = true.
Proof. apply all_impl. intros c. by_bytes c. Qed.

Lemma unescape_zone_percent x h2 :
  HasPrefix x "%25" = true -> url.unescape x url.encodeZone = Some h2 ->
  lacks "%" h2 = false.
Proof.
  intros Hp. destruct (HasPrefix_split _ _ Hp) as [r ->].
  change ("%25" +:+ r) with (String "%" (String "2" (String "5" r))).
  cbn [url.unescape]. change (Ascii.eqb "%" "%") with true. cbn iota.
  change (url.ishex "2" && url.ishex "5") with true.
  cbn [negb url.encoding_eqb andb]. cbn iota.
  change (Ascii.eqb "2" "2" && Ascii.eqb "5" "5") with true. cbn [negb andb]. cbn iota.
  destruct (url.unescape r url.encodeZone); [|done]. by intros [= <-].
Qed.

(** A host that needs no escape is read back as it is written. *)
Lemma plain_host_reparses h :
  host_parsed h -> url.escape h url.encodeHost = h -> url.parseHost h = Some h.
Proof.
  intros [raw Hraw] He. pose proof (escape_fixed _ _ He) as Hall.
  enough (raw = h) by (by subst).
  revert Hraw. unfold url.parseHost.
  destruct (HasPrefix raw "[").
  - destruct (LastIndex raw "]" <? 0); [done|].
    destruct (negb (url.validOptionalPort _)); [done|].
    destruct (Z.leb_spec 0 (Index (slice_to raw (LastIndex raw "]")) "%25")) as [Hz|Hz].
    + destruct (url.unescape (slice_to raw _) url.encodeHost) as [h1|]; [|done].
      destruct (url.unescape (slice_from (slice_to raw _) _) url.encodeZone) as [h2|] eqn:H2;
        [|done].
      destruct (url.unescape (slice_from raw _) url.encodeHost) as [h3|]; [|done].
      intros [= <-]. exfalso.
      pose proof (unescape_zone_percent _ _ (Index_prefix _ _ Hz) H2) as Hpc.
      apply all_percent_free in Hall. unfold lacks in *. rewrite !all_app in Hall.
      rewrite Hpc in Hall. by rewrite andb_false_r in Hall.
    + intros Hu. by apply unescape_host_plain.
  - destruct (_ && _); [done|]. intros Hu. by apply unescape_host_plain.
Qed.

Lemma parseAuthority_parsed A user host :
  url.parseAuthority A = Some (user, host) -> host_parsed host.
Proof.
  unfold url.parseAuthority.
  destruct (url.parseHost _) as [h|] eqn:Hh; [|done].
  destruct (LastIndex A "@" <? 0).
  - intros [= _ <-]. by eexists.
  - destruct (negb _); [done|]. destruct (negb _).
    + destruct (url.unescape _ _); [|done]. intros [= _ <-]. by eexists.
    + destruct (Cut _ _) as [[n p] ?]. destruct (url.unescape n _); [|done].
      destruct (url.unescape p _); [|done]. intros [= _ <-]. by eexists.
Qed.

Lemma empty_host_parsed : host_parsed "".
Proof. by exists "". Qed.

Lemma setPath_Host v q u : url.setPath v q = Some u -> url.Host u = url.Host v.
Proof.
  unfold url.setPath. destruct (url.unescape q url.encodePath); [|done]. by intros [= <-].
Qed.

Lemma Parse_host s u : url.Parse s = Some u -> host_parsed (url.Host u).
Proof.
  unfold url.Parse. destruct (Cut s "#") as [[X frag] ?].
  destruct (url.parse X) as [v|] eqn:Hp; [|done].
  assert (Hv : host_parsed (url.Host v)).
  { revert Hp. unfold url.parse. destruct (url.stringContainsCTLByte X); [done|].
    destruct (String.eqb X "*"); [intros [= <-]; apply empty_host_parsed|].
    destruct (url.getScheme X) as [[sc rest]|]; [|done].
    destruct (url.splitQuery rest) as [[r f] q]. unfold url.parse_rest.
    destruct (negb (HasPrefix r "/") && negb (String.eqb (ToLower sc) ""));
      [intros [= <-]; apply empty_host_parsed|].
    destruct (negb (HasPrefix r "/") && Contains _ _); [done|].
    destruct (_ && HasPrefix r "//").
    - destruct (0 <=? _).
      + destruct (url.parseAuthority _) as [[user host]|] eqn:Ha; [|done].
        intros Hs. rewrite (setPath_Host _ _ _ Hs). simpl. by eapply parseAuthority_parsed.
      + destruct (url.parseAuthority _) as [[user host]|] eqn:Ha; [|done].
        intros Hs. rewrite (setPath_Host _ _ _ Hs). simpl. by eapply parseAuthority_parsed.
    - intros Hs. rewrite (setPath_Host _ _ _ Hs). apply empty_host_parsed. }
  destruct (String.eqb frag ""); [by intros [= <-]|].
  unfold url.setFragment. destruct (url.unescape frag _); [|done]. by intros [= <-].
Qed.

Lemma setPath_ignore_Host v q : url.Host (url.setPath_ignore v q) = url.Host v.
Proof.
  unfold url.setPath_ignore. destruct (url.setPath v q) as [u|] eqn:E; [|done].
  by apply setPath_Host in E.
Qed.

Lemma ResolveReference_host b r :
  host_parsed (url.Host b) -> host_parsed (url.Host r) ->
  host_parsed (url.Host (url.ResolveReference b r)).
Proof.
  intros Hb Hr. unfold url.ResolveReference.
  destruct (_ || negb (url.is_nil (url.User r))); [by rewrite setPath_ignore_Host|].
  destruct (url.nonempty (url.Opaque r)); [apply empty_host_parsed|].
  destruct (String.eqb (url.Path r) "" && url.nonempty (url.Opaque b));
    [apply empty_host_parsed|].
  by rewrite setPath_ignore_Host.
Qed.

Lemma resolved_host base href u : resolved base href = Some u -> host_parsed (url.Host u).
Proof.
  unfold resolved. destruct (url.Parse href) as [r|] eqn:Hr; [|done].
  destruct (url.IsAbs r).
  - intros [= <-]. by apply (Parse_host href).
  - destruct (url.Parse base) as [b|] eqn:Hb; [|done]. intros [= <-].
    apply ResolveReference_host; [by apply (Parse_host base) | by apply (Parse_host href)].
Qed.

Lemma resolved_plain_host base href u :
  resolved base href = Some u ->
  url.escape (url.Host u) url.encodeHost = url.Host u ->
  host_reparses u = true.
Proof.
  intros Hres He. unfold host_reparses. rewrite He.
  rewrite (plain_host_reparses _ (resolved_host _ _ _ Hres) He). apply String.eqb_refl.
Qed.

(** ** Resolving twice a URL that is read back *)

(** When a reference resolves against a base to an absolute URL whose
    host, as [url.String] writes it, is read back by [parseHost] as the
    same host, and whose path is not written with two leading slashes right
    after the scheme, resolving the result against the same base returns it
    unchanged. *)
Lemma resolve_twice_reparsing base ref u :
  resolved base ref = Some u ->
  url.IsAbs u = true ->
  host_reparses u = true ->
  path_reparses u = true ->
  resolveURL base (resolveURL base ref) = resolveURL base ref.
Proof.
  intros Hres Habs Hhost Hpath.
  rewrite (resolveURL_resolved base ref), Hres.
  assert (Hs : url.Scheme u <> "").
  { unfold url.IsAbs in Habs. by apply negb_true_iff, String.eqb_neq in Habs. }
  destruct (reparse_abs u (resolved_wf _ _ _ Hres) Hs Hhost) as (u' & Hp & Hsch & Hstr).
  { intros Hom. unfold path_reparses in Hpath. rewrite Hom in Hpath.
    by apply negb_true_iff in Hpath. }
  unfold resolveURL. rewrite Hp. unfold url.IsAbs. rewrite Hsch.
  apply String.eqb_neq in Hs. by rewrite Hs.
Qed.

(** Outside the bytes of a URI reference the two conditions can fail, and
    resolution is then not idempotent. A raw space in a reference with a
    scheme and a single slash, whose path decodes to two leading slashes:
    the path is written with these two slashes after the scheme, and what
    follows them is read back as an authority. A raw byte above ASCII in
    the zone of a base: the host is written with an escape that is not
    read back in a zone. *)
Lemma resolve_twice_differs :
  (resolveURL "https://example.com/" "http:/%2Fx y" = "http://x%20y"
   /\ resolveURL "https://example.com/" "http://x%20y" = "")
  /\ (resolveURL "https://example.com/" "http:/%2Fa:b:c@h/x y" = "http://a:b:c@h/x%20y"
      /\ resolveURL "https://example.com/" "http://a:b:c@h/x%20y" = "http://a:b%3Ac@h/x%20y")
  /\ (resolveURL "http://[fe80::1%25é]/" "a.js" = "http://[fe80::1%25%C3%A9]/a.js"
      /\ resolveURL "http://[fe80::1%25é]/" "http://[fe80::1%25%C3%A9]/a.js" = "").
Proof. repeat split; vm_compute; reflexivity. Qed.

(* ===================================================================== *)
(** * Resolving a valid reference twice *)
(* ===================================================================== *)

(** ** Hosts read from ASCII *)

Lemma uri_byte_ascii c : uri_byte c = true -> ascii7 c = true.
Proof. by_bytes c. Qed.

Lemma escape_app a b m : url.escape (a +:+ b) m = url.escape a m +:+ url.escape b m.
Proof.
  induction a as [|c a IH]; [done|]. simpl. rewrite IH.
  destruct (url.shouldEscape c m); [|done]. by destruct (Ascii.eqb c " " && _).
Qed.

Lemma hostok_cases c :
  hostok c = true ->
  url.shouldEscape c url.encodeHost = false
  \/ (url.shouldEscape c url.encodeHost = true
      /\ Ascii.eqb c " " = false
      /\ ((url.unhex (url.upperhex (url.code c / 16)) <? 8)%N
          && negb (Ascii.eqb (url.upperhex (url.code c / 16)) "2"
                   && Ascii.eqb (url.upperhex (url.code c mod 16)) "5") = false)).
Proof. by_bytes c; intros _; first [by left | by right]. Qed.

Lemma zoneok_cases c :
  zoneok c = true ->
  url.shouldEscape c url.encodeHost = false
  \/ (url.shouldEscape c url.encodeHost = true
      /\ negb (Ascii.eqb (url.upperhex (url.code c / 16)) "2"
               && Ascii.eqb (url.upperhex (url.code c mod 16)) "5")
         && negb (Ascii.eqb c " ") = false).
Proof. by_bytes c; intros _; first [by left | by right]. Qed.

Lemma keep_host_check c :
  url.shouldEscape c url.encodeHost = false ->
  Ascii.eqb c "%" = false
  /\ (url.code c <? 128)%N && url.shouldEscape c url.encodeHost = false.
Proof. intros H. rewrite H, andb_false_r. split; [|done]. by apply (keep_not_percent c url.encodeHost). Qed.

(** What [escape] writes for a host is read back in a host. *)
Lemma roundtrip_host h :
  all hostok h = true -> url.unescape (url.escape h url.encodeHost) url.encodeHost = Some h.
Proof.
  induction h as [|c h IH]; [done|]. simpl all. intros [Hc Hh]%andb_true_iff.
  specialize (IH Hh). simpl url.escape.
  destruct (hostok_cases c Hc) as [Hk | (He & Hsp & Hchk)].
  - rewrite Hk. destruct (keep_host_check c Hk) as [Hp Hck].
    cbn [url.unescape]. rewrite Hp. cbn [url.encoding_eqb orb andb]. rewrite Hck, IH.
    by destruct (Ascii.eqb c "+").
  - rewrite He, Hsp. cbn [andb]. cbn iota. cbn [url.unescape].
    change (Ascii.eqb "%" "%") with true. cbn iota.
    destruct (hex_roundtrip c) as [Hhex Hback]. rewrite Hhex. cbn [negb]. cbn iota.
    cbn [url.encoding_eqb andb]. rewrite Hchk. cbn iota. by rewrite Hback, IH.
Qed.

(** What [escape] writes for a zone is read back in a zone. *)
Lemma roundtrip_zone h :
  all zoneok h = true -> url.unescape (url.escape h url.encodeHost) url.encodeZone = Some h.
Proof.
  induction h as [|c h IH]; [done|]. simpl all. intros [Hc Hh]%andb_true_iff.
  specialize (IH Hh). simpl url.escape.
  destruct (zoneok_cases c Hc) as [Hk | (He & Hchk)].
  - rewrite Hk. destruct (keep_host_check c Hk) as [Hp Hck].
    cbn [url.unescape]. rewrite Hp. cbn [url.encoding_eqb orb andb]. rewrite Hck, IH.
    by destruct (Ascii.eqb c "+").
  - rewrite He. cbn [url.encoding_eqb andb]. rewrite andb_false_r. cbn iota.
    cbn [url.unescape]. change (Ascii.eqb "%" "%") with true. cbn iota.
    destruct (hex_roundtrip c) as [Hhex Hback]. rewrite Hhex. cbn [negb]. cbn iota.
    cbn [url.encoding_eqb andb]. cbn iota. rewrite Hback, Hchk. cbn [andb]. cbn iota.
    by rewrite IH.
Qed.

(** What [unescape] returns for a host. *)
Lemma unescape_hostok raw : forall h,
  url.unescape raw url.encodeHost = Some h -> all hostok h = true.
Proof.
  induction raw as [|c raw Hc IH|h1 h2 raw' IH| |h0] using pct_ind; intros h.
  - by intros [= <-].
  - cbn [url.unescape]. rewrite Hc. destruct (Ascii.eqb c "+") eqn:Hp.
    + destruct (url.unescape raw url.encodeHost) as [h'|] eqn:Hu; [|done]. intros [= <-].
      apply Ascii.eqb_eq in Hp as ->. cbn [all]. by rewrite (IH h' eq_refl).
    + cbn [url.encoding_eqb orb andb].
      destruct ((url.code c <? 128)%N && url.shouldEscape c url.encodeHost) eqn:E; [done|].
      destruct (url.unescape raw url.encodeHost) as [h'|] eqn:Hu; [|done]. intros [= <-].
      cbn [all]. rewrite (IH h' eq_refl), andb_true_r.
      unfold hostok, ascii7. destruct (url.code c <? 128)%N; [|by rewrite orb_true_r].
      cbn [andb] in E. by rewrite E.
  - cbn [url.unescape]. change (Ascii.eqb "%" "%") with true. cbn iota.
    destruct (negb (url.ishex h1 && url.ishex h2)); [done|].
    cbn [url.encoding_eqb andb]. cbn iota.
    destruct ((url.unhex h1 <? 8)%N && negb (Ascii.eqb h1 "2" && Ascii.eqb h2 "5")) eqn:E1;
      [done|].
    destruct (url.unescape raw' url.encodeHost) as [h'|] eqn:Hu; [|done]. intros [= <-].
    cbn [all]. rewrite (IH h' eq_refl), andb_true_r.
    destruct (Ascii.eqb h1 "2" && Ascii.eqb h2 "5") eqn:E25.
    { apply andb_true_iff in E25 as [->%Ascii.eqb_eq ->%Ascii.eqb_eq]. reflexivity. }
    cbn [negb] in E1. rewrite andb_true_r in E1. apply N.ltb_ge in E1.
    unfold hostok, ascii7.
    assert (Hcode : (url.code (ascii_of_N (url.unhex h1 * 16 + url.unhex h2)) <? 128)%N
                    = false).
    { apply N.ltb_ge. unfold url.code. rewrite N_ascii_embedding; [lia|].
      pose proof (unhex_small h1). pose proof (unhex_small h2). lia. }
    rewrite Hcode. by rewrite orb_true_r.
  - done.
  - done.
Qed.

(** What [unescape] returns for a zone written in ASCII. *)
Lemma unescape_zoneok raw : forall h,
  all ascii7 raw = true -> url.unescape raw url.encodeZone = Some h -> all zoneok h = true.
Proof.
  induction raw as [|c raw Hc IH|h1 h2 raw' IH| |h0] using pct_ind; intros h.
  - by intros _ [= <-].
  - cbn [all]. intros [Ha Hraw]%andb_true_iff.
    cbn [url.unescape]. rewrite Hc. destruct (Ascii.eqb c "+") eqn:Hp.
    + destruct (url.unescape raw url.encodeZone) as [h'|] eqn:Hu; [|done]. intros [= <-].
      apply Ascii.eqb_eq in Hp as ->. cbn [all]. by rewrite (IH h' Hraw eq_refl).
    + cbn [url.encoding_eqb orb andb]. unfold ascii7 in Ha. rewrite Ha. cbn [andb].
      destruct (url.shouldEscape c url.encodeHost) eqn:E; [done|].
      destruct (url.unescape raw url.encodeZone) as [h'|] eqn:Hu; [|done]. intros [= <-].
      cbn [all]. rewrite (IH h' Hraw eq_refl), andb_true_r. unfold zoneok. by rewrite E.
  - cbn [all]. intros [_ [_ [_ Hraw]%andb_true_iff]%andb_true_iff]%andb_true_iff.
    cbn [url.unescape]. change (Ascii.eqb "%" "%") with true. cbn iota.
    destruct (negb (url.ishex h1 && url.ishex h2)); [done|].
    cbn [url.encoding_eqb andb]. cbn iota.
    destruct (negb (Ascii.eqb h1 "2" && Ascii.eqb h2 "5")
              && negb (Ascii.eqb (ascii_of_N (url.unhex h1 * 16 + url.unhex h2)) " ")
              && url.shouldEscape (ascii_of_N (url.unhex h1 * 16 + url.unhex h2))
                                  url.encodeHost) eqn:E2; [done|].
    destruct (url.unescape raw' url.encodeZone) as [h'|] eqn:Hu; [|done]. intros [= <-].
    cbn [all]. rewrite (IH h' Hraw eq_refl), andb_true_r.
    destruct (Ascii.eqb h1 "2" && Ascii.eqb h2 "5") eqn:E25.
    { apply andb_true_iff in E25 as [->%Ascii.eqb_eq ->%Ascii.eqb_eq]. reflexivity. }
    cbn [negb andb] in E2. unfold zoneok.
    destruct (Ascii.eqb (ascii_of_N (url.unhex h1 * 16 + url.unhex h2)) " ");
      [by rewrite orb_true_r|].
    cbn [negb andb] in E2. by rewrite E2.
  - done.
  - done.
Qed.

(** [unescape] on a string that is cut at a byte which is neither [%] nor
    a hex digit. *)
Lemma unescape_split m a c b : forall h,
  Ascii.eqb c "%" = false -> url.ishex c = false ->
  url.unescape (a +:+ String c b) m = Some h ->
  exists ha hb,
    url.unescape a m = Some ha /\ url.unescape (String c b) m = Some hb /\ h = ha +:+ hb.
Proof.
  intros h Hc Hx. revert h.
  induction a as [|d r Hd IH|h1 h2 r IH| |h0] using pct_ind; intros h.
  - intros H. by exists "", h.
  - change (String d r +:+ String c b) with (String d (r +:+ String c b)).
    cbn [url.unescape]. rewrite Hd.
    destruct (url.unescape (r +:+ String c b) m) as [t|] eqn:Hu.
    + destruct (IH t eq_refl) as (ha & hb & Ha & Hb & ->). rewrite Ha.
      destruct (Ascii.eqb d "+").
      * intros [= <-]. by eexists _, hb.
      * destruct (_ && _); [done|]. intros [= <-]. by eexists _, hb.
    + destruct (Ascii.eqb d "+"); [done|]. by destruct (_ && _).
  - change (String "%" (String h1 (String h2 r)) +:+ String c b)
      with (String "%" (String h1 (String h2 (r +:+ String c b)))).
    cbn [url.unescape]. change (Ascii.eqb "%" "%") with true. cbn iota.
    destruct (negb (url.ishex h1 && url.ishex h2)); [done|].
    destruct (url.encoding_eqb m url.encodeHost && _ && _); [done|].
    destruct (url.encoding_eqb m url.encodeZone && _ && _ && _); [done|].
    destruct (url.unescape (r +:+ String c b) m) as [t|] eqn:Hu; [|done].
    destruct (IH t eq_refl) as (ha & hb & Ha & Hb & ->). rewrite Ha.
    intros [= <-]. by eexists _, hb.
  - change ("%" +:+ String c b) with (String "%" (String c b)).
    cbn [url.unescape]. change (Ascii.eqb "%" "%") with true. cbn iota.
    destruct b as [|h2 b]; [done|]. by rewrite Hx.
  - change (String "%" (String h0 "") +:+ String c b) with (String "%" (String h0 (String c b))).
    cbn [url.unescape]. change (Ascii.eqb "%" "%") with true. cbn iota.
    by rewrite Hx, andb_false_r.
Qed.

(** ** Ports *)

Lemma digit_facts c :
  url.isdigit c = true ->
  url.shouldEscape c url.encodeHost = false
  /\ Ascii.eqb c "]" = false /\ Ascii.eqb c ":" = false.
Proof. by_bytes c; intros _; done. Qed.

Lemma digits_plain p :
  url.alldigits p = true ->
  url.unescape p url.encodeHost = Some p /\ url.escape p url.encodeHost = p
  /\ lacks "]" p = true /\ lacks ":" p = true.
Proof.
  induction p as [|c p IH]; [done|]. simpl url.alldigits. intros [Hc Hp]%andb_true_iff.
  destruct (IH Hp) as (Hu & He & H1 & H2). destruct (digit_facts c Hc) as (Hk & Hb & Hcol).
  destruct (keep_host_check c Hk) as [Hpc Hck].
  split; [|split; [|split]].
  - cbn [url.unescape]. rewrite Hpc. cbn [url.encoding_eqb orb andb]. rewrite Hck, Hu.
    by destruct (Ascii.eqb c "+").
  - simpl. by rewrite Hk, He.
  - unfold lacks in *. simpl. by rewrite Hb, H1.
  - unfold lacks in *. simpl. by rewrite Hcol, H2.
Qed.

Lemma port_plain p :
  url.validOptionalPort p = true ->
  url.unescape p url.encodeHost = Some p /\ url.escape p url.encodeHost = p
  /\ lacks "]" p = true.
Proof.
  destruct p as [|c p]; [done|]. simpl. intros [->%Ascii.eqb_eq Hd]%andb_true_iff.
  destruct (digits_plain p Hd) as (Hu & He & H1 & _).
  split; [|split].
  - change (url.unescape (String ":" p) url.encodeHost)
      with (option_map (String ":") (url.unescape p url.encodeHost)). by rewrite Hu.
  - change (url.escape (String ":" p) url.encodeHost)
      with (String ":" (url.escape p url.encodeHost)). by rewrite He.
  - unfold lacks in *. simpl. exact H1.
Qed.

(** ** The last occurrence of a byte *)

Lemma LastIndex_cons d s c :
  LastIndex (String d s) (String c "")
  = if 0 <=? LastIndex s (String c "") then 1 + LastIndex s (String c "")
    else if Ascii.eqb d c then 0 else -1.
Proof. cbn [LastIndex]. rewrite HasPrefix_char. done. Qed.

Lemma LastIndex_lacks s c : LastIndex s (String c "") < 0 -> lacks c s = true.
Proof.
  unfold lacks. induction s as [|d s IH]; [done|]. rewrite LastIndex_cons.
  destruct (Z.leb_spec 0 (LastIndex s (String c ""))) as [H|H]; [lia|].
  destruct (Ascii.eqb d c) eqn:E; [lia|]. intros _. simpl. by rewrite E, IH.
Qed.

Lemma LastIndex_tail s c :
  0 <= LastIndex s (String c "") ->
  lacks c (slice_from s (LastIndex s (String c "") + 1)) = true.
Proof.
  induction s as [|d s IH].
  - cbn [LastIndex]. rewrite HasPrefix_char. lia.
  - rewrite LastIndex_cons.
    destruct (Z.leb_spec 0 (LastIndex s (String c ""))) as [H|H].
    + intros _. specialize (IH H). unfold slice_from in *.
      replace (Z.to_nat (1 + LastIndex s (String c "") + 1))
        with (S (Z.to_nat (LastIndex s (String c "") + 1))) by lia.
      exact IH.
    + destruct (Ascii.eqb d c); [|lia]. intros _.
      change (slice_from (String d s) (0 + 1)) with s. by apply LastIndex_lacks.
Qed.

(** The string cut at the last occurrence of [c]. *)
Lemma LastIndex_cut s c :
  0 <= LastIndex s (String c "") ->
  exists pre post,
    s = pre +:+ String c post /\ lacks c post = true
    /\ slice_to s (LastIndex s (String c "")) = pre
    /\ slice_from s (LastIndex s (String c "")) = String c post
    /\ slice_from s (LastIndex s (String c "") + 1) = post.
Proof.
  intros H. pose proof (LastIndex_split s c H) as Hs. pose proof (LastIndex_tail s c H) as Ht.
  pose proof (LastIndex_range s (String c "")) as Hr.
  set (i := LastIndex s (String c "")) in *.
  exists (slice_to s i), (slice_from s (i + 1)). split; [done|]. split; [done|].
  split; [done|]. split; [|done].
  rewrite Hs at 1. rewrite <- (len_slice_to s i) at 3 by lia. by rewrite slice_from_app.
Qed.

(** ** The first [%25] *)

Lemma Index_cons d s p :
  Index (String d s) p
  = if HasPrefix (String d s) p then 0
    else if Index s p <? 0 then -1 else 1 + Index s p.
Proof. done. Qed.

Lemma HasPrefix_take n s p : HasPrefix (take n s) p = true -> HasPrefix s p = true.
Proof.
  revert n s. induction p as [|c p IH]; intros n s; [done|].
  destruct n as [|n], s as [|d s]; simpl; try done.
  intros [Hc Hp]%andb_true_iff. rewrite Hc. simpl. by apply (IH n).
Qed.

(** Before its first occurrence in [s], [p] does not occur. *)
Lemma Index_cut_none s c p :
  0 <= Index s (String c p) ->
  Index (slice_to s (Index s (String c p))) (String c p) = -1.
Proof.
  induction s as [|d s IH].
  - simpl. lia.
  - rewrite Index_cons. destruct (HasPrefix (String d s) (String c p)) eqn:E; [done|].
    destruct (Z.ltb_spec (Index s (String c p)) 0) as [H|H]; [lia|]. intros _.
    unfold slice_to in *.
    replace (Z.to_nat (1 + Index s (String c p))) with (S (Z.to_nat (Index s (String c p))))
      by lia.
    change (take (S (Z.to_nat (Index s (String c p)))) (String d s))
      with (String d (take (Z.to_nat (Index s (String c p))) s)).
    rewrite Index_cons.
    destruct (HasPrefix (String d (take (Z.to_nat (Index s (String c p))) s)) (String c p))
      eqn:E'.
    + apply (HasPrefix_take (S (Z.to_nat (Index s (String c p)))) (String d s)) in E'.
      congruence.
    + rewrite (IH H). done.
Qed.

Lemma Index_neg s p : Index s p < 0 -> Index s p = -1.
Proof. pose proof (Index_range s p). lia. Qed.

(** A host read from a string without [%25] holds no [%]. *)
Lemma unescape_no_percent raw : forall h,
  Index raw "%25" < 0 -> url.unescape raw url.encodeHost = Some h -> lacks "%" h = true.
Proof.
  unfold lacks.
  induction raw as [|c raw Hc IH|h1 h2 raw' IH| |h0] using pct_ind; intros h.
  - by intros _ [= <-].
  - rewrite Index_cons.
    assert (HasPrefix (String c raw) "%25" = false) as -> by (simpl; by rewrite Hc).
    destruct (Z.ltb_spec (Index raw "%25") 0) as [Hi|Hi]; [|lia]. intros _.
    cbn [url.unescape]. rewrite Hc.
    destruct (url.unescape raw url.encodeHost) as [h'|] eqn:Hu.
    + specialize (IH h' Hi eq_refl). destruct (Ascii.eqb c "+") eqn:Hp.
      * intros [= <-]. simpl. by rewrite Hc, IH.
      * destruct (_ && _); [done|]. intros [= <-]. simpl. by rewrite Hc, IH.
    + destruct (Ascii.eqb c "+"); [done|]. by destruct (_ && _).
  - rewrite Index_cons.
    destruct (HasPrefix (String "%" (String h1 (String h2 raw'))) "%25") eqn:E25; [lia|].
    destruct (Z.ltb_spec (Index (String h1 (String h2 raw')) "%25") 0) as [Hi|Hi]; [|lia].
    intros _. rewrite Index_cons in Hi.
    destruct (HasPrefix (String h1 (String h2 raw')) "%25"); [lia|].
    destruct (Z.ltb_spec (Index (String h2 raw') "%25") 0) as [Hi2|Hi2]; [|lia].
    rewrite Index_cons in Hi2. destruct (HasPrefix (String h2 raw') "%25"); [lia|].
    destruct (Z.ltb_spec (Index raw' "%25") 0) as [Hi3|Hi3]; [|lia].
    cbn [url.unescape]. change (Ascii.eqb "%" "%") with true. cbn iota.
    destruct (negb (url.ishex h1 && url.ishex h2)); [done|].
    cbn [url.encoding_eqb andb]. cbn iota.
    assert (E : Ascii.eqb h1 "2" && Ascii.eqb h2 "5" = false).
    { simpl in E25. destruct (Ascii.eqb h1 "2"), (Ascii.eqb h2 "5"); done. }
    rewrite E. cbn [negb]. rewrite andb_true_r.
    destruct (N.ltb_spec (url.unhex h1) 8) as [Hlt|Hge]; [done|].
    destruct (url.unescape raw' url.encodeHost) as [h'|] eqn:Hu; [|done]. intros [= <-].
    simpl. rewrite (IH h' Hi3 eq_refl), andb_true_r.
    apply negb_true_iff. apply Ascii.eqb_neq. intros Heq.
    apply (f_equal url.code) in Heq. unfold url.code in Heq.
    rewrite N_ascii_embedding in Heq.
    + change (N_of_ascii "%") with 37%N in Heq. lia.
    + pose proof (unhex_small h1). pose proof (unhex_small h2). lia.
  - done.
  - done.
Qed.

Lemma escaped_byte_facts c :
  hostok c = true -> Ascii.eqb c "%" = false ->
  url.shouldEscape c url.encodeHost = true ->
  Ascii.eqb c " " = false
  /\ Ascii.eqb (url.upperhex (url.code c / 16)) "2" = false
  /\ Ascii.eqb (url.upperhex (url.code c / 16)) "%" = false
  /\ Ascii.eqb (url.upperhex (url.code c mod 16)) "%" = false.
Proof. by_bytes c; intros _ _ _; done. Qed.

(** What [escape] writes for a host without [%] holds no [%25], also when
    something follows. *)
Lemma Index_escape_25 h X :
  all hostok h = true -> lacks "%" h = true ->
  Index (url.escape h url.encodeHost +:+ X) "%25"
  = if Index X "%25" <? 0 then -1 else len (url.escape h url.encodeHost) + Index X "%25".
Proof.
  unfold lacks. induction h as [|c h IH].
  - intros _ _. simpl. change (len "") with 0. pose proof (Index_range X "%25").
    destruct (Z.ltb_spec (Index X "%25") 0); lia.
  - simpl all. intros [Hc Hh]%andb_true_iff [Hp Hl]%andb_true_iff.
    apply negb_true_iff in Hp. specialize (IH Hh Hl). simpl url.escape.
    destruct (url.shouldEscape c url.encodeHost) eqn:He.
    + destruct (escaped_byte_facts c Hc Hp He) as (Hsp & H2 & H3 & H4).
      rewrite Hsp. cbn [andb]. cbn iota.
      set (x := url.upperhex (url.code c / 16)) in *.
      set (y := url.upperhex (url.code c mod 16)) in *.
      set (E := url.escape h url.encodeHost) in *.
      change (String "%" (String x (String y E)) +:+ X)
        with (String "%" (String x (String y (E +:+ X)))).
      rewrite Index_cons.
      assert (HasPrefix (String "%" (String x (String y (E +:+ X)))) "%25" = false) as ->
        by (simpl; by rewrite H2).
      rewrite Index_cons.
      assert (HasPrefix (String x (String y (E +:+ X))) "%25" = false) as ->
        by (simpl; by rewrite H3).
      rewrite Index_cons.
      assert (HasPrefix (String y (E +:+ X)) "%25" = false) as -> by (simpl; by rewrite H4).
      rewrite IH. rewrite !len_cons. pose proof (len_nonneg E).
      destruct (Z.ltb_spec (Index X "%25") 0) as [Hx|Hx]; [done|].
      rewrite (proj2 (Z.ltb_ge (len E + Index X "%25") 0)) by lia.
      rewrite (proj2 (Z.ltb_ge (1 + (len E + Index X "%25")) 0)) by lia.
      rewrite (proj2 (Z.ltb_ge (1 + (1 + (len E + Index X "%25"))) 0)) by lia.
      lia.
    + set (E := url.escape h url.encodeHost) in *.
      change (String c E +:+ X) with (String c (E +:+ X)).
      rewrite Index_cons.
      assert (HasPrefix (String c (E +:+ X)) "%25" = false) as -> by (simpl; by rewrite Hp).
      rewrite IH. rewrite len_cons. pose proof (len_nonneg E).
      destruct (Z.ltb_spec (Index X "%25") 0) as [Hx|Hx]; [done|].
      rewrite (proj2 (Z.ltb_ge (len E + Index X "%25") 0)) by lia. lia.
Qed.

(** ** [parseHost] on what [escape] writes *)

Lemma slice_to_prefix P X z : 0 <= z <= len P -> slice_to (P +:+ X) z = slice_to P z.
Proof.
  unfold slice_to, len. intros Hz.
  assert (Hn : (Z.to_nat z <= String.length P)%nat) by lia.
  revert Hn. generalize (Z.to_nat z). clear. intros n. revert P.
  induction n as [|n IH]; intros [|c P]; simpl; try lia.
  - intros _. by destruct X.
  - done.
  - intros H. rewrite IH; [done | lia].
Qed.

Lemma slice_from_snoc P c X : slice_from (P +:+ String c X) (len P + 1) = X.
Proof.
  replace (P +:+ String c X) with ((P +:+ String c "") +:+ X) by (by rewrite sapp_assoc).
  replace (len P + 1) with (len (P +:+ String c "")) by (by rewrite len_app).
  apply slice_from_app.
Qed.

Lemma HasPrefix_sapp P X p : HasPrefix P p = true -> HasPrefix (P +:+ X) p = true.
Proof.
  intros H. destruct (HasPrefix_split _ _ H) as [r ->]. rewrite sapp_assoc. apply HasPrefix_app.
Qed.

(** [parseHost] on a bracketed host cut at its last bracket. *)
Lemma parseHost_bracket P post :
  HasPrefix P "[" = true -> url.validOptionalPort post = true ->
  url.parseHost (P +:+ String "]" post)
  = if 0 <=? Index P "%25" then
      match url.unescape (slice_to P (Index P "%25")) url.encodeHost with
      | None => None
      | Some h1 =>
          match url.unescape (slice_from P (Index P "%25")) url.encodeZone with
          | None => None
          | Some h2 =>
              match url.unescape (String "]" post) url.encodeHost with
              | None => None
              | Some h3 => Some (h1 +:+ h2 +:+ h3)
              end
          end
      end
    else url.unescape (P +:+ String "]" post) url.encodeHost.
Proof.
  intros Hb Hport. destruct (port_plain post Hport) as (_ & _ & Hl).
  unfold url.parseHost. rewrite (HasPrefix_sapp _ _ _ Hb).
  rewrite (LastIndex_char P "]" post Hl). pose proof (len_nonneg P).
  destruct (Z.ltb_spec (len P) 0); [lia|]. rewrite slice_from_snoc, Hport. cbn [negb].
  rewrite slice_to_app, slice_from_app.
  destruct (Z.leb_spec 0 (Index P "%25")) as [Hz|Hz]; [|done].
  pose proof (Index_range P "%25"). by rewrite slice_to_prefix by lia.
Qed.

Lemma bracket_tail post :
  url.validOptionalPort post = true ->
  url.unescape (String "]" post) url.encodeHost = Some (String "]" post)
  /\ url.escape (String "]" post) url.encodeHost = String "]" post.
Proof.
  intros Hport. destruct (port_plain post Hport) as (Hu & He & _). split.
  - change (url.unescape (String "]" post) url.encodeHost)
      with (option_map (String "]") (url.unescape post url.encodeHost)). by rewrite Hu.
  - change (url.escape (String "]" post) url.encodeHost)
      with (String "]" (url.escape post url.encodeHost)). by rewrite He.
Qed.

Lemma bracket_head m r h :
  url.encoding_eqb m url.encodeHost || url.encoding_eqb m url.encodeZone = true ->
  url.unescape (String "[" r) m = Some h ->
  exists h', h = String "[" h' /\ url.unescape r m = Some h'.
Proof.
  intros Hm. cbn [url.unescape]. change (Ascii.eqb "[" "%") with false.
  change (Ascii.eqb "[" "+") with false. cbn iota. rewrite Hm.
  change ((url.code "[" <? 128)%N) with true.
  change (url.shouldEscape "[" url.encodeHost) with false. cbn [andb]. cbn iota.
  destruct (url.unescape r m) as [h'|]; [|done]. intros [= <-]. by exists h'.
Qed.

Lemma escape_bracket h : 
  url.escape (String "[" h) url.encodeHost = String "[" (url.escape h url.encodeHost).
Proof. done. Qed.

(** A host without a leading bracket is written without one. *)
Lemma no_bracket raw h :
  HasPrefix raw "[" = false -> url.unescape raw url.encodeHost = Some h ->
  HasPrefix (url.escape h url.encodeHost) "[" = false.
Proof.
  intros Hb Hu. pose proof (unescape_hostok raw h Hu) as Hok.
  destruct h as [|b h]; [done|].
  assert (Hne : Ascii.eqb b "[" = false).
  { destruct raw as [|c raw]; [done|]. rewrite HasPrefix_char in Hb.
    revert Hu. cbn [url.unescape]. destruct (Ascii.eqb c "%") eqn:Hc.
    - destruct raw as [|h1 [|h2 raw']]; try done.
      destruct (negb (url.ishex h1 && url.ishex h2)); [done|].
      cbn [url.encoding_eqb andb]. cbn iota.
      destruct ((url.unhex h1 <? 8)%N && negb (Ascii.eqb h1 "2" && Ascii.eqb h2 "5")) eqn:E1;
        [done|].
      destruct (url.unescape raw' url.encodeHost); [|done]. intros [= <- _].
      destruct (Ascii.eqb h1 "2" && Ascii.eqb h2 "5") eqn:E25.
      { apply andb_true_iff in E25 as [->%Ascii.eqb_eq ->%Ascii.eqb_eq]. reflexivity. }
      cbn [negb] in E1. rewrite andb_true_r in E1. apply N.ltb_ge in E1.
      apply Ascii.eqb_neq. intros Heq. apply (f_equal url.code) in Heq.
      unfold url.code in Heq. rewrite N_ascii_embedding in Heq.
      + change (N_of_ascii "[") with 91%N in Heq. lia.
      + pose proof (unhex_small h1). pose proof (unhex_small h2). lia.
    - destruct (Ascii.eqb c "+").
      + destruct (url.unescape raw url.encodeHost); [|done]. by intros [= <- _].
      + destruct (_ && _); [done|].
        destruct (url.unescape raw url.encodeHost); [|done]. by intros [= <- _]. }
  simpl url.escape. destruct (url.shouldEscape b url.encodeHost).
  - by destruct (Ascii.eqb b " " && _).
  - rewrite HasPrefix_char. exact Hne.
Qed.

Lemma colon_free raw : forall h,
  lacks ":" raw = true -> url.unescape raw url.encodeHost = Some h ->
  lacks ":" (url.escape h url.encodeHost) = true.
Proof.
  assert (Hesc : forall c, Ascii.eqb c ":" = false ->
            lacks ":" (url.escape (String c "") url.encodeHost) = true).
  { intros c. by_bytes c. }
  unfold lacks in *.
  induction raw as [|c raw Hc IH|h1 h2 raw' IH| |h0] using pct_ind; intros h.
  - by intros _ [= <-].
  - simpl all. intros [Hcol Hraw]%andb_true_iff. apply negb_true_iff in Hcol.
    cbn [url.unescape]. rewrite Hc.
    destruct (url.unescape raw url.encodeHost) as [h'|] eqn:Hu.
    + specialize (IH h' Hraw eq_refl).
      assert (Hgoal : all (fun d => negb (Ascii.eqb d ":"))
                        (url.escape (String c h') url.encodeHost) = true).
      { change (String c h') with (String c "" +:+ h'). rewrite escape_app, all_app.
        by rewrite (Hesc c Hcol), IH. }
      destruct (Ascii.eqb c "+"); [by intros [= <-]|].
      destruct (_ && _); [done|]. by intros [= <-].
    + destruct (Ascii.eqb c "+"); [done|]. by destruct (_ && _).
  - cbn [all]. intros [_ [_ [_ Hraw]%andb_true_iff]%andb_true_iff]%andb_true_iff.
    cbn [url.unescape]. change (Ascii.eqb "%" "%") with true. cbn iota.
    destruct (negb (url.ishex h1 && url.ishex h2)); [done|].
    cbn [url.encoding_eqb andb]. cbn iota.
    destruct ((url.unhex h1 <? 8)%N && negb (Ascii.eqb h1 "2" && Ascii.eqb h2 "5")) eqn:E1;
      [done|].
    destruct (url.unescape raw' url.encodeHost) as [h'|] eqn:Hu; [|done]. intros [= <-].
    set (b := ascii_of_N (url.unhex h1 * 16 + url.unhex h2)).
    change (String b h') with (String b "" +:+ h'). rewrite escape_app, all_app.
    rewrite (IH h' Hraw eq_refl), andb_true_r. apply Hesc.
    destruct (Ascii.eqb h1 "2" && Ascii.eqb h2 "5") eqn:E25.
    { apply andb_true_iff in E25 as [->%Ascii.eqb_eq ->%Ascii.eqb_eq]. reflexivity. }
    cbn [negb] in E1. rewrite andb_true_r in E1. apply N.ltb_ge in E1.
    apply Ascii.eqb_neq. intros Heq. apply (f_equal url.code) in Heq.
    unfold url.code, b in Heq. rewrite N_ascii_embedding in Heq.
    + change (N_of_ascii ":") with 58%N in Heq. lia.
    + pose proof (unhex_small h1). pose proof (unhex_small h2). lia.
  - done.
  - done.
Qed.

Lemma parseHost_plain s :
  HasPrefix s "[" = false ->
  url.parseHost s
  = if negb (LastIndex s ":" =? -1)
       && negb (url.validOptionalPort (slice_from s (LastIndex s ":")))
    then None else url.unescape s url.encodeHost.
Proof. intros H. unfold url.parseHost. by rewrite H. Qed.

(** A host that [parseHost] reads from an ASCII string is read back from
    what [escape] writes for it. *)
Lemma parseHost_roundtrip raw h :
  all ascii7 raw = true -> url.parseHost raw = Some h ->
  url.parseHost (url.escape h url.encodeHost) = Some h.
Proof.
  intros Hascii. destruct (HasPrefix raw "[") eqn:Hb.
  - (* a bracketed host *)
    destruct (Z.ltb_spec (LastIndex raw "]") 0) as [Hi|Hi].
    { unfold url.parseHost. rewrite Hb.
      destruct (Z.ltb_spec (LastIndex raw "]") 0); [done | lia]. }
    destruct (LastIndex_cut raw "]" Hi) as (pre & post & Hraw & Hpost & _ & _ & Hsl).
    destruct (url.validOptionalPort post) eqn:Hport.
    2: { unfold url.parseHost. rewrite Hb, Hsl, Hport.
         by destruct (LastIndex raw "]" <? 0). }
    destruct (bracket_tail post Hport) as [Hut Het].
    assert (Hpre : exists pre', pre = String "[" pre').
    { destruct pre as [|c pre']; [by rewrite Hraw in Hb|].
      rewrite Hraw in Hb. simpl in Hb. rewrite andb_true_r in Hb.
      apply Ascii.eqb_eq in Hb as ->. by exists pre'. }
    destruct Hpre as [pre' ->].
    assert (Hap : all ascii7 pre' = true).
    { rewrite Hraw in Hascii. rewrite all_app in Hascii.
      apply andb_true_iff in Hascii as [H _]. cbn [all] in H.
      by apply andb_true_iff in H as [_ ?]. }
    rewrite Hraw. rewrite (parseHost_bracket (String "[" pre') post eq_refl Hport).
    destruct (Z.leb_spec 0 (Index (String "[" pre') "%25")) as [Hz|Hz].
    + (* with a zone *)
      pose proof (Index_cut_none (String "[" pre') "%" "25" Hz) as Hnone.
      pose proof (Index_prefix (String "[" pre') "%25" Hz) as Hzp.
      assert (Hz1 : 1 <= Index (String "[" pre') "%25").
      { rewrite Index_cons in *. change (HasPrefix (String "[" pre') "%25") with false in *.
        cbn iota in *. destruct (Index pre' "%25" <? 0) eqn:E; [lia|].
        apply Z.ltb_ge in E. lia. }
      set (z := Index (String "[" pre') "%25") in *.
      assert (HA : exists A, slice_to (String "[" pre') z = String "[" A).
      { unfold slice_to. destruct (Z.to_nat z) as [|n] eqn:En; [lia|]. by eexists. }
      destruct HA as [A HA]. rewrite HA in *.
      destruct (url.unescape (String "[" A) url.encodeHost) as [h1|] eqn:H1; [|done].
      destruct (url.unescape (slice_from (String "[" pre') z) url.encodeZone) as [h2|] eqn:H2;
        [|done].
      rewrite Hut. intros [= <-].
      destruct (bracket_head url.encodeHost A h1 eq_refl H1) as (h1' & -> & _).
      pose proof (unescape_hostok _ _ H1) as Hok1.
      assert (Hno1 : lacks "%" (String "[" h1') = true).
      { apply (unescape_no_percent (String "[" A)); [lia | done]. }
      assert (Hok2 : all zoneok h2 = true).
      { apply (unescape_zoneok _ _ (all_drop ascii7 (Z.to_nat z) (String "[" pre') Hap) H2). }
      destruct (HasPrefix_split _ _ Hzp) as [r Hr]. rewrite Hr in H2.
      assert (Hh2 : exists h2', h2 = String "%" h2').
      { revert H2. change ("%25" +:+ r) with (String "%" (String "2" (String "5" r))).
        cbn [url.unescape]. change (Ascii.eqb "%" "%") with true. cbn iota.
        change (url.ishex "2" && url.ishex "5") with true.
        cbn [negb url.encoding_eqb andb]. cbn iota.
        change (Ascii.eqb "2" "2" && Ascii.eqb "5" "5") with true. cbn [negb andb]. cbn iota.
        destruct (url.unescape r url.encodeZone); [|done]. intros [= <-]. by eexists. }
      destruct Hh2 as [h2' ->].
      rewrite !escape_app, Het.
      set (e1 := url.escape (String "[" h1') url.encodeHost).
      set (e2 := url.escape (String "%" h2') url.encodeHost).
      assert (He2 : HasPrefix e2 "%25" = true) by reflexivity.
      assert (Hidx : Index (e1 +:+ e2) "%25" = len e1).
      { unfold e1. rewrite (Index_escape_25 _ e2 Hok1 Hno1).
        assert (Index e2 "%25" = 0) as -> by (unfold e2; reflexivity). simpl. lia. }
      rewrite <- sapp_assoc.
      rewrite (parseHost_bracket (e1 +:+ e2) post); [|by apply HasPrefix_sapp|done].
      rewrite Hidx. pose proof (len_nonneg e1). destruct (Z.leb_spec 0 (len e1)); [|lia].
      rewrite slice_to_app, slice_from_app. unfold e1, e2.
      rewrite (roundtrip_host _ Hok1), (roundtrip_zone _ Hok2), Hut. done.
    + (* without a zone *)
      intros Hu.
      destruct (unescape_split url.encodeHost (String "[" pre') "]" post h eq_refl eq_refl Hu)
        as (hP & hT & HP & HT & ->).
      rewrite Hut in HT. injection HT as <-.
      destruct (bracket_head url.encodeHost pre' hP eq_refl HP) as (hP' & -> & _).
      pose proof (unescape_hostok _ _ HP) as HokP.
      assert (HnoP : lacks "%" (String "[" hP') = true).
      { by apply (unescape_no_percent (String "[" pre')). }
      pose proof (unescape_hostok _ _ Hu) as Hok.
      pose proof (roundtrip_host _ Hok) as Hrt.
      rewrite escape_app, Het in *.
      set (e := url.escape (String "[" hP') url.encodeHost) in *.
      rewrite (parseHost_bracket e post); [|reflexivity|done].
      assert (Hidx : Index e "%25" = -1).
      { pose proof (Index_escape_25 _ "" HokP HnoP) as H. rewrite sapp_nil_r in H.
        exact H. }
      rewrite Hidx. exact Hrt.
  - (* no bracket *)
    rewrite (parseHost_plain raw Hb).
    destruct (Z.ltb_spec (LastIndex raw ":") 0) as [Hi|Hi].
    + (* no port *)
      pose proof (LastIndex_lacks raw ":" Hi) as Hl.
      rewrite (LastIndex_neg raw ":" Hi). change (negb (-1 =? -1)) with false.
      cbn [andb]. cbn iota. intros Hu.
      rewrite (parseHost_plain _ (no_bracket raw h Hb Hu)).
      rewrite (LastIndex_none _ _ (colon_free raw h Hl Hu)).
      change (negb (-1 =? -1)) with false. cbn [andb]. cbn iota.
      apply roundtrip_host. by apply (unescape_hostok raw).
    + (* a port *)
      destruct (LastIndex_cut raw ":" Hi) as (pre & post & Hraw & Hpost & _ & Hsl & _).
      rewrite Hsl. destruct (Z.eqb_spec (LastIndex raw ":") (-1)) as [E|_]; [lia|].
      cbn [negb andb].
      destruct (url.validOptionalPort (String ":" post)) eqn:Hport; [|done].
      cbn [negb]. cbn iota. intros Hu.
      pose proof Hu as Hu'. rewrite Hraw in Hu'.
      destruct (unescape_split url.encodeHost pre ":" post h eq_refl eq_refl Hu')
        as (hP & hT & HP & HT & ->).
      destruct (port_plain _ Hport) as (Hup & Hep & _).
      rewrite Hup in HT. injection HT as <-.
      rewrite (parseHost_plain _ (no_bracket raw _ Hb Hu)).
      pose proof (roundtrip_host _ (unescape_hostok _ _ Hu)) as Hrt.
      rewrite escape_app, Hep in *.
      rewrite (LastIndex_char _ ":" post Hpost), slice_from_app, Hport.
      rewrite andb_false_r. exact Hrt.
Qed.

(** ** What [Parse] reads from a valid reference *)

Lemma empty_host_ascii : host_parsed_ascii "".
Proof. by exists "". Qed.

Lemma parseAuthority_ascii A user host :
  all ascii7 A = true -> url.parseAuthority A = Some (user, host) -> host_parsed_ascii host.
Proof.
  intros HA. unfold url.parseAuthority.
  destruct (url.parseHost _) as [h|] eqn:Hh; [|done].
  assert (Hp : host_parsed_ascii h).
  { eexists. split; [|exact Hh]. destruct (LastIndex A "@" <? 0); [done | by apply all_drop]. }
  destruct (LastIndex A "@" <? 0).
  - by intros [= _ <-].
  - destruct (negb _); [done|]. destruct (negb _).
    + destruct (url.unescape _ _); [|done]. by intros [= _ <-].
    + destruct (Cut _ _) as [[n p] ?]. destruct (url.unescape n _); [|done].
      destruct (url.unescape p _); [|done]. by intros [= _ <-].
Qed.

Lemma path_byte_valid c :
  uri_byte c = true -> okP c = true ->
  mem c "!$&'()*+,;=:@[]%" || negb (url.shouldEscape c url.encodePath) = true.
Proof. by_bytes c. Qed.

Lemma validEncoded_path s :
  all uri_byte s = true -> all okP s = true -> url.validEncoded s url.encodePath = true.
Proof.
  induction s as [|c s IH]; [done|]. cbn [all url.validEncoded].
  intros [Hc Hs]%andb_true_iff [Hc' Hs']%andb_true_iff.
  by rewrite (path_byte_valid c Hc Hc'), IH.
Qed.

(** [setPath] on a valid path from the root keeps it as it is written. *)
Lemma setPath_escaped v q u :
  url.setPath v q = Some u -> url.validEncoded q url.encodePath = true ->
  HasPrefix q "/" = true -> url.EscapedPath u = q.
Proof.
  unfold url.setPath. destruct (url.unescape q url.encodePath) as [p|] eqn:Hu; [|done].
  intros [= <-] Hv Hr. unfold url.EscapedPath. simpl.
  destruct (String.eqb q (url.escape p url.encodePath)) eqn:E.
  - simpl. apply String.eqb_eq in E.
    pose proof (rooted_not_star _ _ (HasPrefix_rooted _ Hr) Hu) as Hstar.
    rewrite Hstar. done.
  - assert (Hne : String.eqb q "" = false) by (by destruct q).
    rewrite Hne, Hv, Hu, String.eqb_refl. done.
Qed.

Lemma splitQuery_all P rest :
  all P rest = true -> all P (url.splitQuery rest).1.1 = true.
Proof.
  intros H. unfold url.splitQuery. destruct (_ && _); simpl.
  - by apply all_take.
  - pose proof (Cut_all P "?" rest H) as [H1 _]. by destruct (Cut rest "?") as [[r q] fnd].
Qed.

Lemma with_fragment_reparses v f r :
  path_reparses (with_fragment v f r) = path_reparses v.
Proof. done. Qed.

(** The URL that [Parse] reads from a string of URI bytes: its host is
    read from ASCII, and its path is written as it was read. *)
Lemma Parse_valid s u :
  all uri_byte s = true -> url.Parse s = Some u ->
  host_parsed_ascii (url.Host u) /\ path_reparses u = true.
Proof.
  intros Hs. unfold url.Parse.
  pose proof (Cut_all uri_byte "#" s Hs) as [HX _].
  pose proof (Cut_before_lacks "#" s) as Hhash.
  destruct (Cut s "#") as [[X frag] fnd]. simpl in HX, Hhash.
  destruct (url.parse X) as [v|] eqn:Hp; [|done].
  assert (Hv : host_parsed_ascii (url.Host v) /\ path_reparses v = true).
  { revert Hp. unfold url.parse.
    destruct (url.stringContainsCTLByte X) eqn:Hctl; [done|].
    pose proof (all_okQ X Hctl Hhash) as HQ.
    destruct (String.eqb X "*"); [intros [= <-]; split; [apply empty_host_ascii | done]|].
    destruct (url.getScheme X) as [[sc rest]|] eqn:Hg; [|done].
    assert (Hrest : all uri_byte rest = true /\ all okQ rest = true).
    { destruct (getScheme_inv _ _ _ Hg) as [[_ ->] | [_ HXeq]]; [done|].
      rewrite HXeq in HX, HQ. rewrite all_app in HX, HQ.
      apply andb_true_iff in HX as [_ HX]. apply andb_true_iff in HQ as [_ HQ].
      cbn [all] in HX, HQ. apply andb_true_iff in HX as [_ HX].
      by apply andb_true_iff in HQ as [_ HQ]. }
    destruct Hrest as [Hru Hrq].
    pose proof (splitQuery_all uri_byte rest Hru) as Hr1.
    destruct (splitQuery_wf rest Hrq) as (Hr2 & _).
    destruct (url.splitQuery rest) as [[r f] q]. simpl in Hr1, Hr2.
    pose proof (all_impl _ _ _ uri_byte_ascii Hr1) as Hra.
    unfold url.parse_rest.
    destruct (negb (HasPrefix r "/") && negb (String.eqb (ToLower sc) ""));
      [intros [= <-]; split; [apply empty_host_ascii | done]|].
    destruct (negb (HasPrefix r "/") && Contains _ _); [done|].
    destruct ((negb (String.eqb (ToLower sc) "") || negb (HasPrefix r "///"))
              && HasPrefix r "//") eqn:Hauth.
    - assert (Hfin : forall A rest' user host w,
                 all ascii7 A = true -> url.parseAuthority A = Some (user, host) ->
                 url.setPath (url.mkURL (ToLower sc) "" user host "" "" false f q "" "") rest'
                 = Some w ->
                 host_parsed_ascii (url.Host w) /\ path_reparses w = true).
      { intros A rest' user host w HA Ha Hset.
        pose proof (setPath_Host _ _ _ Hset) as Hh. rewrite Hh. simpl.
        split; [by apply (parseAuthority_ascii A user) |].
        revert Hset. unfold url.setPath. destruct (url.unescape rest' _); [|done].
        by intros [= <-]. }
      destruct (0 <=? _).
      + destruct (url.parseAuthority _) as [[user host]|] eqn:Ha; [|done].
        apply (Hfin _ _ _ _ _ (all_take _ _ _ (all_drop _ 2 _ Hra)) Ha).
      + destruct (url.parseAuthority _) as [[user host]|] eqn:Ha; [|done].
        apply (Hfin _ _ _ _ _ (all_drop _ 2 _ Hra) Ha).
    - intros Hset. pose proof (setPath_Host _ _ _ Hset) as Hh. rewrite Hh. simpl.
      split; [apply empty_host_ascii|].
      unfold path_reparses.
      assert (Hom : url.OmitHost v
                    = negb (String.eqb (ToLower sc) "") && HasPrefix r "/").
      { revert Hset. unfold url.setPath. destruct (url.unescape r _); [|done].
        by intros [= <-]. }
      rewrite Hom. destruct (negb (String.eqb (ToLower sc) "")) eqn:Hsc; [|done].
      destruct (HasPrefix r "/") eqn:Hslash; [|done].
      cbn [orb andb] in Hauth. cbn [andb].
      rewrite (setPath_escaped _ _ _ Hset (validEncoded_path r Hr1 Hr2) Hslash).
      by rewrite Hauth. }
  destruct (String.eqb frag ""); [by intros [= <-]|].
  unfold url.setFragment. destruct (url.unescape frag _); [|done]. by intros [= <-].
Qed.

(** ** C9: resolving twice *)

Lemma ascii_host_reparses u : host_parsed_ascii (url.Host u) -> host_reparses u = true.
Proof.
  intros (raw & Ha & Hp). unfold host_reparses.
  rewrite (parseHost_roundtrip raw _ Ha Hp). apply String.eqb_refl.
Qed.

Lemma setPath_ignore_OmitHost v q : url.OmitHost (url.setPath_ignore v q) = url.OmitHost v.
Proof.
  unfold url.setPath_ignore, url.setPath. by destruct (url.unescape q url.encodePath).
Qed.

Lemma ResolveReference_valid b r :
  host_parsed_ascii (url.Host b) -> host_parsed_ascii (url.Host r) ->
  url.OmitHost r = false ->
  host_parsed_ascii (url.Host (url.ResolveReference b r))
  /\ path_reparses (url.ResolveReference b r) = true.
Proof.
  intros Hb Hr Hom. unfold path_reparses, url.ResolveReference.
  destruct (_ || negb (url.is_nil (url.User r))).
  { rewrite setPath_ignore_Host, setPath_ignore_OmitHost. simpl. by rewrite Hom. }
  destruct (url.nonempty (url.Opaque r)).
  { simpl. rewrite Hom. split; [apply empty_host_ascii | done]. }
  destruct (String.eqb (url.Path r) "" && url.nonempty (url.Opaque b)).
  { simpl. rewrite Hom. split; [apply empty_host_ascii | done]. }
  rewrite setPath_ignore_Host, setPath_ignore_OmitHost. simpl. by rewrite Hom.
Qed.

(** The URL that [resolveURL] writes for a valid base and a valid reference
    is read back component by component. *)
Lemma resolved_valid base ref u :
  all uri_byte base = true -> all uri_byte ref = true ->
  resolved base ref = Some u ->
  host_reparses u = true /\ path_reparses u = true.
Proof.
  intros Hbase Href. unfold resolved.
  destruct (url.Parse ref) as [r|] eqn:Hr; [|done].
  destruct (Parse_valid ref r Href Hr) as [Hrh Hrp].
  destruct (url.IsAbs r) eqn:Hra.
  - intros [= <-]. split; [by apply ascii_host_reparses | done].
  - destruct (url.Parse base) as [b|] eqn:Hb; [|done]. intros [= <-].
    destruct (Parse_valid base b Hbase Hb) as [Hbh _].
    unfold url.IsAbs in Hra. apply negb_false_iff, String.eqb_eq in Hra.
    destruct (wf_relative r (Parse_wf _ _ Hr) Hra) as [_ Hom].
    destruct (ResolveReference_valid b r Hbh Hrh Hom) as [Hh Hp].
    split; [by apply ascii_host_reparses | done].
Qed.

(** C9. Validity is read as: every byte of the base and of the reference
    is one that RFC 3986 allows in a URI reference. For every such pair for
    which [resolveURL] writes an absolute URL, resolving the result against
    the same base returns it unchanged. A reference that is absolute
    already is returned as the written form of its parsed URL, whatever the
    base, and that written form is returned unchanged against every
    base. *)
Theorem resolve_twice base ref u :
  all uri_byte base = true -> all uri_byte ref = true ->
  resolved base ref = Some u -> url.IsAbs u = true ->
  resolveURL base (resolveURL base ref) = resolveURL base ref
  /\ (forall r, url.Parse ref = Some r -> url.IsAbs r = true ->
        forall base',
          resolveURL base' ref = url.String r
          /\ resolveURL base' (url.String r) = url.String r).
Proof.
  intros Hbase Href Hres Habs.
  destruct (resolved_valid base ref u Hbase Href Hres) as [Hh Hp].
  split; [by apply (resolve_twice_reparsing base ref u)|].
  intros r Hr Hra base'.
  assert (Hown : resolveURL base' ref = url.String r).
  { unfold resolveURL. by rewrite Hr, Hra. }
  split; [exact Hown|].
  assert (Hres' : resolved base' ref = Some r) by (unfold resolved; by rewrite Hr, Hra).
  destruct (Parse_valid ref r Href Hr) as [Hrh Hrp].
  pose proof (resolve_twice_reparsing base' ref r Hres' Hra (ascii_host_reparses r Hrh) Hrp)
    as H.
  by rewrite Hown in H.
Qed.

Lemma resolve_twice_witness :
  resolveURL "https://example.com/docs/" "../a%20b/app.js?v=1#top"
  = "https://example.com/a%20b/app.js?v=1#top"
  /\ resolveURL "https://example.com/docs/"
       (resolveURL "https://example.com/docs/" "../a%20b/app.js?v=1#top")
     = resolveURL "https://example.com/docs/" "../a%20b/app.js?v=1#top".
Proof.
  split; [vm_compute; reflexivity|].
  refine (proj1 (resolve_twice "https://example.com/docs/" "../a%20b/app.js?v=1#top"
                   (default url.zero
                      (resolved "https://example.com/docs/" "../a%20b/app.js?v=1#top"))
                   _ _ _ _)); vm_compute; reflexivity.
Defined.

(* ===================================================================== *)
(** * The run from its arguments to its end *)
(* ===================================================================== *)

Lemma main_crawls w prog domain rest fuel :
  main w (prog :: domain :: rest) fuel
  = option_map (report w domain) (crawl w domain fuel (crawl_init (root_of domain rest))).
Proof. unfold main, root_of, scheme_of. by destruct rest. Qed.

Lemma report_exit w domain st : exit_code (report w domain st) = 0.
Proof.
  unfold report. destruct (_ =? 0); [done|].
  destruct (os_Create w _); [|done]. destruct (os_Create w _); [|done].
  destruct (os_Create w _); [|done]. simpl. by destruct (test_all _ _).
Qed.

Lemma report_pages w domain st : pages (report w domain st) = crawled st.
Proof.
  unfold report. destruct (_ =? 0); [done|].
  destruct (os_Create w _); [|done]. destruct (os_Create w _); [|done].
  destruct (os_Create w _); [|done]. simpl. by destruct (test_all _ _).
Qed.

(** ** X1: the usage exit *)

(** X1. Without a domain argument [main] exits with code 1 before anything
    is fetched, created or probed, whatever the world. With one, every run
    that ends exits with code 0: no failed fetch, unreadable body or file
    that cannot be created changes the exit code. *)
Theorem usage_exit :
  (forall w Args fuel,
      (length Args < 2)%nat -> main w Args fuel = Some (mkRun 1 [] [] [] 0 0))
  /\ (forall w Args fuel r,
        (2 <= length Args)%nat -> main w Args fuel = Some r -> exit_code r = 0).
Proof.
  split.
  - intros w [|prog [|domain rest]] fuel H; simpl in *; try done. lia.
  - intros w [|prog [|domain rest]] fuel r H; simpl in H; try lia.
    rewrite main_crawls. destruct (crawl _ _ _ _) as [st|]; [|done].
    intros [= <-]. apply report_exit.
Qed.

(** ** X2: the scheme argument *)

Lemma TrimRight_cutset t cutset :
  all (fun c => mem c cutset) t = true -> TrimRight t cutset = "".
Proof.
  induction t as [|c t IH]; [done|]. simpl. intros [Hc Ht]%andb_true_iff.
  by rewrite (IH Ht), Hc.
Qed.

Lemma TrimRight_app s t cutset :
  all (fun c => mem c cutset) t = true -> TrimRight (s +:+ t) cutset = TrimRight s cutset.
Proof.
  intros Ht. induction s as [|c s IH]; simpl; [by apply TrimRight_cutset | by rewrite IH].
Qed.

Lemma TrimRight_idem s cutset : TrimRight (TrimRight s cutset) cutset = TrimRight s cutset.
Proof.
  induction s as [|c s IH]; [done|]. simpl.
  destruct (TrimRight s cutset) as [|d t] eqn:E.
  - destruct (mem c cutset) eqn:Hc; [done|]. simpl. by rewrite Hc.
  - change (TrimRight (String c (String d t)) cutset)
      with (match TrimRight (String d t) cutset with
            | EmptyString => if mem c cutset then EmptyString else String c EmptyString
            | r => String c r
            end).
    by rewrite IH.
Qed.

(** What [TrimRight] returns does not end with a byte of the cutset. *)
Lemma TrimRight_last s cutset c :
  mem c cutset = true -> not_last c (TrimRight s cutset) = true.
Proof.
  intros Hc. induction s as [|d s IH]; [done|]. simpl.
  destruct (TrimRight s cutset) as [|e t] eqn:E.
  - destruct (mem d cutset) eqn:Hd; [done|]. simpl.
    destruct (Ascii.eqb_spec d c) as [->|]; [congruence | done].
  - exact IH.
Qed.

(** X2. The third argument is used as the scheme with all its trailing
    colons and slashes dropped, so [https], [https:] and [https://] start
    the same run; the scheme used never ends with a colon or a slash;
    arguments after the third are not read; and without a third argument
    the scheme is [https]. *)
Theorem scheme_argument_trimmed w prog domain s t more fuel :
  all (fun c => mem c ":/") t = true ->
  main w (prog :: domain :: (s +:+ t) :: more) fuel
  = main w [prog; domain; TrimRight s ":/"] fuel
  /\ main w (prog :: domain :: (s +:+ t) :: more) fuel
     = option_map (report w domain)
         (crawl w domain fuel (crawl_init (TrimRight s ":/" +:+ "://" +:+ domain +:+ "/")))
  /\ not_last ":" (TrimRight s ":/") = true
  /\ not_last "/" (TrimRight s ":/") = true
  /\ main w [prog; domain] fuel = main w [prog; domain; "https"] fuel.
Proof.
  intros Ht. rewrite !main_crawls. unfold root_of, scheme_of.
  rewrite (TrimRight_app s t ":/" Ht), TrimRight_idem.
  repeat split; by apply TrimRight_last.
Qed.

Lemma scheme_argument_trimmed_witness :
  main site ["JsCrawlar"; "example.com"; "https://"] 3
  = main site ["JsCrawlar"; "example.com"; "https"] 3
  /\ main site ["JsCrawlar"; "example.com"] 3
     = main site ["JsCrawlar"; "example.com"; "https"] 3.
Proof.
  destruct (scheme_argument_trimmed site "JsCrawlar" "example.com" "https" "://" [] 3
              eq_refl) as (H1 & _ & _ & _ & H2).
  split; [exact H1 | exact H2].
Defined.

(* ===================================================================== *)
(** * What the crawl loop fetches and collects *)
(* ===================================================================== *)

Lemma crawl_page_idle w domain st : queue st = [] -> crawl_page w domain st = st.
Proof. intros Hq. unfold crawl_page. by rewrite Hq. Qed.

(** One turn on a page whose content cannot be had only moves the page
    from the queue to the pages fetched. *)
Lemma crawl_page_failed w domain st page q :
  queue st = page :: q -> page_body w page = None ->
  crawl_page w domain st = mkCrawl (seen st) q (jsSet st) (crawled st ++ [page]).
Proof.
  unfold page_body, crawl_page. intros -> Hb.
  destruct (crawl_Get w page) as [resp|]; [|done]. by rewrite Hb.
Qed.

Lemma crawl_page_body w domain st page q content :
  queue st = page :: q -> page_body w page = Some content ->
  crawl_page w domain st =
    mkCrawl (fold_left (enqueue domain) (extractLinks w content page) (seen st, q)).1
            (fold_left (enqueue domain) (extractLinks w content page) (seen st, q)).2
            (fold_left (fun m js => <[js := true]> m) (extractJS w content page) (jsSet st))
            (crawled st ++ [page]).
Proof.
  unfold page_body. intros Hq Hb. destruct (crawl_Get w page) as [resp|] eqn:Hg; [|done].
  by apply (crawl_page_fetched w domain st page q resp content).
Qed.

Lemma crawl_page_crawled w domain st page q :
  queue st = page :: q -> crawled (crawl_page w domain st) = crawled st ++ [page].
Proof.
  intros Hq. destruct (page_body w page) as [content|] eqn:Hb.
  - by rewrite (crawl_page_body _ _ _ _ _ _ Hq Hb).
  - by rewrite (crawl_page_failed _ _ _ _ _ Hq Hb).
Qed.

(** More fuel does not change the outcome of a crawl that ends. *)
Lemma crawl_fuel_S w domain fuel : forall st r,
  crawl w domain fuel st = Some r -> crawl w domain (S fuel) st = Some r.
Proof.
  induction fuel as [|fuel IH]; intros st r.
  - simpl. destruct (queue st); [done | discriminate].
  - intros H. change (crawl w domain (S (S fuel)) st)
      with (match queue st with
            | [] => Some st
            | _ :: _ => crawl w domain (S fuel) (crawl_page w domain st)
            end).
    simpl in H. destruct (queue st); [done|]. by apply IH.
Qed.

Lemma crawl_fuel_le w domain fuel fuel' st r :
  crawl w domain fuel st = Some r -> (fuel <= fuel')%nat -> crawl w domain fuel' st = Some r.
Proof.
  intros H Hle. induction Hle as [|m _ IH]; [done|]. by apply crawl_fuel_S.
Qed.

(** What the inner loop appends to the queue are links in scope. *)
Lemma enqueue_all_from (P : string -> Prop) domain links : forall sq,
  Forall P sq.2 ->
  (forall l, l ∈ links -> sameDomain l domain = true -> P l) ->
  Forall P (fold_left (enqueue domain) links sq).2.
Proof.
  induction links as [|l links IH]; intros [s q] Hq HP; [done|]. simpl.
  apply IH.
  - destruct (sameDomain l domain) eqn:Hs; simpl; [|done].
    destruct (index s l); simpl; [done|].
    apply Forall_app. split; [done|]. apply Forall_singleton. apply HP; [left | done].
  - intros l' Hl'. apply HP. by right.
Qed.

(** After the inner loop every link in scope is in [seen]. *)
Lemma enqueue_all_covers domain links : forall sq l,
  l ∈ links -> sameDomain l domain = true ->
  l ∈ dom (fold_left (enqueue domain) links sq).1.
Proof.
  induction links as [|l0 links IH]; intros [s q] l Hl Hs; [by apply elem_of_nil in Hl|].
  simpl. apply elem_of_cons in Hl as [->|Hl]; [|by apply IH].
  apply (proj1 (enqueue_all_grows domain links _)).
  rewrite Hs. simpl. unfold index. destruct (s !! l0) as [b|] eqn:E; simpl.
  - destruct b; simpl; [by apply elem_of_dom | rewrite dom_insert_L; set_solver].
  - rewrite dom_insert_L. set_solver.
Qed.

Lemma crawl_page_from (P : string -> Prop) w domain st :
  Forall P (crawled st ++ queue st) ->
  (forall page q content link,
      queue st = page :: q -> page_body w page = Some content ->
      link ∈ extractLinks w content page -> sameDomain link domain = true -> P link) ->
  Forall P (crawled (crawl_page w domain st) ++ queue (crawl_page w domain st)).
Proof.
  intros Hall HP. destruct (queue st) as [|page q] eqn:Hq.
  - by rewrite (crawl_page_idle _ _ _ Hq), Hq.
  - destruct (page_body w page) as [content|] eqn:Hb.
    + rewrite (crawl_page_body _ _ _ _ _ _ Hq Hb). simpl.
      apply Forall_app in Hall as [Hc Hpq]. apply Forall_cons in Hpq as [Hp Hq'].
      rewrite !Forall_app. split; [split; [done | by apply Forall_singleton]|].
      apply enqueue_all_from; [done|]. intros l Hl Hs. by apply (HP page q content).
    + rewrite (crawl_page_failed _ _ _ _ _ Hq Hb). simpl.
      rewrite <- app_assoc. done.
Qed.

(** The sequence of the pages fetched and the pages waiting starts with
    the root. *)
Lemma crawl_at_root w domain root k :
  exists more,
    crawled (crawl_at w domain root k) ++ queue (crawl_at w domain root k) = root :: more.
Proof.
  induction k as [|k [more IH]]; [by exists []|].
  unfold crawl_at in *. rewrite Nat.iter_succ.
  destruct (crawl_page_grows w domain (Nat.iter k (crawl_page w domain) (crawl_init root)))
    as (_ & new & ->).
  rewrite IH. by exists (more ++ new).
Qed.

Lemma crawl_at_scope w domain root k :
  Forall (fun p => p = root \/ sameDomain p domain = true)
         (crawled (crawl_at w domain root k) ++ queue (crawl_at w domain root k)).
Proof.
  induction k as [|k IH].
  - apply Forall_singleton. by left.
  - unfold crawl_at in *. rewrite Nat.iter_succ.
    apply crawl_page_from; [done|]. intros; by right.
Qed.

(** ** X3: where the crawl starts and stays *)

(** X3. In every run that ends, the first page fetched is the root URL
    [scheme://domain/], fetched whether or not it passes the domain
    filter itself, and every other page fetched is a link that passes the
    filter: the crawl never asks for a page of another host. *)
Theorem root_first_then_in_scope w prog domain rest fuel r :
  main w (prog :: domain :: rest) fuel = Some r ->
  exists more,
    pages r = root_of domain rest :: more
    /\ Forall (fun p => sameDomain p domain = true) more.
Proof.
  rewrite main_crawls. destruct (crawl _ _ _ _) as [st|] eqn:Hc; [|done].
  intros [= <-]. rewrite report_pages.
  destruct (crawl_Some_iter _ _ _ _ _ Hc) as (k & Hst & Hq).
  destruct (crawl_at_root w domain (root_of domain rest) k) as [more Hmore].
  pose proof (crawl_at_scope w domain (root_of domain rest) k) as Hsc.
  destruct (crawl_at_once w domain (root_of domain rest) k) as (Hnd & _).
  unfold crawl_at in *. rewrite <- Hst in *. simpl in Hnd.
  rewrite Hq, app_nil_r in *. exists more. split; [done|].
  rewrite Hmore in Hsc, Hnd. apply NoDup_cons in Hnd as [Hnotin _].
  apply Forall_cons in Hsc as [_ Hsc]. apply Forall_forall. intros p Hp.
  pose proof (proj1 (Forall_forall _ _) Hsc p Hp) as [-> | H]; [done | exact H].
Qed.

Lemma root_first_then_in_scope_witness :
  exists more,
    pages (default (mkRun 1 [] [] [] 0 0) (main site ["JsCrawlar"; "example.com"] 3))
    = "https://example.com/" :: more
    /\ Forall (fun p => sameDomain p "example.com" = true) more.
Proof.
  apply (root_first_then_in_scope site "JsCrawlar" "example.com" [] 3).
  vm_compute. reflexivity.
Defined.

(** ** X4: the pages fetched *)

(** Every page of the sequence is the root or a link in scope found on a
    page fetched with its content. *)
Lemma crawl_at_found w domain root k :
  Forall (fun p =>
            p = root
            \/ exists q content,
                 q ∈ crawled (crawl_at w domain root k) /\ page_body w q = Some content
                 /\ p ∈ extractLinks w content q /\ sameDomain p domain = true)
         (crawled (crawl_at w domain root k) ++ queue (crawl_at w domain root k)).
Proof.
  induction k as [|k IH].
  - apply Forall_singleton. by left.
  - unfold crawl_at in *. rewrite Nat.iter_succ.
    set (st := Nat.iter k (crawl_page w domain) (crawl_init root)) in *.
    assert (Hsub : forall q, q ∈ crawled st -> q ∈ crawled (crawl_page w domain st)).
    { intros q Hq. destruct (queue st) as [|page q'] eqn:E.
      - by rewrite (crawl_page_idle _ _ _ E).
      - rewrite (crawl_page_crawled _ _ _ _ _ E). apply elem_of_app. by left. }
    apply crawl_page_from.
    + eapply Forall_impl; [exact IH|]. intros p [-> | (q & c & Hq & Hb & Hl & Hs)]; [by left|].
      right. exists q, c. split; [by apply Hsub | done].
    + intros page q content link Hq Hb Hl Hs. right. exists page, content.
      split; [|done]. rewrite (crawl_page_crawled _ _ _ _ _ Hq).
      apply elem_of_app. right. by apply list_elem_of_singleton.
Qed.

(** Every link in scope found on a page fetched with its content is in
    [seen]. *)
Lemma crawl_at_closed w domain root k page content link :
  page ∈ crawled (crawl_at w domain root k) -> page_body w page = Some content ->
  link ∈ extractLinks w content page -> sameDomain link domain = true ->
  link ∈ dom (seen (crawl_at w domain root k)).
Proof.
  induction k as [|k IH]; [by intros ?%elem_of_nil|].
  unfold crawl_at in *. rewrite Nat.iter_succ.
  set (st := Nat.iter k (crawl_page w domain) (crawl_init root)) in *.
  intros Hp Hb Hl Hs. destruct (queue st) as [|p q] eqn:Hq.
  - rewrite (crawl_page_idle _ _ _ Hq) in *. by apply IH.
  - rewrite (crawl_page_crawled _ _ _ _ _ Hq) in Hp.
    apply elem_of_app in Hp as [Hp | ->%list_elem_of_singleton].
    + apply (proj1 (crawl_page_grows w domain st)). by apply IH.
    + rewrite (crawl_page_body _ _ _ _ _ _ Hq Hb). simpl. by apply enqueue_all_covers.
Qed.

(** X4. When the crawl loop ends, the pages fetched are exactly the root
    and the links in scope that [extractLinks] found on a page fetched with
    its content: each such link has been fetched, and nothing else has. *)
Theorem fetched_pages_characterised w domain root fuel st page :
  crawl w domain fuel (crawl_init root) = Some st ->
  page ∈ crawled st
  <-> page = root
      \/ exists q content,
           q ∈ crawled st /\ page_body w q = Some content
           /\ page ∈ extractLinks w content q /\ sameDomain page domain = true.
Proof.
  intros Hc. destruct (crawl_Some_iter _ _ _ _ _ Hc) as (k & Hst & Hq).
  pose proof (crawl_at_found w domain root k) as Hfound.
  pose proof (crawl_at_closed w domain root k) as Hclosed.
  destruct (crawl_at_root w domain root k) as [more Hroot].
  destruct (crawl_at_once w domain root k) as (_ & Hdom & _).
  unfold crawl_at in *. rewrite <- Hst in *. simpl in Hdom.
  rewrite Hq, app_nil_r in *. split.
  - intros Hp. exact (proj1 (Forall_forall _ _) Hfound page Hp).
  - intros [-> | (q & content & Hqc & Hb & Hl & Hs)].
    + rewrite Hroot. by left.
    + specialize (Hclosed q content page Hqc Hb Hl Hs).
      rewrite Hdom in Hclosed. by apply elem_of_list_to_set in Hclosed.
Qed.

Lemma fetched_pages_characterised_witness :
  let st := default (crawl_init "")
              (crawl site "example.com" 3 (crawl_init "https://example.com/")) in
  "https://example.com/about" ∈ crawled st
  <-> "https://example.com/about" = "https://example.com/"
      \/ exists q content,
           q ∈ crawled st /\ page_body site q = Some content
           /\ "https://example.com/about" ∈ extractLinks site content q
           /\ sameDomain "https://example.com/about" "example.com" = true.
Proof.
  apply (fetched_pages_characterised site "example.com" "https://example.com/" 3).
  vm_compute. reflexivity.
Defined.

(** ** X5: the number of pages visited *)

(** X5. When the crawl loop ends, [seen] holds exactly the pages fetched,
    each fetched once, so the number of pages visited that [main] prints
    is the number of requests the crawl made, those that failed
    included. *)
Theorem visited_is_fetch_count w domain root fuel st :
  crawl w domain fuel (crawl_init root) = Some st ->
  size (seen st) = length (crawled st)
  /\ elements (dom (seen st)) ≡ₚ crawled st
  /\ visited (report w domain st) = Z.of_nat (length (pages (report w domain st))).
Proof.
  intros Hc. destruct (crawl_final_once _ _ _ _ _ Hc) as (_ & Hnd & Hdom).
  assert (Hsize : size (seen st) = length (crawled st)).
  { rewrite <- size_dom, Hdom. by apply size_list_to_set. }
  split; [done|]. split.
  - rewrite Hdom. by apply elements_list_to_set.
  - rewrite report_pages, <- Hsize. unfold report. destruct (_ =? 0); [done|].
    destruct (os_Create w _); [|done]. destruct (os_Create w _); [|done].
    destruct (os_Create w _); [|done]. simpl. by destruct (test_all _ _).
Qed.

Lemma visited_is_fetch_count_witness :
  let st := default (crawl_init "")
              (crawl offline "example.com" 1 (crawl_init "https://example.com/")) in
  size (seen st) = length (crawled st)
  /\ elements (dom (seen st)) ≡ₚ crawled st
  /\ visited (report offline "example.com" st)
     = Z.of_nat (length (pages (report offline "example.com" st))).
Proof.
  apply (visited_is_fetch_count offline "example.com" "https://example.com/" 1).
  vm_compute. reflexivity.
Defined.

(** ** X6: the crawl ends on a finite site *)

(** The number of turns a crawl needs is bounded by the number of URLs
    that can enter the queue. *)
Lemma crawl_bounded w domain root (U : list string) fuel : forall st,
  enqueued_once (crawled st) (seen st, queue st) ->
  Forall (fun p => p ∈ root :: U) (crawled st ++ queue st) ->
  (forall page content link,
      page ∈ root :: U -> page_body w page = Some content ->
      link ∈ extractLinks w content page -> sameDomain link domain = true ->
      link ∈ U) ->
  (S (length U) <= fuel + length (crawled st))%nat ->
  exists r, crawl w domain fuel st = Some r /\ (length (crawled r) <= S (length U))%nat.
Proof.
  induction fuel as [|fuel IH]; intros st Honce Hin HU Hfuel.
  - assert (Hlen : (length (crawled st ++ queue st) <= length (root :: U))%nat).
    { apply submseteq_length, NoDup_submseteq; [apply Honce|].
      intros p Hp. exact (proj1 (Forall_forall _ _) Hin p Hp). }
    rewrite length_app in Hlen. simpl in Hlen, Hfuel.
    destruct (queue st) as [|p q] eqn:Hq; [|simpl in Hlen; lia].
    exists st. split; [by apply crawl_done | lia].
  - assert (Hlen : (length (crawled st ++ queue st) <= length (root :: U))%nat).
    { apply submseteq_length, NoDup_submseteq; [apply Honce|].
      intros p Hp. exact (proj1 (Forall_forall _ _) Hin p Hp). }
    rewrite length_app in Hlen. simpl in Hlen.
    pose proof (crawl_page_once w domain st Honce) as Honce'.
    assert (Hin' : Forall (fun p => p ∈ root :: U)
                     (crawled (crawl_page w domain st) ++ queue (crawl_page w domain st))).
    { apply crawl_page_from; [done|].
      intros page q' content link Hq' Hb Hl Hs. right.
      apply (HU page content link); try done.
      apply (proj1 (Forall_forall _ _) Hin). apply elem_of_app. right. rewrite Hq'. by left. }
    destruct (queue st) as [|p q] eqn:Hq.
    { exists st. split; [by apply crawl_done | lia]. }
    rewrite (crawl_more _ _ _ _ _ _ Hq). apply IH; try done.
    rewrite (crawl_page_crawled _ _ _ _ _ Hq), length_app. simpl. lia.
Qed.

(** X6. If the links in scope found on the root and on the pages of a
    finite list [U] all lie in [U] again, the crawl loop ends: it makes at
    most one request more than [U] has entries, and with that much fuel or
    more it ends in the same state. *)
Theorem crawl_ends_on_finite_site w domain root (U : list string) :
  (forall page content link,
      page ∈ root :: U -> page_body w page = Some content ->
      link ∈ extractLinks w content page -> sameDomain link domain = true ->
      link ∈ U) ->
  exists st,
    (forall fuel, (length U < fuel)%nat -> crawl w domain fuel (crawl_init root) = Some st)
    /\ queue st = []
    /\ (length (crawled st) <= S (length U))%nat.
Proof.
  intros HU.
  destruct (crawl_bounded w domain root U (S (length U)) (crawl_init root)) as (st & Hc & Hlen).
  - exact (crawl_at_once w domain root 0).
  - apply Forall_singleton. by left.
  - exact HU.
  - simpl. lia.
  - exists st. split; [|split; [|done]].
    + intros fuel Hf. apply (crawl_fuel_le _ _ _ _ _ _ Hc). lia.
    + by destruct (crawl_Some_iter _ _ _ _ _ Hc) as (k & _ & Hq).
Qed.

Lemma site_links :
  forall page content link,
    page ∈ ["https://example.com/"; "https://example.com/about"] ->
    page_body site page = Some content ->
    link ∈ extractLinks site content page -> sameDomain link "example.com" = true ->
    link ∈ ["https://example.com/about"].
Proof.
  intros page content link Hp Hb Hl _.
  apply elem_of_cons in Hp as [-> | Hp]; [|apply list_elem_of_singleton in Hp as ->].
  - vm_compute in Hb. injection Hb as <-. vm_compute in Hl. exact Hl.
  - vm_compute in Hb. injection Hb as <-. vm_compute in Hl. by apply elem_of_nil in Hl.
Defined.

Lemma crawl_ends_on_finite_site_witness :
  exists st,
    (forall fuel, (1 < fuel)%nat ->
        crawl site "example.com" fuel (crawl_init "https://example.com/") = Some st)
    /\ queue st = []
    /\ (length (crawled st) <= 2)%nat.
Proof.
  exact (crawl_ends_on_finite_site site "example.com" "https://example.com/"
           ["https://example.com/about"] site_links).
Defined.

(** ** X7: the JS set *)

Lemma dom_insert_all (l : list string) : forall m : gmap string bool,
  dom (fold_left (fun m js => <[js := true]> m) l m) = dom m ∪ list_to_set l.
Proof.
  induction l as [|u l IH]; intros m; simpl.
  - by rewrite (right_id_L ∅ (∪)).
  - rewrite IH, dom_insert_L, (comm_L (∪) {[u]} (dom m)). by rewrite (assoc_L (∪)).
Qed.

(** X7. At every turn of the crawl loop the JS set holds exactly the URLs
    that [extractJS] returned for the pages fetched so far with their
    content; a page whose fetch or read failed adds nothing, and nothing is
    ever taken out. *)
Theorem js_set_characterised w domain root k u :
  u ∈ dom (jsSet (crawl_at w domain root k))
  <-> exists page content,
        page ∈ crawled (crawl_at w domain root k) /\ page_body w page = Some content
        /\ u ∈ extractJS w content page.
Proof.
  induction k as [|k IH].
  - simpl. split; [by intros ?%elem_of_empty | by intros (? & ? & ?%elem_of_nil & _)].
  - unfold crawl_at in *. rewrite Nat.iter_succ.
    set (st := Nat.iter k (crawl_page w domain) (crawl_init root)) in *.
    destruct (queue st) as [|p q] eqn:Hq; [by rewrite (crawl_page_idle _ _ _ Hq)|].
    rewrite (crawl_page_crawled _ _ _ _ _ Hq).
    destruct (page_body w p) as [c|] eqn:Hb.
    + rewrite (crawl_page_body _ _ _ _ _ _ Hq Hb). simpl.
      rewrite dom_insert_all, elem_of_union, IH, elem_of_list_to_set. split.
      * intros [(page & content & Hp & Hc & Hu) | Hu].
        -- exists page, content. split; [apply elem_of_app; by left | done].
        -- exists p, c. split; [|done]. apply elem_of_app. right. by left.
      * intros (page & content & Hp & Hc & Hu).
        apply elem_of_app in Hp as [Hp | ->%list_elem_of_singleton].
        -- left. by exists page, content.
        -- right. rewrite Hb in Hc. by injection Hc as <-.
    + rewrite (crawl_page_failed _ _ _ _ _ Hq Hb). simpl. rewrite IH. split.
      * intros (page & content & Hp & Hc & Hu).
        exists page, content. split; [apply elem_of_app; by left | done].
      * intros (page & content & Hp & Hc & Hu).
        apply elem_of_app in Hp as [Hp | ->%list_elem_of_singleton].
        -- by exists page, content.
        -- congruence.
Qed.

(** ** X8: only URLs that end with [.js] *)

Lemma HasSuffix_app s suffix :
  HasSuffix s suffix = true -> exists p, s = p +:+ suffix.
Proof.
  unfold HasSuffix. intros [Hl He]%andb_true_iff. apply String.eqb_eq in He.
  exists (slice_to s (len s - len suffix)). rewrite <- He at 2.
  unfold slice_to, slice_from. by rewrite take_drop.
Qed.

Lemma jsOf_ends base n : Forall (fun u => HasSuffix u ".js" = true) (jsOf base n).
Proof.
  destruct (is_element "script" n) eqn:Hs.
  - rewrite (jsOf_script base n Hs). apply Forall_forall.
    by intros u [Hu _]%list_elem_of_filter.
  - destruct (is_element "link" n) eqn:Hl.
    + rewrite (jsOf_link base n Hl). destruct preload_link; simpl; [|done].
      destruct (ends_js _) eqn:He; [|done]. by apply Forall_singleton.
    + by rewrite (jsOf_other base n Hs Hl).
Qed.

(** X8. Every URL that [extractJS] returns ends with [.js], and so does
    every URL of the JS set at every turn of the crawl loop; in particular
    the empty string, which stands for a reference that did not resolve, is
    never collected. *)
Theorem collected_urls_end_with_js :
  (forall w content base,
      Forall (fun u => HasSuffix u ".js" = true /\ exists p, u = p +:+ ".js")
             (extractJS w content base))
  /\ (forall w domain root k,
        set_Forall (fun u => HasSuffix u ".js" = true /\ u <> "")
                   (dom (jsSet (crawl_at w domain root k)))).
Proof.
  assert (H1 : forall w content base,
             Forall (fun u => HasSuffix u ".js" = true) (extractJS w content base)).
  { intros w content base. unfold extractJS.
    destruct (html_Parse w content) as [doc|] eqn:Hd; [|done].
    rewrite (recJS_app base doc []). simpl. apply Forall_flat_map, Forall_forall.
    intros n _. apply jsOf_ends. }
  split.
  - intros w content base. eapply Forall_impl; [apply H1|]. intros u Hu.
    split; [done | by apply HasSuffix_app].
  - intros w domain root k. induction k as [|k IH]; [by intros u ?%elem_of_empty|].
    unfold crawl_at in *. rewrite Nat.iter_succ.
    set (st := Nat.iter k (crawl_page w domain) (crawl_init root)) in *.
    destruct (queue st) as [|p q] eqn:Hq; [by rewrite (crawl_page_idle _ _ _ Hq)|].
    destruct (page_body w p) as [c|] eqn:Hb.
    + rewrite (crawl_page_body _ _ _ _ _ _ Hq Hb). simpl. rewrite dom_insert_all.
      intros u [Hu | Hu%elem_of_list_to_set]%elem_of_union; [by apply IH|].
      pose proof (proj1 (Forall_forall _ _) (H1 w c p) u Hu) as Hs.
      split; [done|]. by intros ->.
    + by rewrite (crawl_page_failed _ _ _ _ _ Hq Hb).
Qed.

(* ===================================================================== *)
(** * The files and the probes *)
(* ===================================================================== *)

(** ** X9: a file that cannot be created *)

(** X9. When JS URLs were found and one of the three files cannot be
    created, [main] returns at the first that fails: the files before it
    have been created and stay empty, those after it are never created, no
    URL is probed, and not one of the collected URLs is written
    anywhere. *)
Theorem create_failure_ends_the_run w domain st :
  size (jsSet st) <> 0%nat ->
  forallb (os_Create w) (file_names domain) = false ->
  exists n name,
    file_names domain !! n = Some name
    /\ os_Create w name = false
    /\ forallb (os_Create w) (firstn n (file_names domain)) = true
    /\ files (report w domain st)
       = map (fun name => (name, [])) (firstn n (file_names domain))
    /\ probed (report w domain st) = [].
Proof.
  intros Hsize. unfold file_names, report. simpl.
  destruct (Z.eqb_spec (Z.of_nat (size (jsSet st))) 0) as [E|_]; [lia|].
  destruct (os_Create w (domain +:+ "_all_js.txt")) eqn:Ha; simpl.
  2: { intros _. exists 0%nat. eexists. repeat split; done. }
  destruct (os_Create w (domain +:+ "_good_js.txt")) eqn:Hg; simpl.
  2: { intros _. exists 1%nat. eexists. repeat split; try done. simpl. by rewrite Ha. }
  destruct (os_Create w (domain +:+ "_bad_js.txt")) eqn:Hb; simpl; [done|].
  intros _. exists 2%nat. eexists. repeat split; try done. simpl. by rewrite Ha, Hg.
Qed.

Lemma create_failure_ends_the_run_witness :
  exists n name,
    file_names "example.com" !! n = Some name
    /\ os_Create site_no_good_file name = false
    /\ forallb (os_Create site_no_good_file) (firstn n (file_names "example.com")) = true
    /\ files (report site_no_good_file "example.com"
                (mkCrawl ∅ [] {[ "https://example.com/app.js" := true ]} []))
       = map (fun name => (name, [])) (firstn n (file_names "example.com"))
    /\ probed (report site_no_good_file "example.com"
                 (mkCrawl ∅ [] {[ "https://example.com/app.js" := true ]} []))
       = [].
Proof.
  apply (create_failure_ends_the_run site_no_good_file "example.com"
           (mkCrawl ∅ [] {[ "https://example.com/app.js" := true ]} []));
    [vm_compute; lia | reflexivity].
Defined.

(** ** X10: what is written and what is probed *)

(** X10. When JS URLs were found and the three files could be created:
    the all file lists every URL of the JS set exactly once; every URL of
    the set is probed exactly once; the good file holds the probed URLs
    that answered below 400 and the bad file the others, each in the order
    of the probes; and the number of JS files that [main] prints is the
    number of lines of the all file. *)
Theorem all_written_all_probed w domain st :
  range_ok w ->
  size (jsSet st) <> 0%nat ->
  forallb (os_Create w) (file_names domain) = true ->
  exists all good bad,
    files (report w domain st) = zip (file_names domain) [all; good; bad]
    /\ all ≡ₚ elements (dom (jsSet st))
    /\ probed (report w domain st) ≡ₚ elements (dom (jsSet st))
    /\ NoDup all /\ NoDup (probed (report w domain st))
    /\ good = filter (fun js => reachable w js = true) (probed (report w domain st))
    /\ bad = filter (fun js => reachable w js = false) (probed (report w domain st))
    /\ found (report w domain st) = Z.of_nat (length all).
Proof.
  intros Hrange Hsize. unfold file_names, report. simpl.
  destruct (Z.eqb_spec (Z.of_nat (size (jsSet st))) 0) as [E|_]; [lia|].
  destruct (os_Create w (domain +:+ "_all_js.txt")); simpl; [|done].
  destruct (os_Create w (domain +:+ "_good_js.txt")); simpl; [|done].
  destruct (os_Create w (domain +:+ "_bad_js.txt")); simpl; [|done].
  intros _. rewrite test_all_filter. simpl.
  pose proof (Hrange 0%nat (jsSet st)) as H0. pose proof (Hrange 1%nat (jsSet st)) as H1.
  eexists _, _, _. split; [reflexivity|].
  split; [done|]. split; [done|].
  split; [rewrite H0; apply NoDup_elements|].
  split; [rewrite H1; apply NoDup_elements|].
  split; [done|]. split; [done|].
  by rewrite H0, <- size_dom.
Qed.

Lemma all_written_all_probed_witness :
  exists all good bad,
    files (report site "example.com"
             (mkCrawl ∅ [] {[ "https://example.com/app.js" := true;
                              "https://example.com/chunk1.js" := true ]} []))
    = zip (file_names "example.com") [all; good; bad]
    /\ all ≡ₚ ["https://example.com/app.js"; "https://example.com/chunk1.js"]
    /\ good = ["https://example.com/app.js"]
    /\ bad = ["https://example.com/chunk1.js"].
Proof.
  destruct (all_written_all_probed site "example.com"
              (mkCrawl ∅ [] {[ "https://example.com/app.js" := true;
                               "https://example.com/chunk1.js" := true ]} []))
    as (all & good & bad & Hf & Hall & _);
    [exact site_range_ok | vm_compute; lia | reflexivity |].
  exists all, good, bad. split; [exact Hf|].
  vm_compute in Hf. injection Hf as <- <- <-.
  split; [apply perm_swap|]. split; reflexivity.
Defined.

(** ** X11: the status of a page *)

(** X11. The crawl loop never reads the status code of a page: two worlds
    that parse alike and hand out the same bodies give the same crawl, so
    a page answered with 404 or 500 is searched for scripts and links like
    any other. *)
Theorem page_status_is_not_read w w' domain fuel st :
  (forall content, html_Parse w content = html_Parse w' content) ->
  (forall page, page_body w page = page_body w' page) ->
  crawl w domain fuel st = crawl w' domain fuel st.
Proof.
  intros Hparse Hbody.
  assert (Hstep : forall st, crawl_page w domain st = crawl_page w' domain st).
  { intros s. destruct (queue s) as [|p q] eqn:Hq.
    - by rewrite !crawl_page_idle.
    - destruct (page_body w p) as [c|] eqn:Hb.
      + rewrite (crawl_page_body w _ _ _ _ _ Hq Hb).
        rewrite Hbody in Hb. rewrite (crawl_page_body w' _ _ _ _ _ Hq Hb).
        unfold extractJS, extractLinks. by rewrite Hparse.
      + rewrite (crawl_page_failed w _ _ _ _ Hq Hb).
        rewrite Hbody in Hb. by rewrite (crawl_page_failed w' _ _ _ _ Hq Hb). }
  revert st. induction fuel as [|fuel IH]; intros st; simpl; [done|].
  destruct (queue st); [done|]. by rewrite Hstep, IH.
Qed.

Lemma page_status_is_not_read_witness :
  crawl site "example.com" 3 (crawl_init "https://example.com/")
  = crawl site_failing "example.com" 3 (crawl_init "https://example.com/").
Proof.
  apply (page_status_is_not_read site site_failing "example.com" 3).
  - intros content. reflexivity.
  - intros page. unfold page_body, site_failing. cbn [crawl_Get].
    destruct (crawl_Get site page); reflexivity.
Defined.

(* ===================================================================== *)
(** * Resolution and the domain filter together *)
(* ===================================================================== *)

Lemma String_scheme u :
  url.Scheme u <> "" -> exists rest, url.String u = url.Scheme u +:+ ":" +:+ rest.
Proof.
  intros Hs. pose proof (proj2 (nonempty_true _) Hs) as Hn.
  unfold url.String. rewrite Hn. destruct (url.nonempty (url.Opaque u)).
  - eexists. by rewrite !sapp_assoc.
  - unfold url.String_hier. rewrite Hn.
    assert (forall a b, String.eqb (((url.Scheme u +:+ ":") +:+ a) +:+ b) "" = false) as ->.
    { intros a b. destruct (url.Scheme u); done. }
    cbn [andb]. cbn iota. eexists. by rewrite !sapp_assoc.
Qed.

Lemma setPath_ignore_Scheme v q : url.Scheme (url.setPath_ignore v q) = url.Scheme v.
Proof.
  unfold url.setPath_ignore, url.setPath.
  destruct (url.unescape q url.encodePath); done.
Qed.

Lemma ResolveReference_Scheme b r :
  url.Scheme (url.ResolveReference b r)
  = if String.eqb (url.Scheme r) "" then url.Scheme b else url.Scheme r.
Proof.
  unfold url.ResolveReference.
  destruct (_ || negb (url.is_nil (url.User r))); [by rewrite setPath_ignore_Scheme|].
  destruct (url.nonempty (url.Opaque r)); [done|].
  destruct (String.eqb (url.Path r) "" && url.nonempty (url.Opaque b)); [done|].
  by rewrite setPath_ignore_Scheme.
Qed.

(** ** X12: the empty result *)

(** X12. Against a base that parses to an absolute URL, [resolveURL]
    returns the empty string exactly when the reference does not parse.
    Any other result starts with a scheme and a colon: the reference's own
    scheme, in lower case, when it has one, and the scheme of the base
    otherwise. *)
Theorem resolve_empty_iff_unparsable base bu href :
  url.Parse base = Some bu -> url.IsAbs bu = true ->
  (resolveURL base href = "" <-> url.Parse href = None)
  /\ (forall r, url.Parse href = Some r ->
        ToLower (url.Scheme r) = url.Scheme r
        /\ exists rest,
             resolveURL base href
             = (if url.IsAbs r then url.Scheme r else url.Scheme bu) +:+ ":" +:+ rest).
Proof.
  intros Hb Ha.
  assert (Hbs : url.Scheme bu <> "").
  { unfold url.IsAbs in Ha. by apply negb_true_iff, String.eqb_neq in Ha. }
  assert (Hsome : forall r, url.Parse href = Some r ->
            exists rest,
              resolveURL base href
              = (if url.IsAbs r then url.Scheme r else url.Scheme bu) +:+ ":" +:+ rest).
  { intros r Hr. unfold resolveURL. rewrite Hr, Hb. destruct (url.IsAbs r) eqn:Hra.
    - apply String_scheme. unfold url.IsAbs in Hra.
      by apply negb_true_iff, String.eqb_neq in Hra.
    - unfold url.IsAbs in Hra. apply negb_false_iff in Hra.
      pose proof (ResolveReference_Scheme bu r) as Hsch. rewrite Hra in Hsch.
      rewrite <- Hsch. apply String_scheme. by rewrite Hsch. }
  split.
  - split.
    + intros He. destruct (url.Parse href) as [r|] eqn:Hr; [|done].
      destruct (Hsome r eq_refl) as [rest Hrest]. rewrite He in Hrest.
      destruct (url.IsAbs r) eqn:Hra.
      * unfold url.IsAbs in Hra. apply negb_true_iff, String.eqb_neq in Hra.
        destruct (url.Scheme r); done.
      * destruct (url.Scheme bu); done.
    + intros Hr. unfold resolveURL. by rewrite Hr.
  - intros r Hr. split; [|by apply Hsome].
    destruct (wf_scheme r (Parse_wf _ _ Hr)) as [-> | [_ Hl]]; done.
Qed.

Lemma resolve_empty_iff_unparsable_witness :
  (resolveURL "https://example.com/" "HTTP://cdn.example.net/a.js" = ""
   <-> url.Parse "HTTP://cdn.example.net/a.js" = None)
  /\ exists rest,
       resolveURL "https://example.com/" "HTTP://cdn.example.net/a.js"
       = "http" +:+ ":" +:+ rest.
Proof.
  destruct (resolve_empty_iff_unparsable "https://example.com/"
              (url.mkURL "https" "" None "example.com" "/" "" false false "" "" "")
              "HTTP://cdn.example.net/a.js" eq_refl eq_refl) as [H1 H2].
  split; [exact H1|].
  exact (proj2 (H2 (url.mkURL "http" "" None "cdn.example.net" "/a.js" "" false false "" "" "")
                  eq_refl)).
Defined.

(** ** X13: relative links stay on the domain *)

(** Reading back [front u B] and the fragment of [u]: the host is the one
    read from [B]. *)
Lemma reparse_front_host u v B :
  valid_scheme (url.Scheme u) = true -> ToLower (url.Scheme u) = url.Scheme u ->
  all okQ (url.RawQuery u) = true -> (url.ForceQuery u = true -> url.RawQuery u = "") ->
  all okP B = true ->
  url.parse_rest (url.Scheme u) B (url.ForceQuery u) (url.RawQuery u) = Some v ->
  exists u', url.Parse (front u B +:+ fpart u) = Some u' /\ url.Host u' = url.Host v.
Proof.
  intros Hv Hl Hq Hf HB Hpr.
  destruct (parse_front _ _ _ _ Hv Hl HB Hq Hf) as [Hok Hp]. fold (front u B) in Hok, Hp.
  rewrite (Parse_fpart _ _ Hok), Hp, Hpr.
  destruct (url.nonempty (url.Fragment u)) eqn:Hfr.
  - destruct (setFragment_stable v u (proj1 (nonempty_true _) Hfr)) as (_ & r & -> & _).
    by eexists.
  - by exists v.
Qed.

(** An absolute URL with a host, as [String] writes it, is read back with
    the same host, provided the host as written is read back. *)
Lemma reparse_host u :
  wfURL u -> url.Scheme u <> "" -> url.Opaque u = "" -> url.Host u <> "" ->
  host_reparses u = true ->
  exists u', url.Parse (url.String u) = Some u' /\ url.Host u' = url.Host u.
Proof.
  intros [Hsch [Hop Hop'] Hrel Hpath Hroot Homit Hq Hf] Hs Ho Hho Hhost.
  destruct Hsch as [E | [Hv Hl]]; [done|].
  pose proof (proj2 (nonempty_true _) Hs) as Hsn.
  pose proof (proj2 (nonempty_false _) Ho) as Hon.
  pose proof (proj2 (nonempty_true _) Hho) as Hhn.
  pose proof (host_reparses_eq _ Hhost) as Hh.
  specialize (Hroot Hs Ho).
  rewrite (String_hier_abs u Hsn Hon Hroot), (String_authority_abs u Hsn).
  assert (Hom : url.OmitHost u = false).
  { destruct (url.OmitHost u); [|done]. by destruct (Homit eq_refl) as (_ & ? & _). }
  rewrite Hom, Hhn. cbn [andb orb]. cbn iota.
  set (A := upart (url.User u) +:+ url.escape (url.Host u) url.encodeHost).
  set (v0 := url.mkURL (url.Scheme u) "" (option_map norm_user (url.User u)) (url.Host u)
               "" "" false (url.ForceQuery u) (url.RawQuery u) "" "").
  destruct (setPath_stable v0 u Hroot) as (r & Hset & Hesc).
  assert (HA : all okP A = true /\ lacks "/" A = true).
  { pose proof (okA_lacks_slash _ (escape_okA (url.Host u))) as Hsl.
    unfold A, lacks in *. rewrite !all_app.
    rewrite (okA_okP _ (escape_okA _)), Hsl, !andb_true_r.
    destruct (url.User u) as [ui|]; [|done]. simpl. rewrite !all_app.
    rewrite (okA_okP _ (Userinfo_String_okA _)).
    pose proof (okA_lacks_slash _ (Userinfo_String_okA ui)) as Hsl'.
    unfold lacks in Hsl'. by rewrite Hsl'. }
  destruct HA as [HA HA'].
  rewrite (sapp_assoc "//" A).
  destruct (reparse_front_host u (with_path v0 (url.Path u) r)
              ("//" +:+ A +:+ url.EscapedPath u)) as (u' & Hp & Hu'); try done.
  - simpl. by rewrite !all_app, HA, Hpath.
  - rewrite (parse_rest_authority _ _ _ _ _ (option_map norm_user (url.User u)) (url.Host u));
      try done. by apply parseAuthority_render.
  - by exists u'.
Qed.

(** A URL that [Parse] returns with opaque data has no host. *)
Lemma Parse_opaque_host s u : url.Parse s = Some u -> url.Host u <> "" -> url.Opaque u = "".
Proof.
  unfold url.Parse. destruct (Cut s "#") as [[X frag] ?].
  destruct (url.parse X) as [v|] eqn:Hp; [|done].
  assert (Hv : url.Host v <> "" -> url.Opaque v = "").
  { revert Hp. unfold url.parse. destruct (url.stringContainsCTLByte X); [done|].
    destruct (String.eqb X "*"); [by intros [= <-]|].
    destruct (url.getScheme X) as [[sc rest]|]; [|done].
    destruct (url.splitQuery rest) as [[r f] q]. unfold url.parse_rest.
    destruct (negb (HasPrefix r "/") && negb (String.eqb (ToLower sc) ""));
      [by intros [= <-]|].
    destruct (negb (HasPrefix r "/") && Contains _ _); [done|].
    assert (Hset : forall v0 p, url.Opaque v0 = "" -> url.setPath v0 p = Some v ->
                                url.Host v <> "" -> url.Opaque v = "").
    { intros v0 p H0. unfold url.setPath. destruct (url.unescape p _); [|done].
      by intros [= <-]. }
    destruct (_ && HasPrefix r "//").
    - destruct (0 <=? _); destruct (url.parseAuthority _) as [[user host]|]; try done;
        by apply Hset.
    - by apply Hset. }
  destruct (String.eqb frag ""); [by intros [= <-]|].
  unfold url.setFragment. destruct (url.unescape frag _); [|done]. by intros [= <-].
Qed.

Lemma setPath_ignore_fields v q :
  url.Opaque (url.setPath_ignore v q) = url.Opaque v
  /\ url.Host (url.setPath_ignore v q) = url.Host v
  /\ url.Scheme (url.setPath_ignore v q) = url.Scheme v.
Proof.
  unfold url.setPath_ignore, url.setPath. destruct (url.unescape q url.encodePath); done.
Qed.

(** X13. A reference without scheme and without authority, found on an
    absolute page URL whose host is the domain, resolves to a link that the
    domain filter accepts, whenever the domain is not empty and is a host
    that [url.String] writes without escapes: relative links are
    followed. *)
Theorem relative_link_stays_in_scope base href domain bu r :
  url.Parse base = Some bu -> url.IsAbs bu = true -> url.Host bu = domain ->
  domain <> "" -> url.escape domain url.encodeHost = domain ->
  url.Parse href = Some r -> url.IsAbs r = false -> url.Host r = "" -> url.User r = None ->
  sameDomain (resolveURL base href) domain = true.
Proof.
  intros Hb Hba Hbh Hd Hplain Hr Hra Hrh Hru.
  assert (Hbs : url.Scheme bu <> "").
  { unfold url.IsAbs in Hba. by apply negb_true_iff, String.eqb_neq in Hba. }
  assert (Hrs : url.Scheme r = "").
  { unfold url.IsAbs in Hra. by apply negb_false_iff, String.eqb_eq in Hra. }
  pose proof (Parse_wf _ _ Hb) as Hwb. pose proof (Parse_wf _ _ Hr) as Hwr.
  destruct (wf_relative r Hwr Hrs) as [Hro Hrom].
  assert (Hbo : url.Opaque bu = "").
  { apply (Parse_opaque_host base); [done | by rewrite Hbh]. }
  set (u := url.ResolveReference bu r).
  assert (Hu : url.Opaque u = "" /\ url.Host u = domain /\ url.Scheme u = url.Scheme bu).
  { unfold u, url.ResolveReference. rewrite Hrs, Hrh, Hru, Hro, Hbo.
    change (url.nonempty "") with false. rewrite andb_false_r. cbn [orb negb url.is_nil].
    cbn iota. change (String.eqb "" "") with true. cbn iota.
    destruct (setPath_ignore_fields
                (url.mkURL (url.Scheme bu) "" (url.User bu) (url.Host bu) (url.Path r)
                   (url.RawPath r) (url.OmitHost r) (url.ForceQuery r)
                   (if String.eqb (url.Path r) "" && negb (url.ForceQuery r)
                       && String.eqb (url.RawQuery r) ""
                    then url.RawQuery bu else url.RawQuery r)
                   (if String.eqb (url.Path r) "" && negb (url.ForceQuery r)
                       && String.eqb (url.RawQuery r) "" && String.eqb (url.Fragment r) ""
                    then url.Fragment bu else url.Fragment r)
                   (if String.eqb (url.Path r) "" && negb (url.ForceQuery r)
                       && String.eqb (url.RawQuery r) "" && String.eqb (url.Fragment r) ""
                    then url.RawFragment bu else url.RawFragment r))
                (url.resolvePath (url.EscapedPath bu) (url.EscapedPath r)))
      as (H1 & H2 & H3).
    rewrite H1, H2, H3. done. }
  destruct Hu as (Huo & Huh & Hus).
  assert (Hres : resolved base href = Some u).
  { unfold resolved. by rewrite Hr, Hra, Hb. }
  destruct (reparse_host u) as (u' & Hp & Hh').
  - by apply (resolved_wf base href).
  - by rewrite Hus.
  - done.
  - by rewrite Huh.
  - apply (resolved_plain_host base href); [done | by rewrite Huh].
  - assert (Hstr : resolveURL base href = url.String u).
    { unfold resolveURL. by rewrite Hr, Hra, Hb. }
    unfold sameDomain. rewrite Hstr, Hp, Hh', Huh. apply String.eqb_refl.
Qed.

Lemma relative_link_stays_in_scope_witness :
  sameDomain (resolveURL "https://example.com/docs/a/" "../b c/?q=1#top") "example.com" = true.
Proof.
  apply (relative_link_stays_in_scope "https://example.com/docs/a/" "../b c/?q=1#top"
           "example.com"
           (default url.zero (url.Parse "https://example.com/docs/a/"))
           (default url.zero (url.Parse "../b c/?q=1#top")));
    try (vm_compute; reflexivity). discriminate.
Defined.

(** ** X14: a domain that is not a host *)

Lemma unescape_host_bytes m raw : forall h,
  url.encoding_eqb m url.encodeHost || url.encoding_eqb m url.encodeZone = true ->
  url.unescape raw m = Some h -> all host_byte h = true.
Proof.
  intros h Hm. revert h.
  induction raw as [|c raw Hc IH|h1 h2 raw' IH| |h0] using pct_ind; intros h.
  - by intros [= <-].
  - cbn [url.unescape]. rewrite Hc. destruct (Ascii.eqb c "+") eqn:Hp.
    + destruct (url.unescape raw m) as [h'|] eqn:Hu; [|done]. intros [= <-].
      apply Ascii.eqb_eq in Hp as ->.
      assert (url.encoding_eqb m url.encodeQueryComponent = false) as ->
        by (by destruct m).
      cbn [all]. by rewrite (IH h' eq_refl).
    + rewrite Hm. cbn [andb].
      destruct ((url.code c <? 128)%N && url.shouldEscape c url.encodeHost) eqn:E; [done|].
      destruct (url.unescape raw m) as [h'|] eqn:Hu; [|done]. intros [= <-].
      cbn [all]. rewrite (IH h' eq_refl), andb_true_r.
      unfold host_byte. by rewrite E.
  - cbn [url.unescape]. change (Ascii.eqb "%" "%") with true. cbn iota.
    destruct (negb (url.ishex h1 && url.ishex h2)); [done|].
    destruct (url.encoding_eqb m url.encodeHost && (url.unhex h1 <? 8)%N
              && negb (Ascii.eqb h1 "2" && Ascii.eqb h2 "5")) eqn:E1; [done|].
    destruct (url.encoding_eqb m url.encodeZone
              && negb (Ascii.eqb h1 "2" && Ascii.eqb h2 "5")
              && negb (Ascii.eqb (ascii_of_N (url.unhex h1 * 16 + url.unhex h2)) " ")
              && url.shouldEscape (ascii_of_N (url.unhex h1 * 16 + url.unhex h2))
                                  url.encodeHost) eqn:E2; [done|].
    destruct (url.unescape raw' m) as [h'|] eqn:Hu; [|done]. intros [= <-].
    cbn [all]. rewrite (IH h' eq_refl), andb_true_r.
    unfold host_byte.
    destruct (Ascii.eqb h1 "2" && Ascii.eqb h2 "5") eqn:E25.
    { apply andb_true_iff in E25 as [->%Ascii.eqb_eq ->%Ascii.eqb_eq]. reflexivity. }
    cbn [negb] in E1, E2. rewrite !andb_true_r in E1, E2.
    destruct (url.encoding_eqb m url.encodeHost) eqn:Emh.
    + cbn [andb] in E1. apply N.ltb_ge in E1.
      assert (Hcode : (url.code (ascii_of_N (url.unhex h1 * 16 + url.unhex h2)) <? 128)%N
                      = false).
      { apply N.ltb_ge. unfold url.code. rewrite N_ascii_embedding; [lia|].
        pose proof (unhex_small h1). pose proof (unhex_small h2). lia. }
      by rewrite Hcode.
    + cbn [orb] in Hm. rewrite Hm in E2. cbn [andb] in E2.
      destruct (Ascii.eqb (ascii_of_N (url.unhex h1 * 16 + url.unhex h2)) " ");
        [by rewrite orb_true_r|].
      cbn [negb andb] in E2. rewrite E2. by rewrite andb_false_r.
  - done.
  - done.
Qed.

Lemma parseHost_bytes raw h : url.parseHost raw = Some h -> all host_byte h = true.
Proof.
  unfold url.parseHost. destruct (HasPrefix raw "[").
  - destruct (LastIndex raw "]" <? 0); [done|].
    destruct (negb (url.validOptionalPort _)); [done|].
    destruct (0 <=? _).
    + destruct (url.unescape (slice_to raw _) url.encodeHost) as [h1|] eqn:H1; [|done].
      destruct (url.unescape (slice_from (slice_to raw _) _) url.encodeZone) as [h2|] eqn:H2;
        [|done].
      destruct (url.unescape (slice_from raw _) url.encodeHost) as [h3|] eqn:H3; [|done].
      intros [= <-]. rewrite !all_app.
      rewrite (unescape_host_bytes url.encodeHost _ _ eq_refl H1).
      rewrite (unescape_host_bytes url.encodeZone _ _ eq_refl H2).
      by rewrite (unescape_host_bytes url.encodeHost _ _ eq_refl H3).
    + by apply (unescape_host_bytes url.encodeHost).
  - destruct (_ && _); [done|]. by apply (unescape_host_bytes url.encodeHost).
Qed.

(** Only a string of host bytes passes the filter as a domain. *)
Lemma sameDomain_host_bytes link domain :
  sameDomain link domain = true -> all host_byte domain = true.
Proof.
  unfold sameDomain. destruct (url.Parse link) as [u|] eqn:Hp; [|done].
  intros <-%String.eqb_eq. destruct (Parse_host _ _ Hp) as [raw Hraw].
  by apply (parseHost_bytes raw).
Qed.

(** X14. The domain argument is compared with the host of parsed links,
    and such a host holds only bytes above ASCII, ASCII bytes that a host
    need not escape, [%] and the space: never a slash, a question mark, a
    [#] or an [@]. So when the domain holds any other byte (as
    [example.com/] and [example.com/blog] do) no link at all passes the
    filter, and a run that ends has fetched the root and nothing else. A
    domain with [%] or a space is not covered: [a%b] is the host of
    [http://a%25b/x]. *)
Theorem domain_with_path_stops_the_crawl w prog domain rest fuel r :
  main w (prog :: domain :: rest) fuel = Some r ->
  all host_byte domain = false ->
  (forall link u, url.Parse link = Some u -> all host_byte (url.Host u) = true)
  /\ all (fun c => negb (host_byte c)) "/?#@" = true
  /\ (forall link, sameDomain link domain = false)
  /\ pages r = [root_of domain rest]
  /\ sameDomain "http://a%25b/x" "a%b" = true.
Proof.
  intros Hm Hd.
  assert (Hno : forall link, sameDomain link domain = false).
  { intros link. destruct (sameDomain link domain) eqn:Hs; [|done].
    apply sameDomain_host_bytes in Hs. congruence. }
  split.
  { intros link u Hp. destruct (Parse_host _ _ Hp) as [raw Hraw].
    by apply (parseHost_bytes raw). }
  split; [reflexivity|]. split; [exact Hno|]. split; [|reflexivity].
  rewrite main_crawls in Hm. destruct (crawl _ _ _ _) as [st|] eqn:Hc; [|done].
  injection Hm as <-. rewrite report_pages.
  destruct (crawl_Some_iter _ _ _ _ _ Hc) as (k & Hst & Hq).
  destruct (crawl_at_root w domain (root_of domain rest) k) as [more Hmore].
  pose proof (crawl_at_scope w domain (root_of domain rest) k) as Hsc.
  destruct (crawl_at_once w domain (root_of domain rest) k) as (Hnd & _).
  unfold crawl_at in *. rewrite <- Hst in *. simpl in Hnd.
  rewrite Hq, app_nil_r in *. rewrite Hmore in *.
  destruct more as [|p more]; [done|]. exfalso.
  apply NoDup_cons in Hnd as [Hnotin _].
  apply Forall_cons in Hsc as [_ Hsc]. apply Forall_cons in Hsc as [[-> | Hp] _].
  - apply Hnotin. by left.
  - by rewrite Hno in Hp.
Qed.

Lemma domain_with_path_stops_the_crawl_witness :
  (forall link, sameDomain link "example.com/" = false)
  /\ pages (default (mkRun 1 [] [] [] 0 0) (main site ["JsCrawlar"; "example.com/"] 1))
     = ["https://example.com//"].
Proof.
  destruct (domain_with_path_stops_the_crawl site "JsCrawlar" "example.com/" [] 1
              (default (mkRun 1 [] [] [] 0 0) (main site ["JsCrawlar"; "example.com/"] 1)))
    as (_ & _ & H1 & H2 & _); [vm_compute; reflexivity | vm_compute; reflexivity |].
  split; [exact H1 | exact H2].
Defined.

(** ** X15: the filter on a resolved link *)

(** A URL that [resolveURL] writes with a host has no opaque data. *)
Lemma resolved_opaque_host base href u :
  resolved base href = Some u -> url.Host u <> "" -> url.Opaque u = "".
Proof.
  unfold resolved. destruct (url.Parse href) as [r|] eqn:Hr; [|done].
  destruct (url.IsAbs r) eqn:Hra.
  - intros [= <-]. by apply (Parse_opaque_host href).
  - destruct (url.Parse base) as [b|] eqn:Hb; [|done]. intros [= <-].
    unfold url.IsAbs in Hra. apply negb_false_iff, String.eqb_eq in Hra.
    destruct (wf_relative r (Parse_wf _ _ Hr) Hra) as [Hro _].
    unfold url.ResolveReference. rewrite Hro. change (url.nonempty "") with false. cbn iota.
    destruct (_ || negb (url.is_nil (url.User r))).
    { intros _. by destruct (setPath_ignore_fields
                               (url.mkURL (if String.eqb (url.Scheme r) "" then url.Scheme b
                                           else url.Scheme r) "" (url.User r) (url.Host r)
                                  (url.Path r) (url.RawPath r) (url.OmitHost r)
                                  (url.ForceQuery r) (url.RawQuery r) (url.Fragment r)
                                  (url.RawFragment r))
                               (url.resolvePath (url.EscapedPath r) "")) as (-> & _). }
    destruct (String.eqb (url.Path r) "" && url.nonempty (url.Opaque b)); [done|].
    intros _.
    match goal with
    | |- url.Opaque (url.setPath_ignore ?v ?q) = _ =>
        by destruct (setPath_ignore_fields v q) as (-> & _)
    end.
Qed.

(** X15. A link that [resolveURL] wrote from an absolute URL with a host
    that needs no escape passes the domain filter exactly when that host
    is the domain: what [sameDomain] reads back from the string is the
    host the string was written from. *)
Theorem resolved_link_in_scope_iff base href u domain :
  resolved base href = Some u -> url.IsAbs u = true -> url.Host u <> "" ->
  url.escape (url.Host u) url.encodeHost = url.Host u ->
  resolveURL base href = url.String u
  /\ (sameDomain (resolveURL base href) domain = true <-> url.Host u = domain).
Proof.
  intros Hres Ha Hh Hplain.
  assert (Hs : url.Scheme u <> "").
  { unfold url.IsAbs in Ha. by apply negb_true_iff, String.eqb_neq in Ha. }
  assert (Hstr : resolveURL base href = url.String u).
  { by rewrite resolveURL_resolved, Hres. }
  split; [exact Hstr|].
  destruct (reparse_host u) as (u' & Hp & Hh'); try done.
  - by apply (resolved_wf base href).
  - by apply (resolved_opaque_host base href).
  - by apply (resolved_plain_host base href).
  - unfold sameDomain. rewrite Hstr, Hp, Hh'. apply String.eqb_eq.
Qed.

Lemma resolved_link_in_scope_iff_witness :
  resolveURL "https://example.com/" "HTTPS://cdn.example.net:8443/lib/app.js"
  = "https://cdn.example.net:8443/lib/app.js"
  /\ (sameDomain (resolveURL "https://example.com/" "HTTPS://cdn.example.net:8443/lib/app.js")
                 "cdn.example.net"
      = true
      <-> "cdn.example.net:8443" = "cdn.example.net").
Proof.
  exact (resolved_link_in_scope_iff "https://example.com/"
           "HTTPS://cdn.example.net:8443/lib/app.js"
           (url.mkURL "https" "" None "cdn.example.net:8443" "/lib/app.js" "" false false
                      "" "" "")
           "cdn.example.net" eq_refl eq_refl ltac:(discriminate) eq_refl).
Defined.
